(** * Siamese MNIST one-shot learning: pair sampling, loss, accuracy and the
      distance-aggregation classifier

    A shallow embedding of [one_shot_learning/keras/siamese_mnist.py].

    Conventions of the embedding.
    - Python exceptions are explicit: a computation returns an [outcome].
    - The process-wide NumPy random generator is a stream of raw draws
      ([entropy]) read through a [cursor]; [randint low high] maps a raw draw
      into the half-open interval, so every value NumPy may return is returned
      for some stream, and a statement quantified over all streams speaks
      about every run.
    - Calls into the deep-learning framework that matter for ordering
      (building a network, [model.fit], ...) are recorded in a [trace].
    - Scores, losses and accuracies are finite floats in the source; they are
      read here as the rationals they denote ([Q]), with [NaN] kept apart for
      the mean of an empty array.  The means of the loss and of the two
      accuracies are exact, their rounding is not modelled; the median and
      the mean the aggregation classifier compares are whatever the library
      returns on a float32 array: they are parameters of the classifier.
    - The module constant [NUM_CLASSES] is read as a parameter [K] of the
      functions that use it; the source binds it to 10. *)

From Stdlib Require Import String.
From Stdlib Require Import List Arith PeanoNat ZArith QArith Qminmax Qabs Qpower
  Bool Sorted Lia.
Import ListNotations.

Close Scope Q_scope.
Set Implicit Arguments.

(** ** Runtime: exceptions, the random source, the trace *)

Module Runtime.

Inductive exn : Type :=
| IndexError
| ValueError
| Exception (msg : string).

Inductive outcome (A : Type) : Type :=
| Ok (a : A)
| Raise (e : exn).

Arguments Ok {A} a.
Arguments Raise {A} e.

Definition obind {A B} (o : outcome A) (k : A -> outcome B) : outcome B :=
  match o with
  | Ok a => k a
  | Raise e => Raise e
  end.

(** Calls into the framework, in the order [main] makes them. *)
Inductive event : Type :=
| EvSeed (seed : nat)
| EvLoadData
| EvBuildBase (kind : string)
| EvCompile (head : string)
| EvSummary
| EvFit (epochs initial_epoch : Z).

Record world : Type := MkWorld {
  entropy : nat -> nat;
  cursor : nat;
  trace : list event
}.

Definition M (A : Type) : Type := world -> outcome A * world.

Definition ret {A} (a : A) : M A := fun w => (Ok a, w).

Definition raise {A} (e : exn) : M A := fun w => (Raise e, w).

Definition bind {A B} (m : M A) (k : A -> M B) : M B :=
  fun w =>
    match m w with
    | (Ok a, w') => k a w'
    | (Raise e, w') => (Raise e, w')
    end.

Definition lift {A} (o : outcome A) : M A := fun w => (o, w).

Definition emit (e : event) : M unit :=
  fun w => (Ok tt, MkWorld (entropy w) (cursor w) (trace w ++ [e])).

Fixpoint mapO {X Y} (f : X -> outcome Y) (l : list X) : outcome (list Y) :=
  match l with
  | [] => Ok []
  | x :: t => obind (f x) (fun y => obind (mapO f t) (fun ys => Ok (y :: ys)))
  end.

Fixpoint foldO {X S} (f : S -> X -> outcome S) (l : list X) (s : S)
  : outcome S :=
  match l with
  | [] => Ok s
  | x :: t => obind (f s x) (foldO f t)
  end.

(** A [for] loop whose body updates the loop-carried variables [s]. *)
Fixpoint foldM {X S} (f : S -> X -> M S) (l : list X) (s : S) : M S :=
  match l with
  | [] => ret s
  | x :: t => bind (f s x) (foldM f t)
  end.

End Runtime.
Import Runtime.

Declare Scope py_scope.
Delimit Scope py_scope with py.
Notation "x <- m ;; k" := (bind m (fun x => k))
  (at level 61, m at next level, right associativity) : py_scope.
Notation "x <~ o ;; k" := (obind o (fun x => k))
  (at level 61, o at next level, right associativity) : py_scope.
Open Scope py_scope.

(** ** The Python and NumPy primitives the program uses *)

Module Np.

(** [range(a, b)] *)
Definition range (a b : nat) : list nat := seq a (b - a).

(** [l[i]] for [i >= 0]: [IndexError] out of range. *)
Definition getitem {A} (l : list A) (i : nat) : outcome A :=
  match nth_error l i with
  | Some a => Ok a
  | None => Raise IndexError
  end.

(** [l[:e]]: a negative bound counts from the end. *)
Definition slice_to {A} (e : Z) (l : list A) : list A :=
  if (e <? 0)%Z then firstn (length l - Z.to_nat (- e)) l
  else firstn (Z.to_nat e) l.

(** [min(l)] on a Python list: [ValueError] when empty. *)
Definition py_min (l : list nat) : outcome nat :=
  match l with
  | [] => Raise ValueError
  | a :: t => Ok (fold_left Nat.min t a)
  end.

(** [np.random.randint(low, high)]: a draw from [low, high); [ValueError]
    when the interval is empty. *)
Definition randint (low high : nat) : M nat :=
  fun w =>
    if low <? high
    then (Ok (low + entropy w (cursor w) mod (high - low)),
          MkWorld (entropy w) (S (cursor w)) (trace w))
    else (Raise ValueError, w).

(** [np.where(labels == i)[0]], positions counted from [pos]. *)
Fixpoint where_eq_from (pos : nat) (labels : list nat) (i : nat) : list nat :=
  match labels with
  | [] => []
  | l :: t =>
      if l =? i then pos :: where_eq_from (S pos) t i
      else where_eq_from (S pos) t i
  end.

Definition where_eq (labels : list nat) (i : nat) : list nat :=
  where_eq_from 0 labels i.

(** A float result: a finite value or the NaN NumPy and the backend return
    for the mean of nothing. *)
Inductive np_float : Type :=
| Finite (q : Q)
| NaN.

(** [x < y] on finite scores. *)
Definition Qltb (x y : Q) : bool := negb (Qle_bool y x).

Definition b2q (b : bool) : Q := if b then 1%Q else 0%Q.

Definition Qsum (l : list Q) : Q := fold_right Qplus 0%Q l.

(** [np.mean], [K.mean] over all entries, without rounding. *)
Definition np_mean (l : list Q) : np_float :=
  match l with
  | [] => NaN
  | _ :: _ => Finite (Qsum l / inject_Z (Z.of_nat (length l)))
  end.

(** [np.min] over all entries: [ValueError] on an empty array. *)
Definition np_min (l : list Q) : outcome Q :=
  match l with
  | [] => Raise ValueError
  | a :: t => Ok (fold_left Qmin t a)
  end.

Fixpoint insert_sorted (a : Q) (l : list Q) : list Q :=
  match l with
  | [] => [a]
  | b :: t => if Qle_bool a b then a :: b :: t else b :: insert_sorted a t
  end.

Definition sort (l : list Q) : list Q := fold_right insert_sorted [] l.

(** [np.median] over all entries, without rounding: the middle of the sorted
    values, the mean of the two middle ones for an even count. *)
Definition np_median (l : list Q) : np_float :=
  let s := sort l in
  let n := length s in
  match n with
  | O => NaN
  | _ =>
      if Nat.odd n then Finite (nth (n / 2) s 0%Q)
      else Finite ((nth (n / 2 - 1) s 0%Q + nth (n / 2) s 0%Q) / 2)
  end.

Fixpoint zip_with {X Y Z} (f : X -> Y -> Z) (xs : list X) (ys : list Y)
  : list Z :=
  match xs, ys with
  | x :: xs', y :: ys' => f x y :: zip_with f xs' ys'
  | _, _ => []
  end.

(** An elementwise binary operation on two arrays with one batch axis:
    equal lengths pair up, a length-one operand is broadcast, anything else
    is a shape error. *)
Definition elementwise {X Y Z} (f : X -> Y -> Z) (xs : list X) (ys : list Y)
  : outcome (list Z) :=
  if length xs =? length ys then Ok (zip_with f xs ys)
  else
    match xs, ys with
    | [x], _ => Ok (map (f x) ys)
    | _, [y] => Ok (map (fun x => f x y) xs)
    | _, _ => Raise ValueError
    end.

(** [a.ravel()] of a two-dimensional array given by rows. *)
Definition ravel {X} (a : list (list X)) : list X := concat a.

(** [a[:, 0]] and [a[:, 1]] on an array of pairs; [np.array([])] has one
    axis only, so both raise [IndexError] on it. *)
Definition column0 {X} (a : list (X * X)) : outcome (list X) :=
  match a with
  | [] => Raise IndexError
  | _ :: _ => Ok (map fst a)
  end.

Definition column1 {X} (a : list (X * X)) : outcome (list X) :=
  match a with
  | [] => Raise IndexError
  | _ :: _ => Ok (map snd a)
  end.

End Np.
Import Np.

(** ** siamese_mnist.py *)

Module SiameseMnist.

Definition DISTANCE_THRESHOLD : Q := (1 # 2)%Q.
Definition NUM_CLASSES : nat := 10.
Definition SEED : nat := 42.

(** Lines 38-45.  [y_true] and [y_pred] are the batch of labels and the
    batch of scores. *)
Definition contrastive_loss (y_true y_pred : list Q) : outcome np_float :=
  let margin := 1%Q in
  let sqaure_pred := map (fun p => p * p)%Q y_pred in
  let margin_square :=
    map (fun m => m * m)%Q
        (map (fun p => Qmax (margin - p) 0)%Q y_pred) in
  same <~ elementwise Qmult y_true sqaure_pred ;;
  diff <~ elementwise Qmult (map (fun t => 1 - t)%Q y_true) margin_square ;;
  total <~ elementwise Qplus same diff ;;
  Ok (np_mean total).

(** Lines 215-219.  [y_true] holds the integer pair labels, [y_pred] the
    rows of the prediction array. *)
Definition compute_accuracy (y_true : list Z) (y_pred : list (list Q))
  : outcome np_float :=
  let pred := map (fun s => Qltb s DISTANCE_THRESHOLD) (ravel y_pred) in
  hits <~ elementwise (fun p y => Z.eqb (Z.b2z p) y) pred y_true ;;
  Ok (np_mean (map b2q hits)).

(** Lines 222-225.  The metric sees float labels; the comparison result is
    cast to the labels' type before [tf.equal]. *)
Definition acc (y_true y_pred : list Q) : outcome np_float :=
  let cast := map (fun s => b2q (Qltb s DISTANCE_THRESHOLD)) y_pred in
  hits <~ elementwise Qeq_bool y_true cast ;;
  Ok (np_mean (map b2q hits)).

Section Pairs.

(** [K] stands for the module constant [NUM_CLASSES]. *)
Variable K : nat.
Variable A : Type.

Definition pair_acc : Type := (list (A * A) * list Z)%type.

(** The body of the innermost loop of [create_pairs] (lines 58-66), on the
    loop-carried lists [pairs] and [labels]. *)
Definition pair_step (x : list A) (digit_indices : list (list nat))
    (d i j : nat) (acc : pair_acc) : M pair_acc :=
  let '(pairs, labels) := acc in
  pool_d <- lift (getitem digit_indices d) ;;
  z1 <- lift (getitem pool_d i) ;;
  z2 <- lift (getitem pool_d j) ;;
  a1 <- lift (getitem x z1) ;;
  a2 <- lift (getitem x z2) ;;
  let pairs := pairs ++ [(a1, a2)] in
  rand_inc <- randint 1 K ;;
  rand_idx <- randint 0 (length pool_d) ;;
  let dn := (d + rand_inc) mod K in
  z1 <- lift (getitem pool_d i) ;;
  pool_dn <- lift (getitem digit_indices dn) ;;
  z2 <- lift (getitem pool_dn rand_idx) ;;
  a1 <- lift (getitem x z1) ;;
  a2 <- lift (getitem x z2) ;;
  let pairs := pairs ++ [(a1, a2)] in
  ret (pairs, labels ++ [1%Z; 0%Z]).

(** [min([len(digit_indices[d]) for d in range(NUM_CLASSES)])] *)
Definition min_pool_len (digit_indices : list (list nat)) : outcome nat :=
  lens <~ mapO (fun d => pool <~ getitem digit_indices d ;; Ok (length pool))
               (range 0 K) ;;
  py_min lens.

(** [range(n - 1)] with [n = 0] is empty in Python, as [seq 0 (0 - 1)] is
    here. *)
Definition create_pairs (x : list A) (digit_indices : list (list nat))
  : M pair_acc :=
  n <- lift (min_pool_len digit_indices) ;;
  foldM (fun acc d =>
    foldM (fun acc i =>
      foldM (fun acc j => pair_step x digit_indices d i j acc)
            (range (i + 1) n) acc)
          (range 0 (n - 1)) acc)
        (range 0 K) ([], []).

Definition get_digit_indices (labels : list nat) (examples_per_class : Z)
  : list (list nat) :=
  let digit_indices := map (fun i => where_eq labels i) (range 0 K) in
  map (fun di => slice_to examples_per_class di) digit_indices.

End Pairs.

(** *** Model construction (lines 70-212)

    The layers are the framework's; what the program decides is which
    builder runs, and that is what the trace records. *)

Record siamese_model : Type := MkModel {
  model_base : string;
  model_loss : string
}.

Definition create_base_nn_network : M string :=
  _ <- emit (EvBuildBase "nn") ;; ret "nn"%string.

Definition create_base_cnn_network : M string :=
  _ <- emit (EvBuildBase "cnn") ;; ret "cnn"%string.

Definition create_base_fcn_network : M string :=
  _ <- emit (EvBuildBase "fcn") ;; ret "fcn"%string.

Definition create_simple_siamese_model (base_network_model : string)
  : M siamese_model :=
  base_network <-
    (if (base_network_model =? "nn")%string then create_base_nn_network
     else if (base_network_model =? "cnn")%string then create_base_cnn_network
     else if (base_network_model =? "fcn")%string then create_base_fcn_network
     else raise (Exception "Unknown base network model type.")) ;;
  _ <- emit (EvCompile "contrastive_loss") ;;
  ret (MkModel base_network "contrastive_loss").

Definition create_dense_siamese_model (base_network_model : string)
  : M siamese_model :=
  base_network <-
    (if (base_network_model =? "nn")%string then create_base_nn_network
     else if (base_network_model =? "cnn")%string then create_base_cnn_network
     else if (base_network_model =? "fcn")%string then create_base_fcn_network
     else raise (Exception "Unknown base network model type.")) ;;
  _ <- emit (EvCompile "binary_crossentropy") ;;
  ret (MkModel base_network "binary_crossentropy").

(** *** [main], from the seeding to the end of training (lines 277-339) *)

Record arguments : Type := MkArgs {
  min_epochs : Z;
  max_epochs : Z;
  batch_size : Z;
  examples_per_class : Z;
  model : string;
  base_network : string;
  early_stopping : bool
}.

Record dataset (A : Type) : Type := MkData {
  x_train : list A;
  y_train : list nat;
  x_test : list A;
  y_test : list nat
}.

(** [np.random.seed(SEED)] rewinds the generator to the start of the stream
    the seed determines. *)
Definition seed : M unit :=
  fun w => (Ok tt, MkWorld (entropy w) 0 (trace w ++ [EvSeed SEED])).

(** The arguments of a [model.fit] call are evaluated first; slicing an
    empty pair array fails there. *)
Definition fit {A} (tr_pairs te_pairs : list (A * A)) (epochs initial : Z)
  : M unit :=
  _ <- lift (column0 tr_pairs) ;;
  _ <- lift (column1 tr_pairs) ;;
  _ <- lift (column0 te_pairs) ;;
  _ <- lift (column1 te_pairs) ;;
  emit (EvFit epochs initial).

Section Main.

Variable K : nat.
Variable A : Type.

(** The steps after training (plots, final evaluation) follow the last
    [fit]; the classification loop is [classify] below. *)
Definition main (args : arguments) (data : dataset A) : M siamese_model :=
  _ <- seed ;;
  _ <- emit EvLoadData ;;
  let tr_digit_indices :=
    get_digit_indices K (y_train data) (examples_per_class args) in
  tr <- create_pairs K (x_train data) tr_digit_indices ;;
  let te_digit_indices :=
    get_digit_indices K (y_test data) (examples_per_class args) in
  te <- create_pairs K (x_test data) te_digit_indices ;;
  net <-
    (if (model args =? "simple_head")%string
     then create_simple_siamese_model (base_network args)
     else if (model args =? "dense_head")%string
     then create_dense_siamese_model (base_network args)
     else raise (Exception "Unknown model type.")) ;;
  _ <- emit EvSummary ;;
  _ <- (if (min_epochs args =? 0)%Z then ret tt
        else fit (fst tr) (fst te) (min_epochs args) 0) ;;
  _ <- fit (fst tr) (fst te) (max_epochs args) (min_epochs args) ;;
  ret net.

End Main.

(** *** The aggregation classifier (lines 408-466) *)

Record best : Type := MkBest {
  best_value : Q;
  best_label : Z
}.

(** The six running variables of one query: aggregated distance and label
    for MIN, MEDIAN and MEAN. *)
Record running : Type := MkRunning {
  min_aggregated : best;
  median_aggregated : best;
  mean_aggregated : best
}.

Definition assessment_criteria (model : string) (new prev : Q) : bool :=
  if (model =? "simple_head")%string then Qltb new prev else Qltb prev new.

Definition initial_value (model : string) : Q :=
  if (model =? "simple_head")%string then 999%Q else (- (999))%Q.

Definition initial (model : string) : running :=
  let b := MkBest (initial_value model) (-1) in
  MkRunning b b b.

(** [if assessment_criteria(new, prev): prev = new; label = d].  A
    comparison with NaN is false. *)
Definition update (model : string) (d : nat) (new : np_float) (b : best)
  : best :=
  match new with
  | Finite q =>
      if assessment_criteria model q (best_value b)
      then MkBest q (Z.of_nat d)
      else b
  | NaN => b
  end.

Section Classifier.

Variable K : nat.
Variable A : Type.

(** [np.median] and [np.mean] on the array [model.predict] returns.  That
    array holds float32 numbers and both results are float32 numbers again,
    rounded by the library; which number an array yields is the library's
    matter, so the classifier is modelled for any two such functions.
    ([np.min] returns one of the entries and rounds nothing.) *)
Variable median32 : list Q -> np_float.
Variable mean32 : list Q -> np_float.

(** Lines 444-457: the three aggregates of one class's scores against the
    three running bests. *)
Definition absorb (model : string) (d : nat) (predictions : list Q)
    (r : running) : outcome running :=
  min_distance <~ np_min predictions ;;
  let r_min := update model d (Finite min_distance) (min_aggregated r) in
  let median_distance := median32 predictions in
  let r_median := update model d median_distance (median_aggregated r) in
  let mean_distance := mean32 predictions in
  let r_mean := update model d mean_distance (mean_aggregated r) in
  Ok (MkRunning r_min r_median r_mean).

(** [model.predict] of the trained network on two image batches: one
    score per pair. *)
Variable predict : list A -> list A -> list Q.

(** Lines 436-442: the scores of the query against the first [n]
    references of class [d]. *)
Definition class_scores (x_train : list A)
    (tr_digit_indices : list (list nat)) (test_img : A) (n d : nat)
  : outcome (list Q) :=
  image_pairs <~
    mapO (fun i =>
            pool <~ getitem tr_digit_indices d ;;
            z1 <~ getitem pool i ;;
            img <~ getitem x_train z1 ;;
            Ok (img, test_img))
         (range 0 n) ;;
  left <~ column0 image_pairs ;;
  right <~ column1 image_pairs ;;
  Ok (predict left right).

Definition class_step (model : string) (x_train : list A)
    (tr_digit_indices : list (list nat)) (test_img : A) (n : nat)
    (r : running) (d : nat) : outcome running :=
  predictions <~ class_scores x_train tr_digit_indices test_img n d ;;
  absorb model d predictions r.

(** One iteration of the loop over the test set: the three predicted
    labels of one query.  [n] is the minimum pool length minus one; a
    negative bound and zero both give an empty [range]. *)
Definition classify_query (model : string) (x_train : list A)
    (tr_digit_indices : list (list nat)) (test_img : A)
  : outcome (Z * Z * Z) :=
  m <~ min_pool_len K tr_digit_indices ;;
  let n := m - 1 in
  r <~ foldO (class_step model x_train tr_digit_indices test_img n)
             (range 0 K) (initial model) ;;
  Ok (best_label (min_aggregated r),
      best_label (median_aggregated r),
      best_label (mean_aggregated r)).

(** The loop over the test set with its three counters. *)
Definition classify (model : string) (x_train : list A)
    (tr_digit_indices : list (list nat)) (x_test : list A)
    (y_test : list nat) : outcome (nat * nat * nat) :=
  foldO (fun counters t =>
           let '(cmin, cmedian, cmean) := counters in
           test_img <~ getitem x_test t ;;
           test_img_label <~ getitem y_test t ;;
           labels <~ classify_query model x_train tr_digit_indices
                                    test_img ;;
           let '(lmin, lmedian, lmean) := labels in
           let hit (l : Z) (c : nat) :=
             if (Z.of_nat test_img_label =? l)%Z then S c else c in
           Ok (hit lmin cmin, hit lmedian cmedian, hit lmean cmean))
        (range 0 (length x_test)) (0, 0, 0).

End Classifier.

End SiameseMnist.
Import SiameseMnist.

(** ** Vocabulary of the specification *)

Module Spec.

(** [C(n, 2)] *)
Definition choose2 (n : nat) : nat := n * (n - 1) / 2.

(** [[1, 0, 1, 0, ...]] with [m] ones. *)
Definition alternating (m : nat) : list Z := concat (repeat [1%Z; 0%Z] m).

(** The (class, index, index) steps of pair generation, in loop order. *)
Definition schedule (K n : nat) : list (nat * nat * nat) :=
  flat_map (fun d =>
    flat_map (fun i =>
      flat_map (fun j => [(d, i, j)]) (range (i + 1) n))
             (range 0 (n - 1)))
           (range 0 K).

Section Steps.

Variable A : Type.

(** What one step appends: a positive and a negative pair. *)
Definition step : Type := ((A * A) * (A * A))%type.

Definition step_pairs (steps : list step) : list (A * A) :=
  flat_map (fun s => [fst s; snd s]) steps.

Definition step_labels (steps : list step) : list Z :=
  flat_map (fun _ => [1%Z; 0%Z]) steps.

Definition extend (acc : pair_acc A) (steps : list step) : pair_acc A :=
  (fst acc ++ step_pairs steps, snd acc ++ step_labels steps).

(** [p] pairs entries [i] and [j] of the pool of class [d]. *)
Definition positive_at (x : list A) (pools : list (list nat))
    (d i j : nat) (p : A * A) : Prop :=
  exists pool z1 z2,
    nth_error pools d = Some pool /\
    nth_error pool i = Some z1 /\ nth_error pool j = Some z2 /\
    nth_error x z1 = Some (fst p) /\ nth_error x z2 = Some (snd p).

(** [q] pairs entry [i] of the pool of class [d] with entry [r] of the
    pool of the partner class [(d + inc) mod K]; the code draws [r] below
    the length of the pool of [d]. *)
Definition negative_at (K : nat) (x : list A) (pools : list (list nat))
    (d i : nat) (q : A * A) : Prop :=
  exists pool inc r partner z1 z2,
    nth_error pools d = Some pool /\
    nth_error pools ((d + inc) mod K) = Some partner /\
    nth_error pool i = Some z1 /\ nth_error partner r = Some z2 /\
    nth_error x z1 = Some (fst q) /\ nth_error x z2 = Some (snd q) /\
    1 <= inc < K /\ r < length pool.

Definition step_at (K : nat) (x : list A) (pools : list (list nat))
    (dij : nat * nat * nat) (s : step) : Prop :=
  let '(d, i, j) := dij in
  positive_at x pools d i j (fst s) /\ negative_at K x pools d i (snd s).

(** Every index a pool of the first [K] classes holds points into [x]. *)
Definition pools_in_range (K : nat) (x : list A)
    (pools : list (list nat)) : Prop :=
  forall d pool z,
    d < K -> nth_error pools d = Some pool -> In z pool -> z < length x.

(** The pool of class [c] holds only examples of class [c]. *)
Definition pools_by_class (K : nat) (cls : A -> nat) (x : list A)
    (pools : list (list nat)) : Prop :=
  forall c pool z a,
    c < K -> nth_error pools c = Some pool -> In z pool ->
    nth_error x z = Some a -> cls a = c.

End Steps.

(** The contrastive loss of one pair, in the words of the specification:
    [score^2] for a pair labeled 1, [max(margin - score, 0)^2] with margin 1
    for a pair labeled 0. *)
Definition pair_loss (label score : Q) : Q :=
  (label * score ^ 2 + (1 - label) * (Qmax (1 - score) 0) ^ 2)%Q.

(** [(score < 0.5) == label], a Boolean compared with an integer label. *)
Definition agrees (label : Z) (score : Q) : bool :=
  (Z.b2z (Qltb score (1 # 2)) =? label)%Z.

(** The same test on a float label, as the training metric makes it. *)
Definition agrees_float (label score : Q) : bool :=
  Qeq_bool label (b2q (Qltb score (1 # 2))).

(** The number of [true] entries. *)
Definition hits (flags : list bool) : nat := length (filter (fun b => b) flags).

(** [h] out of [n], as a fraction. *)
Definition fraction (h n : nat) : Q :=
  (inject_Z (Z.of_nat h) / inject_Z (Z.of_nat n))%Q.

(** "Best" under the two conventions: smaller for the distance head, larger
    for the probability head. *)
Definition beats (model : string) (new prev : Q) : Prop :=
  if (model =? "simple_head")%string then (new < prev)%Q else (prev < new)%Q.

(** The running best of one policy over the per-class aggregates, classes
    numbered from [d]: the loop of the classifier projected on one of its
    three pairs of running variables. *)
Fixpoint scan_from (model : string) (d : nat) (aggregates : list np_float)
    (b : best) : best :=
  match aggregates with
  | [] => b
  | v :: rest => scan_from model (S d) rest (update model d v b)
  end.

Definition scan (model : string) (aggregates : list np_float) : best :=
  scan_from model 0 aggregates (MkBest (initial_value model) (-1)).

(** [np.min] as an aggregate value. *)
Definition min_of (scores : list Q) : np_float :=
  match np_min scores with
  | Ok q => Finite q
  | Raise _ => NaN
  end.

Definition known_base (b : string) : Prop :=
  b = "nn"%string \/ b = "cnn"%string \/ b = "fcn"%string.

Definition known_head (m : string) : Prop :=
  m = "simple_head"%string \/ m = "dense_head"%string.

(** A computation that leaves the trace as it found it. *)
Definition silent {A} (m : M A) : Prop :=
  forall w, trace (snd (m w)) = trace w.

End Spec.
Import Spec.

(** ** Concrete inputs used to run the program *)

Module Examples.

Definition world_of (draws : nat -> nat) : world := MkWorld draws 0 [].

(** Two examples of every digit; an example is identified with its class. *)
Definition even_labels : list nat :=
  [0; 0; 1; 1; 2; 2; 3; 3; 4; 4; 5; 5; 6; 6; 7; 7; 8; 8; 9; 9].

(** Three examples of digit 0, two of every other digit. *)
Definition uneven_labels : list nat :=
  [0; 0; 0; 1; 1; 2; 2; 3; 3; 4; 4; 5; 5; 6; 6; 7; 7; 8; 8; 9; 9].

Definition uneven_pools : list (list nat) :=
  [[0; 1; 2]; [3; 4]; [5; 6]; [7; 8]; [9; 10]; [11; 12]; [13; 14]; [15; 16];
   [17; 18]; [19; 20]].

(** A stream whose second draw is 2 and whose other draws are 0: the first
    negative pair gets [rand_inc = 1] and [rand_idx = 2]. *)
Definition second_draw_two (k : nat) : nat := if k =? 1 then 2 else 0.

Definition zero_draws (k : nat) : nat := 0.

(** Three classes with three reference images each; an image is identified
    with its index in the training set. *)
Definition three_class_labels : list nat := [0; 0; 0; 1; 1; 1; 2; 2; 2].

Definition three_class_images : list nat := [0; 1; 2; 3; 4; 5; 6; 7; 8].

(** Scores of a query against the references: class 0 scores 1/8 and 3/8,
    class 1 scores 5/32 and 7/32, class 2 scores 3/8 twice.  The per-class
    minima are 1/8, 5/32, 3/8; medians and means are 1/4, 3/16, 3/8.  On
    such arrays (one or two small multiples of 1/32) the float32 median and
    mean lose nothing to rounding, so that [np_median] and [np_mean] are the
    library's results here. *)
Definition table_score (reference : nat) : Q :=
  match reference with
  | 0 => (1 # 8)%Q
  | 1 => (3 # 8)%Q
  | 3 => (5 # 32)%Q
  | 4 => (7 # 32)%Q
  | _ => (3 # 8)%Q
  end.

Definition table_predict (left right : list nat) : list Q :=
  map table_score left.

(** A model whose distance is 1000 for every pair. *)
Definition far_predict (left right : list nat) : list Q :=
  map (fun _ => 1000%Q) left.

End Examples.
Import Examples.

(** ** siamese_mnist.py: distance head, plots and the error listings of [main] *)

Module SiameseMnistRest.

(** [tf.keras.backend.epsilon()]: the backend's fuzz factor, 1e-07 unless
    reconfigured. *)
Definition epsilon : Q := (1 # 10000000)%Q.

(** Lines 32-35, on the entries of the two embeddings. *)
Definition l1_distance_vector (x y : list Q) : outcome (list Q) :=
  diff <~ elementwise Qminus x y ;;
  let l1 := map Qabs diff in
  Ok (map (fun a => Qmax a epsilon) l1).

(** Line 218 and the comparison of line 219: the Boolean array
    [pred == y_true] that [compute_accuracy] hands to [np.mean]. *)
Definition compute_accuracy_hits (y_true : list Z) (y_pred : list (list Q))
  : outcome (list bool) :=
  let pred := map (fun s => Qltb s DISTANCE_THRESHOLD) (ravel y_pred) in
  elementwise (fun p y => Z.eqb (Z.b2z p) y) pred y_true.

(** The argument of the backend mean in line 225: the Boolean tensor
    [tf.equal(y_true, tf.cast(y_pred < DISTANCE_THRESHOLD, y_true.dtype))]. *)
Definition acc_hits (y_true y_pred : list Q) : outcome (list bool) :=
  let cast := map (fun s => b2q (Qltb s DISTANCE_THRESHOLD)) y_pred in
  elementwise Qeq_bool y_true cast.

(** Calls into the plotting library, in the order they are made.  An image is
    shown through its first channel; a distance is printed with four
    decimals. *)
Inductive plot_call (A : Type) : Type :=
| Figure (num : nat)
| AddSubplot (rows cols index : nat)
| Imshow (img : A)
| Xlabel (text : string)
| Ylabel (distance : Q)
| PltShow.

Arguments Figure {A} num.
Arguments AddSubplot {A} rows cols index.
Arguments Imshow {A} img.
Arguments Xlabel {A} text.
Arguments Ylabel {A} distance.
Arguments PltShow {A}.

Section Plots.

Variable A : Type.

(** [fig.add_subplot(rows, cols, index)]: the library raises [ValueError]
    unless [rows] and [cols] are positive and [1 <= index <= rows * cols]. *)
Definition add_subplot (rows cols index : nat) : outcome (plot_call A) :=
  if (1 <=? rows) && (1 <=? cols) && (1 <=? index) && (index <=? rows * cols)
  then Ok (AddSubplot rows cols index)
  else Raise ValueError.

(** Lines 244-259.  [predictions] is the single column of the prediction
    array. *)
Definition plot_examples_separated (image_pairs : list (A * A))
    (labels : list Z) (predictions : list Q) : outcome (list (plot_call A)) :=
  let num := length image_pairs in
  calls <~
    foldO (fun calls i =>
             pair <~ getitem image_pairs i ;;
             label <~ getitem labels i ;;
             distance <~ getitem predictions i ;;
             cell0 <~ add_subplot (num / 2) 4 (i * 2 + 1) ;;
             cell1 <~ add_subplot (num / 2) 4 (i * 2 + 2) ;;
             Ok (calls ++
                 [cell0; Imshow (fst pair);
                  cell1; Imshow (snd pair);
                  Xlabel (if (label =? 0)%Z then "==" else "!=")%string;
                  Ylabel distance]))
          (range 0 num) [Figure 1] ;;
  Ok (calls ++ [PltShow]).

(** Lines 262-274. *)
Definition plot_examples (image_pairs : list (A * A)) (predictions : list Q)
  : outcome (list (plot_call A)) :=
  let num := length image_pairs in
  calls <~
    foldO (fun calls i =>
             pair <~ getitem image_pairs i ;;
             distance <~ getitem predictions i ;;
             cell0 <~ add_subplot num 2 (2 * i + 1) ;;
             cell1 <~ add_subplot num 2 (2 * i + 2) ;;
             Ok (calls ++
                 [cell0; Imshow (fst pair);
                  cell1; Imshow (snd pair);
                  Ylabel distance]))
          (range 0 num) [Figure 1] ;;
  Ok (calls ++ [PltShow]).

(** The variables of the two listing loops of [main] (lines 379-389 and
    394-404). *)
Record listing : Type := MkListing {
  image_pairs : list (A * A);
  labels : list Q;
  predictions : list Q;
  index : nat
}.

(** [a[i] = v] for [i >= 0]. *)
Definition setitem {X} (l : list X) (i : nat) (v : X) : outcome (list X) :=
  if i <? length l then Ok (firstn i l ++ v :: skipn (S i) l)
  else Raise IndexError.

(** One turn of a listing loop: [select] is the test on the score, [wanted]
    the label looked for; the label is read only when the score passes
    ([and] does not evaluate its second operand otherwise). *)
Definition listing_step (select : Q -> bool) (wanted : Z)
    (te_pairs : list (A * A)) (te_y : list Z) (te_pred : list Q)
    (st : listing) : outcome listing :=
  score <~ getitem te_pred (index st) ;;
  hit <~ (if select score
          then y <~ getitem te_y (index st) ;; Ok (y =? wanted)%Z
          else Ok false) ;;
  st' <~ (if hit : bool
          then
            pair <~ getitem te_pairs (index st) ;;
            let image_pairs := image_pairs st ++ [pair] in
            y <~ getitem te_y (index st) ;;
            labels <~ setitem (labels st) (length image_pairs - 1)
                              (inject_Z y) ;;
            score <~ getitem te_pred (index st) ;;
            predictions <~ setitem (predictions st) (length image_pairs - 1)
                                   score ;;
            Ok (MkListing image_pairs labels predictions (index st))
          else Ok st) ;;
  Ok (MkListing (image_pairs st') (labels st') (predictions st')
                (index st' + 1)).

(** [while len(image_pairs) < 10: ...], run for at most [fuel] turns; [None]
    when the fuel runs out first. *)
Fixpoint listing_loop (fuel : nat) (select : Q -> bool) (wanted : Z)
    (te_pairs : list (A * A)) (te_y : list Z) (te_pred : list Q)
    (st : listing) : option (outcome listing) :=
  match fuel with
  | O => None
  | S fuel' =>
      if length (image_pairs st) <? 10
      then
        match listing_step select wanted te_pairs te_y te_pred st with
        | Ok st' => listing_loop fuel' select wanted te_pairs te_y te_pred st'
        | Raise e => Some (Raise e)
        end
      else Some (Ok st)
  end.

(** [image_pairs = []], [labels = np.zeros(10)],
    [predictions = np.zeros((10, 1))], [index = 0]. *)
Definition listing_start : listing :=
  MkListing [] (repeat 0%Q 10) (repeat 0%Q 10) 0.

(** Lines 371-389: the first ten false positives. *)
Definition first_false_positives (fuel : nat) (model : string)
    (te_pairs : list (A * A)) (te_y : list Z) (te_pred : list Q)
  : option (outcome listing) :=
  listing_loop fuel
    (fun score => assessment_criteria model score DISTANCE_THRESHOLD) 0
    te_pairs te_y te_pred listing_start.

(** Lines 393-404: the first ten false negatives. *)
Definition first_false_negatives (fuel : nat) (model : string)
    (te_pairs : list (A * A)) (te_y : list Z) (te_pred : list Q)
  : option (outcome listing) :=
  listing_loop fuel
    (fun score => negb (assessment_criteria model score DISTANCE_THRESHOLD)) 1
    te_pairs te_y te_pred listing_start.

End Plots.

Arguments add_subplot {A} rows cols index.

End SiameseMnistRest.
Import SiameseMnistRest.

(** ** More vocabulary *)

Module SpecRest.

(** The entries at positions 0, 2, 4, ... *)
Fixpoint evens {X} (l : list X) : list X :=
  match l with
  | [] => []
  | a :: rest =>
      a :: match rest with
           | [] => []
           | _ :: rest' => evens rest'
           end
  end.

(** The positions a listing loop looks for: the score passes [select] and the
    label is [wanted]. *)
Definition listed (select : Q -> bool) (wanted : Z) (te_y : list Z)
    (te_pred : list Q) : list nat :=
  filter (fun i => select (nth i te_pred 0%Q) && (nth i te_y 0%Z =? wanted)%Z)
         (seq 0 (length te_pred)).

(** The entries of [l] at the positions [js], in the order of [js]. *)
Definition at_positions {X} (l : list X) (js : list nat) : list X :=
  flat_map (fun j => match nth_error l j with
                     | Some a => [a]
                     | None => []
                     end) js.

(** The grid cells the plotting calls ask for, in order. *)
Fixpoint subplots {A} (calls : list (plot_call A)) : list (nat * nat * nat) :=
  match calls with
  | [] => []
  | AddSubplot rows cols index :: rest => (rows, cols, index) :: subplots rest
  | _ :: rest => subplots rest
  end.

(** How many of the first [length predicted] labels equal the prediction. *)
Fixpoint correct (labels : list nat) (predicted : list Z) : nat :=
  match labels, predicted with
  | y :: labels', l :: predicted' =>
      (if (Z.of_nat y =? l)%Z then 1 else 0) + correct labels' predicted'
  | _, _ => 0
  end.

End SpecRest.
Import SpecRest.

(** ** More concrete inputs *)

Module ExamplesRest.

(** What [create_pairs] returns for ten classes of two (or more) examples,
    an example being identified with its class, when every draw is 0. *)
Definition ten_step_pairs : list (nat * nat) :=
  [(0, 0); (0, 1); (1, 1); (1, 2); (2, 2); (2, 3); (3, 3); (3, 4); (4, 4);
   (4, 5); (5, 5); (5, 6); (6, 6); (6, 7); (7, 7); (7, 8); (8, 8); (8, 9);
   (9, 9); (9, 0)].

(** Thirty test pairs, labeled 1, 0, 1, 0, ..., all scored 0.25. *)
Definition thirty_pairs : list (nat * nat) := map (fun i => (i, i)) (seq 0 30).

Definition thirty_labels : list Z :=
  map (fun i => if Nat.even i then 1%Z else 0%Z) (seq 0 30).

Definition thirty_scores : list Q := map (fun _ => (1 # 4)%Q) (seq 0 30).

End ExamplesRest.
Import ExamplesRest.

Unset Implicit Arguments.

(** ** Reasoning about the monad *)

Lemma bind_ok {A B} (m : M A) (k : A -> M B) w b w' :
  bind m k w = (Ok b, w') ->
  exists a w1, m w = (Ok a, w1) /\ k a w1 = (Ok b, w').
Proof.
  unfold bind. destruct (m w) as [[a | e] w1]; intros H.
  - exists a, w1. split; [reflexivity | exact H].
  - discriminate H.
Qed.

Lemma lift_ok {A} (o : outcome A) w a w' :
  lift o w = (Ok a, w') -> o = Ok a /\ w' = w.
Proof. unfold lift. intros H. inversion H. split; reflexivity. Qed.

Lemma ret_ok {A} (a b : A) w w' :
  ret a w = (Ok b, w') -> b = a /\ w' = w.
Proof. unfold ret. intros H. inversion H. split; reflexivity. Qed.

Lemma obind_ok {A B} (o : outcome A) (k : A -> outcome B) b :
  obind o k = Ok b -> exists a, o = Ok a /\ k a = Ok b.
Proof.
  destruct o as [a | e]; simpl; intros H; [exists a; auto | discriminate].
Qed.

Lemma getitem_ok {A} (l : list A) i a :
  getitem l i = Ok a <-> nth_error l i = Some a.
Proof.
  unfold getitem. destruct (nth_error l i); split; intros H;
    first [inversion H; reflexivity | discriminate].
Qed.

Lemma getitem_lt {A} (l : list A) i :
  i < length l -> exists a, getitem l i = Ok a.
Proof.
  intros H. unfold getitem.
  destruct (nth_error l i) as [a |] eqn:E; [exists a; reflexivity |].
  apply nth_error_None in E. lia.
Qed.

Lemma randint_ok low high w r w' :
  randint low high w = (Ok r, w') ->
  low <= r < high /\
  w' = MkWorld (entropy w) (S (cursor w)) (trace w).
Proof.
  unfold randint. destruct (low <? high) eqn:E; intros H; [| discriminate].
  apply Nat.ltb_lt in E. inversion H; subst. split; [| reflexivity].
  assert (entropy w (cursor w) mod (high - low) < high - low)
    by (apply Nat.mod_upper_bound; lia).
  lia.
Qed.

(** Peels the successful binds of a computation. *)
Ltac peel H :=
  repeat
    match type of H with
    | bind _ _ _ = (Ok _, _) =>
        let a := fresh "v" in
        let w := fresh "w" in
        let H1 := fresh "Hrun" in
        apply bind_ok in H; destruct H as (a & w & H1 & H)
    end.

Ltac peel_lift H :=
  match type of H with
  | lift _ _ = (Ok _, _) =>
      apply lift_ok in H; let E := fresh "Hw" in destruct H as [H E]; subst
  end.

(** A loop whose body appends the steps its schedule lists appends, over a
    list of iterations, the concatenation of the schedules. *)
Lemma foldM_steps {A X I} (f : pair_acc A -> X -> M (pair_acc A))
    (sched : X -> list I) (R : I -> step A -> Prop) :
  (forall acc x w acc' w',
      f acc x w = (Ok acc', w') ->
      exists steps, Forall2 R (sched x) steps /\ acc' = extend acc steps) ->
  forall l acc w acc' w',
    foldM f l acc w = (Ok acc', w') ->
    exists steps, Forall2 R (flat_map sched l) steps /\ acc' = extend acc steps.
Proof.
  intros Hbody l. induction l as [| x t IH]; intros acc w acc' w' H.
  - simpl in H. apply ret_ok in H. destruct H as [-> _].
    exists []. split; [constructor |].
    unfold extend. simpl. rewrite !app_nil_r. destruct acc; reflexivity.
  - simpl in H. apply bind_ok in H. destruct H as (acc1 & w1 & H1 & H2).
    apply Hbody in H1. destruct H1 as (s1 & HR1 & ->).
    apply IH in H2. destruct H2 as (s2 & HR2 & ->).
    exists (s1 ++ s2). split.
    + simpl. apply Forall2_app; assumption.
    + unfold extend, step_pairs, step_labels. simpl.
      rewrite !flat_map_app, !app_assoc. reflexivity.
Qed.

(** A loop whose body succeeds on every iteration succeeds. *)
Lemma foldM_total {X S} (f : S -> X -> M S) (l : list X) :
  (forall s x w, In x l -> exists s' w', f s x w = (Ok s', w')) ->
  forall s w, exists s' w', foldM f l s w = (Ok s', w').
Proof.
  induction l as [| x t IH]; intros Hbody s w.
  - exists s, w. reflexivity.
  - destruct (Hbody s x w (or_introl eq_refl)) as (s1 & w1 & H1).
    destruct (IH (fun s x w Hin => Hbody s x w (or_intror Hin)) s1 w1)
      as (s2 & w2 & H2).
    exists s2, w2. simpl. unfold bind. rewrite H1. exact H2.
Qed.

Section PairFacts.

Variable K : nat.
Variable A : Type.
Variable x : list A.
Variable pools : list (list nat).

(** One step appends one positive pair, then one negative pair, and the
    labels 1, 0. *)
Lemma pair_step_ok d i j acc w acc' w' :
  pair_step K x pools d i j acc w = (Ok acc', w') ->
  exists s, step_at K x pools (d, i, j) s /\ acc' = extend acc [s].
Proof.
  destruct acc as [pairs labels]. unfold pair_step. intros H.
  peel H.
  repeat match goal with
         | Hl : lift _ _ = (Ok _, _) |- _ => peel_lift Hl
         end.
  repeat match goal with
         | Hg : getitem _ _ = Ok _ |- _ => apply getitem_ok in Hg
         end.
  repeat match goal with
         | Hr : randint _ _ _ = (Ok _, _) |- _ =>
             apply randint_ok in Hr; destruct Hr as [? ?]; subst
         end.
  apply ret_ok in H. destruct H as [-> _].
  repeat match goal with
         | H1 : ?a = Some ?u, H2 : ?a = Some ?v |- _ =>
             rewrite H1 in H2; inversion H2; subst; clear H2
         end.
  match goal with
  | |- exists s, _ /\ ((?ps ++ [?p]) ++ [?q], _) = _ => exists (p, q)
  end.
  split.
  - split; simpl.
    + unfold positive_at. simpl. eauto 10.
    + unfold negative_at. simpl.
      do 6 eexists. repeat split; try eassumption; lia.
  - unfold extend. simpl. rewrite <- app_assoc. reflexivity.
Qed.

End PairFacts.

(** ** Counting the schedule *)

Lemma flat_map_singleton_length {X Y} (f : X -> Y) (l : list X) :
  length (flat_map (fun a => [f a]) l) = length l.
Proof. induction l; simpl; congruence. Qed.

Lemma flat_map_const_length {X Y} (f : X -> list Y) (l : list X) c :
  (forall a, In a l -> length (f a) = c) ->
  length (flat_map f l) = length l * c.
Proof.
  induction l as [| a t IH]; intros H; simpl; [reflexivity |].
  rewrite length_app, IH, (H a).
  - reflexivity.
  - now left.
  - intros b Hb. apply H. now right.
Qed.

(** Twice the number of index pairs whose smaller index is below [k]. *)
Lemma inner_rows_twice (n k : nat) :
  k <= n ->
  2 * length (flat_map (fun i => flat_map (fun j => [(i, j)])
                                          (range (i + 1) n))
                       (seq 0 k))
  = k * (2 * n - 1 - k).
Proof.
  induction k as [| k IH]; intros Hk; [reflexivity |].
  rewrite seq_S, flat_map_app, length_app.
  cbn [flat_map Nat.add]. rewrite app_nil_r, flat_map_singleton_length.
  specialize (IH ltac:(lia)).
  set (rows := length _) in *.
  unfold range. rewrite length_seq.
  assert (exists m, n = S k + m) as [m ->] by (exists (n - S k); lia).
  replace (2 * (S k + m) - 1 - k) with (k + 2 * m + 1) in IH by lia.
  replace (2 * (S k + m) - 1 - S k) with (k + 2 * m) by lia.
  replace (S k + m - (k + 1)) with m by lia.
  nia.
Qed.

Lemma index_pairs_length (n : nat) :
  length (flat_map (fun i => flat_map (fun j => [(i, j)]) (range (i + 1) n))
                   (range 0 (n - 1)))
  = choose2 n.
Proof.
  unfold choose2, range at 2. rewrite Nat.sub_0_r.
  pose proof (inner_rows_twice n (n - 1) ltac:(lia)) as H.
  apply Nat.div_unique_exact; [lia |].
  rewrite H. destruct n; simpl; nia.
Qed.

Lemma class_rows_length (n d : nat) :
  length (flat_map (fun i => flat_map (fun j => [(d, i, j)])
                                      (range (i + 1) n))
                   (range 0 (n - 1)))
  = choose2 n.
Proof.
  rewrite <- (index_pairs_length n).
  generalize (range 0 (n - 1)). intros l.
  induction l as [| i t IH]; simpl; [reflexivity |].
  rewrite !length_app, IH, !flat_map_singleton_length. reflexivity.
Qed.

Lemma schedule_length (K n : nat) : length (schedule K n) = K * choose2 n.
Proof.
  unfold schedule.
  rewrite (flat_map_const_length _ _ (choose2 n)).
  - unfold range. rewrite length_seq. lia.
  - intros d _. apply class_rows_length.
Qed.

Lemma schedule_in (K n d i j : nat) :
  In (d, i, j) (schedule K n) -> d < K /\ i < j < n.
Proof.
  unfold schedule, range. intros H.
  apply in_flat_map in H. destruct H as (d' & Hd & H).
  apply in_flat_map in H. destruct H as (i' & Hi & H).
  apply in_flat_map in H. destruct H as (j' & Hj & H).
  destruct H as [H | []]. inversion H; subst.
  apply in_seq in Hd, Hi, Hj. lia.
Qed.

(** ** What the steps say about the two returned arrays *)

Section StepFacts.

Variable A : Type.

Lemma step_pairs_length (steps : list (step A)) :
  length (step_pairs steps) = 2 * length steps.
Proof. induction steps; simpl; lia. Qed.

Lemma step_labels_alternating (steps : list (step A)) :
  step_labels steps = alternating (length steps).
Proof.
  unfold alternating. induction steps; simpl; [reflexivity |].
  f_equal. f_equal. exact IHsteps.
Qed.

Lemma alternating_length m : length (alternating m) = 2 * m.
Proof.
  unfold alternating. induction m; simpl; [reflexivity |].
  simpl in IHm. lia.
Qed.

Lemma alternating_ones m : count_occ Z.eq_dec (alternating m) 1%Z = m.
Proof.
  unfold alternating. induction m; simpl; [reflexivity |].
  simpl in IHm. now rewrite IHm.
Qed.

Lemma alternating_zeros m : count_occ Z.eq_dec (alternating m) 0%Z = m.
Proof.
  unfold alternating. induction m; simpl; [reflexivity |].
  simpl in IHm. now rewrite IHm.
Qed.

(** Position [k] of [[1, 0, 1, 0, ...]] holds 1 when [k] is even and 0
    when it is odd. *)
Lemma alternating_nth m k :
  k < 2 * m ->
  nth_error (alternating m) k = Some (if Nat.even k then 1%Z else 0%Z).
Proof.
  revert k. unfold alternating.
  induction m as [| m IH]; intros k Hk; [lia |].
  destruct k as [| [| k]]; simpl; try reflexivity.
  rewrite IH by lia. reflexivity.
Qed.

End StepFacts.

(** ** The structure of a successful run of [create_pairs] *)

Section CreatePairs.

Variable K : nat.
Variable A : Type.
Variable x : list A.
Variable pools : list (list nat).

Theorem create_pairs_structure w pairs labels w' :
  create_pairs K x pools w = (Ok (pairs, labels), w') ->
  exists n steps,
    min_pool_len K pools = Ok n /\
    Forall2 (step_at K x pools) (schedule K n) steps /\
    pairs = step_pairs steps /\ labels = step_labels steps.
Proof.
  unfold create_pairs. intros H.
  apply bind_ok in H. destruct H as (n & w1 & Hn & H).
  apply lift_ok in Hn. destruct Hn as [Hn ->].
  exists n.
  apply (@foldM_steps _ _ _ _
           (fun d =>
              flat_map (fun i => flat_map (fun j => [(d, i, j)])
                                          (range (i + 1) n))
                       (range 0 (n - 1)))
           (step_at K x pools)) in H.
  - destruct H as (steps & HR & Hacc). exists steps.
    unfold extend in Hacc. simpl in Hacc. inversion Hacc.
    repeat split; auto.
  - intros acc d wa acc' wb Hd.
    apply (@foldM_steps _ _ _ _
             (fun i => flat_map (fun j => [(d, i, j)]) (range (i + 1) n))
             (step_at K x pools)) in Hd; [exact Hd |].
    intros acc0 i wc acc1 wd Hi.
    apply (@foldM_steps _ _ _ _ (fun j => [(d, i, j)])
                        (step_at K x pools)) in Hi; [exact Hi |].
    intros acc2 j we acc3 wf Hj.
    apply pair_step_ok in Hj. destruct Hj as (s & Hs & ->).
    exists [s]. split; [| reflexivity].
    constructor; [exact Hs | constructor].
Qed.

(** A run that returns has produced [2 * K * C(n, 2)] pairs and as many
    labels. *)
Lemma create_pairs_count w pairs labels w' :
  create_pairs K x pools w = (Ok (pairs, labels), w') ->
  exists n,
    min_pool_len K pools = Ok n /\
    length pairs = 2 * K * choose2 n /\
    length labels = 2 * K * choose2 n.
Proof.
  intros H. apply create_pairs_structure in H.
  destruct H as (n & steps & Hn & HR & -> & ->).
  exists n. split; [exact Hn |].
  apply Forall2_length in HR. rewrite schedule_length in HR.
  rewrite step_pairs_length, step_labels_alternating, alternating_length.
  lia.
Qed.

End CreatePairs.

(** ** The minimum pool length *)

Lemma mapO_ok {X Y} (f : X -> outcome Y) l ys :
  mapO f l = Ok ys -> Forall2 (fun a y => f a = Ok y) l ys.
Proof.
  revert ys. induction l as [| a t IH]; simpl; intros ys H.
  - inversion H. constructor.
  - apply obind_ok in H. destruct H as (y & Hy & H).
    apply obind_ok in H. destruct H as (ys' & Hys & H).
    inversion H; subst. constructor; auto.
Qed.

Lemma mapO_total {X Y} (f : X -> outcome Y) l :
  (forall a, In a l -> exists y, f a = Ok y) -> exists ys, mapO f l = Ok ys.
Proof.
  induction l as [| a t IH]; intros H; simpl.
  - exists []. reflexivity.
  - destruct (H a (or_introl eq_refl)) as (y & ->).
    destruct IH as (ys & ->); [intros; apply H; now right |].
    exists (y :: ys). reflexivity.
Qed.

Lemma fold_min_spec (t : list nat) (a : nat) :
  fold_left Nat.min t a <= a /\
  Forall (le (fold_left Nat.min t a)) t /\
  (fold_left Nat.min t a = a \/ In (fold_left Nat.min t a) t).
Proof.
  revert a. induction t as [| b t IH]; intros a; simpl.
  - split; [lia | split; [constructor | now left]].
  - destruct (IH (Nat.min a b)) as (H1 & H2 & H3).
    split; [lia | split].
    + constructor; [lia | exact H2].
    + destruct H3 as [H3 | H3]; [| right; right; exact H3].
      destruct (Nat.min_spec a b) as [[_ E] | [_ E]].
      * left. rewrite H3. exact E.
      * right. left. rewrite H3. symmetry. exact E.
Qed.

Lemma py_min_ok (l : list nat) (n : nat) :
  py_min l = Ok n -> Forall (le n) l /\ In n l.
Proof.
  destruct l as [| a t]; simpl; intros H; inversion H; subst.
  destruct (fold_min_spec t a) as (H1 & H2 & H3).
  split; [constructor; assumption |].
  destruct H3 as [H3 | H3]; [left; symmetry; exact H3 | right; exact H3].
Qed.

Lemma Forall2_nth_left {X Y} (R : X -> Y -> Prop) l l' i a :
  Forall2 R l l' -> nth_error l i = Some a ->
  exists b, nth_error l' i = Some b /\ R a b.
Proof.
  intros H. revert i. induction H as [| a0 b0 l l' Hab _ IH]; intros i Hi.
  - destruct i; discriminate.
  - destruct i as [| i]; simpl in *.
    + inversion Hi; subst. eauto.
    + apply IH. exact Hi.
Qed.

Lemma Forall2_nth_right {X Y} (R : X -> Y -> Prop) l l' i b :
  Forall2 R l l' -> nth_error l' i = Some b ->
  exists a, nth_error l i = Some a /\ R a b.
Proof.
  intros H. revert i. induction H as [| a0 b0 l l' Hab _ IH]; intros i Hi.
  - destruct i; discriminate.
  - destruct i as [| i]; simpl in *.
    + inversion Hi; subst. eauto.
    + apply IH. exact Hi.
Qed.

Lemma range_nth (K d : nat) :
  d < K -> nth_error (range 0 K) d = Some d.
Proof.
  intros H. unfold range. rewrite nth_error_seq.
  destruct (Nat.ltb_spec d (K - 0)); [reflexivity | lia].
Qed.

Lemma range_nth_inv (K d e : nat) :
  nth_error (range 0 K) d = Some e -> e = d /\ d < K.
Proof.
  unfold range. rewrite nth_error_seq.
  destruct (Nat.ltb_spec d (K - 0)); intros E; inversion E. lia.
Qed.

Section MinPool.

Variable K : nat.
Variable pools : list (list nat).

(** The minimum is a lower bound of the first [K] pool lengths and the
    length of one of them; in particular there are [K >= 1] pools. *)
Lemma min_pool_len_ok n :
  min_pool_len K pools = Ok n ->
  (forall d, d < K ->
     exists pool, nth_error pools d = Some pool /\ n <= length pool) /\
  (exists d pool, d < K /\ nth_error pools d = Some pool /\ length pool = n).
Proof.
  unfold min_pool_len. intros H.
  apply obind_ok in H. destruct H as (lens & Hl & Hmin).
  apply mapO_ok in Hl. apply py_min_ok in Hmin. destruct Hmin as [Hle Hin].
  split.
  - intros d Hd.
    destruct (Forall2_nth_left _ _ _ d _ Hl (range_nth _ _ Hd))
      as (len & Hnth & Hf).
    apply obind_ok in Hf. destruct Hf as (pool & Hp & Hf).
    inversion Hf; subst. apply getitem_ok in Hp.
    exists pool. split; [exact Hp |].
    rewrite Forall_forall in Hle. apply nth_error_In in Hnth.
    apply Hle in Hnth. exact Hnth.
  - apply In_nth_error in Hin. destruct Hin as (d & Hnth).
    destruct (Forall2_nth_right _ _ _ d _ Hl Hnth) as (e & He & Hf).
    apply range_nth_inv in He. destruct He as [-> Hd].
    apply obind_ok in Hf. destruct Hf as (pool & Hp & Hf).
    inversion Hf; subst. apply getitem_ok in Hp.
    exists d, pool. auto.
Qed.

Lemma min_pool_len_total :
  1 <= K <= length pools -> exists n, min_pool_len K pools = Ok n.
Proof.
  intros HK. unfold min_pool_len.
  destruct (@mapO_total _ _
              (fun d => pool <~ getitem pools d ;; Ok (length pool))
              (range 0 K)) as (lens & Hl).
  - intros d Hd. unfold range in Hd. apply in_seq in Hd.
    destruct (getitem_lt pools d ltac:(lia)) as (pool & ->).
    simpl. eauto.
  - rewrite Hl. simpl.
    destruct lens as [| a t]; [| simpl; eauto].
    apply mapO_ok, Forall2_length in Hl. unfold range in Hl.
    rewrite length_seq in Hl. simpl in Hl. lia.
Qed.

End MinPool.

(** ** When [create_pairs] returns *)

Lemma bind_lift {A B} (o : outcome A) (k : A -> M B) a w :
  o = Ok a -> bind (lift o) k w = k a w.
Proof. intros ->. reflexivity. Qed.

Lemma bind_randint {B} low high (k : nat -> M B) w :
  low < high ->
  bind (randint low high) k w
  = k (low + entropy w (cursor w) mod (high - low))
      (MkWorld (entropy w) (S (cursor w)) (trace w)).
Proof.
  intros H. unfold bind, randint. apply Nat.ltb_lt in H. rewrite H.
  reflexivity.
Qed.

Lemma foldM_skip {X Y S} (g : X -> S -> Y -> M S) (l : list X) s w :
  foldM (fun acc a => foldM (g a) [] acc) l s w = (Ok s, w).
Proof. induction l as [| a t IH]; simpl; [reflexivity | exact IH]. Qed.

Section CreatePairsReturns.

Variable K : nat.
Variable A : Type.
Variable x : list A.
Variable pools : list (list nat).

(** With fewer than two examples in some class no step runs and the result
    is the pair of empty arrays. *)
Lemma create_pairs_degenerate n w :
  min_pool_len K pools = Ok n -> n < 2 ->
  create_pairs K x pools w = (Ok ([], []), w).
Proof.
  intros Hn Hlt. unfold create_pairs.
  rewrite (bind_lift _ _ _ _ Hn).
  replace (n - 1) with 0 by lia. change (range 0 0) with (@nil nat).
  apply (@foldM_skip nat nat _
           (fun d acc i =>
              foldM (fun acc j => pair_step K x pools d i j acc)
                    (range (i + 1) n) acc)).
Qed.

Variable n : nat.
Hypothesis classes : 2 <= K.
Hypothesis equal_pools :
  forall d, d < K ->
    exists pool, nth_error pools d = Some pool /\ length pool = n.
Hypothesis in_range : pools_in_range K x pools.

Lemma pool_entry d pool i :
  d < K -> nth_error pools d = Some pool -> i < length pool ->
  exists z a, getitem pool i = Ok z /\ getitem x z = Ok a.
Proof.
  intros Hd Hp Hi.
  destruct (getitem_lt pool i Hi) as (z & Hz).
  assert (Hin : In z pool)
    by (apply getitem_ok in Hz; eapply nth_error_In; exact Hz).
  assert (Hz' : z < length x) by (eapply in_range; eassumption).
  destruct (getitem_lt x z Hz') as (a & Ha).
  eauto.
Qed.

Lemma pair_step_total d i j acc w :
  d < K -> i < n -> j < n ->
  exists acc' w', pair_step K x pools d i j acc w = (Ok acc', w').
Proof.
  intros Hd Hi Hj. destruct acc as [pairs labels]. unfold pair_step.
  destruct (equal_pools d Hd) as (pool & Hpool & Hlen).
  rewrite (bind_lift _ _ _ _ (proj2 (getitem_ok pools d pool) Hpool)).
  destruct (pool_entry d pool i Hd Hpool ltac:(lia))
    as (z1 & a1 & Hz1 & Ha1).
  destruct (pool_entry d pool j Hd Hpool ltac:(lia))
    as (z2 & a2 & Hz2 & Ha2).
  rewrite (bind_lift _ _ _ _ Hz1), (bind_lift _ _ _ _ Hz2).
  rewrite (bind_lift _ _ _ _ Ha1), (bind_lift _ _ _ _ Ha2).
  rewrite bind_randint by lia. rewrite bind_randint by lia.
  cbn [entropy cursor trace].
  set (inc := 1 + entropy w (cursor w) mod (K - 1)).
  set (r := 0 + entropy w (S (cursor w)) mod (length pool - 0)).
  assert (Hdn : (d + inc) mod K < K) by (apply Nat.mod_upper_bound; lia).
  assert (Hr : r < n).
  { subst r. rewrite Nat.sub_0_r, Hlen. simpl.
    apply Nat.mod_upper_bound. lia. }
  destruct (equal_pools _ Hdn) as (partner & Hpartner & Hlen').
  destruct (pool_entry _ partner r Hdn Hpartner ltac:(lia))
    as (z3 & a3 & Hz3 & Ha3).
  rewrite (bind_lift _ _ _ _ Hz1).
  rewrite (bind_lift _ _ _ _ (proj2 (getitem_ok pools _ partner) Hpartner)).
  rewrite (bind_lift _ _ _ _ Hz3), (bind_lift _ _ _ _ Ha1),
    (bind_lift _ _ _ _ Ha3).
  unfold ret. eauto.
Qed.

Lemma pools_min_len : min_pool_len K pools = Ok n.
Proof.
  assert (HK : 1 <= K <= length pools).
  { split; [lia |].
    destruct (equal_pools (K - 1) ltac:(lia)) as (pool & Hp & _).
    assert (K - 1 < length pools) by (apply nth_error_Some; congruence).
    lia. }
  destruct (@min_pool_len_total K pools HK) as (m & Hm).
  rewrite Hm. f_equal.
  destruct (@min_pool_len_ok K pools m Hm) as (_ & d & pool & Hd & Hp & Hlen).
  destruct (equal_pools d Hd) as (pool' & Hp' & Hlen'). congruence.
Qed.

(** With at least two classes, pools of one common length and indices that
    point into [x], every run returns. *)
Lemma create_pairs_total w :
  exists pairs labels w',
    create_pairs K x pools w = (Ok (pairs, labels), w').
Proof.
  unfold create_pairs. rewrite (bind_lift _ _ _ _ pools_min_len).
  match goal with
  | |- exists _ _ _, foldM ?f ?l ?s0 w = _ =>
      assert (Hrun : exists s' w', foldM f l s0 w = (Ok s', w'));
        [apply foldM_total | destruct Hrun as ([pairs labels] & w' & H)]
  end.
  - intros s d w0 Hd. unfold range in Hd. apply in_seq in Hd.
    apply foldM_total. intros s1 i w1 Hi.
    unfold range in Hi. apply in_seq in Hi.
    apply foldM_total. intros s2 j w2 Hj.
    unfold range in Hj. apply in_seq in Hj.
    apply pair_step_total; lia.
  - eauto.
Qed.

End CreatePairsReturns.

(** ** The pools [get_digit_indices] builds *)

Lemma firstn_incl {X} (k : nat) (l : list X) z : In z (firstn k l) -> In z l.
Proof.
  intros H. rewrite <- (firstn_skipn k l). apply in_or_app. now left.
Qed.

Lemma slice_to_incl {X} (e : Z) (l : list X) z : In z (slice_to e l) -> In z l.
Proof. unfold slice_to. destruct (e <? 0)%Z; apply firstn_incl. Qed.

Lemma slice_to_length {X} (e : Z) (l : list X) :
  (0 <= e)%Z -> length (slice_to e l) = Nat.min (Z.to_nat e) (length l).
Proof.
  intros H. unfold slice_to.
  destruct (Z.ltb_spec e 0); [lia | apply length_firstn].
Qed.

Lemma where_eq_from_in pos labels c z :
  In z (where_eq_from pos labels c) ->
  pos <= z /\ nth_error labels (z - pos) = Some c.
Proof.
  revert pos. induction labels as [| l t IH]; intros pos H; simpl in H.
  - contradiction.
  - assert (Htail : In z (where_eq_from (S pos) t c) ->
                    pos <= z /\ nth_error (l :: t) (z - pos) = Some c).
    { intros Hin. apply IH in Hin. destruct Hin as [Hle Hn].
      split; [lia |].
      replace (z - pos) with (S (z - S pos)) by lia. exact Hn. }
    destruct (Nat.eqb_spec l c) as [-> | _]; [| auto].
    destruct H as [<- | H]; [| auto].
    split; [lia |]. rewrite Nat.sub_diag. reflexivity.
Qed.

Lemma where_eq_from_length pos labels c :
  length (where_eq_from pos labels c) = count_occ Nat.eq_dec labels c.
Proof.
  revert pos. induction labels as [| l t IH]; intros pos; simpl.
  - reflexivity.
  - destruct (Nat.eqb_spec l c) as [E | E];
      destruct (Nat.eq_dec l c) as [E' | E']; try contradiction;
      simpl; rewrite IH; reflexivity.
Qed.

Section DigitIndices.

Variable K : nat.
Variable labels : list nat.
Variable e : Z.

Lemma get_digit_indices_nth c :
  c < K ->
  nth_error (get_digit_indices K labels e) c
  = Some (slice_to e (where_eq labels c)).
Proof.
  intros H. unfold get_digit_indices.
  rewrite !nth_error_map, (range_nth _ _ H). reflexivity.
Qed.

Lemma get_digit_indices_length : length (get_digit_indices K labels e) = K.
Proof.
  unfold get_digit_indices, range. rewrite !length_map, length_seq. lia.
Qed.

(** Each pool holds at most [examples_per_class] indices, and exactly that
    many when the class has that many examples, for a bound that is not
    negative. *)
Lemma get_digit_indices_bound c :
  (0 <= e)%Z -> c < K ->
  exists pool,
    nth_error (get_digit_indices K labels e) c = Some pool /\
    length pool <= Z.to_nat e /\
    (Z.to_nat e <= count_occ Nat.eq_dec labels c ->
     length pool = Z.to_nat e).
Proof.
  intros He Hc. exists (slice_to e (where_eq labels c)).
  split; [apply get_digit_indices_nth; exact Hc |].
  rewrite slice_to_length by exact He. unfold where_eq.
  rewrite where_eq_from_length. lia.
Qed.

Lemma get_digit_indices_entry c pool z :
  c < K -> nth_error (get_digit_indices K labels e) c = Some pool ->
  In z pool -> nth_error labels z = Some c.
Proof.
  intros Hc Hp Hz. rewrite (get_digit_indices_nth c Hc) in Hp.
  inversion Hp; subst. apply slice_to_incl in Hz.
  unfold where_eq in Hz. apply where_eq_from_in in Hz.
  destruct Hz as [_ Hz]. rewrite Nat.sub_0_r in Hz. exact Hz.
Qed.

Lemma get_digit_indices_in_range {A} (x : list A) :
  length labels <= length x ->
  pools_in_range K x (get_digit_indices K labels e).
Proof.
  intros Hlen c pool z Hc Hp Hz.
  assert (H : nth_error labels z = Some c)
    by (eapply get_digit_indices_entry; eassumption).
  assert (z < length labels) by (apply nth_error_Some; congruence). lia.
Qed.

(** When [labels] records the class of every example of [x], the pool of
    class [c] holds examples of class [c] only. *)
Lemma get_digit_indices_by_class {A} (cls : A -> nat) (x : list A) :
  (forall z a, nth_error x z = Some a ->
               nth_error labels z = Some (cls a)) ->
  pools_by_class K cls x (get_digit_indices K labels e).
Proof.
  intros Hx c pool z a Hc Hp Hz Ha.
  assert (H : nth_error labels z = Some c)
    by (eapply get_digit_indices_entry; eassumption).
  apply Hx in Ha. congruence.
Qed.

End DigitIndices.

(** With at least two classes and at least [examples_per_class] examples in
    each, pair construction returns [2 * K * C(examples_per_class, 2)]
    pairs. *)
Lemma create_pairs_full_pools {A} (K : nat) (x : list A) (labels : list nat)
    (e : Z) (w : world) :
  2 <= K -> (0 <= e)%Z -> length labels <= length x ->
  (forall c, c < K -> Z.to_nat e <= count_occ Nat.eq_dec labels c) ->
  exists pairs pair_labels w',
    create_pairs K x (get_digit_indices K labels e) w
    = (Ok (pairs, pair_labels), w') /\
    length pairs = 2 * K * choose2 (Z.to_nat e).
Proof.
  intros HK He Hlen Hfull.
  assert (Heq : forall d, d < K ->
            exists pool,
              nth_error (get_digit_indices K labels e) d = Some pool /\
              length pool = Z.to_nat e).
  { intros d Hd.
    destruct (get_digit_indices_bound K labels e d He Hd)
      as (pool & Hp & _ & Hl).
    exists pool. split; [exact Hp | apply Hl, Hfull, Hd]. }
  destruct (create_pairs_total K A x _ (Z.to_nat e) HK Heq
              (get_digit_indices_in_range K labels e x Hlen) w)
    as (pairs & pl & w' & Hrun).
  exists pairs, pl, w'. split; [exact Hrun |].
  destruct (create_pairs_count _ _ _ _ _ _ _ _ Hrun) as (n & Hn & Hp & _).
  rewrite (pools_min_len K _ (Z.to_nat e) HK Heq) in Hn.
  inversion Hn; subst. exact Hp.
Qed.

(** ** Labels and classes of the generated pairs *)

Lemma Forall2_transfer {X Y} (R : X -> Y -> Prop) (P : X -> Prop)
    (Q : Y -> Prop) l l' :
  Forall2 R l l' -> (forall a, In a l -> P a) ->
  (forall a b, P a -> R a b -> Q b) -> Forall Q l'.
Proof.
  intros H HP HQ. induction H as [| a b l l' Hab _ IH]; constructor.
  - apply (HQ a); [apply HP; now left | exact Hab].
  - apply IH. intros a' Ha'. apply HP. now right.
Qed.

(** The partner class of a negative pair is never the source class. *)
Lemma partner_differs (K d inc : nat) :
  d < K -> 1 <= inc < K -> (d + inc) mod K <> d.
Proof.
  intros Hd Hinc.
  destruct (Nat.lt_ge_cases (d + inc) K) as [Hlt | Hge].
  - rewrite Nat.mod_small by exact Hlt. lia.
  - rewrite <- (Nat.mod_unique (d + inc) K 1 (d + inc - K)); lia.
Qed.

(** C3: the labels [create_pairs] returns are [[1, 0, 1, 0, ...]]: the
    returned arrays are the steps of the schedule in loop order, each step
    contributing one positive pair followed by one negative pair and the
    labels 1, 0; position [k] of the labels holds 1 for even [k] and 0 for odd
    [k], and the labels 1 and 0 occur equally often. *)
Theorem create_pairs_labels_alternate (K : nat) (A : Type) (x : list A)
    (pools : list (list nat)) (w : world) (pairs : list (A * A))
    (labels : list Z) (w' : world) :
  create_pairs K x pools w = (Ok (pairs, labels), w') ->
  exists n steps,
    min_pool_len K pools = Ok n /\
    Forall2 (step_at K x pools) (schedule K n) steps /\
    pairs = step_pairs steps /\
    labels = alternating (length steps) /\
    (forall k, k < length labels ->
       nth_error labels k = Some (if Nat.even k then 1%Z else 0%Z)) /\
    count_occ Z.eq_dec labels 1%Z = length steps /\
    count_occ Z.eq_dec labels 0%Z = length steps.
Proof.
  intros H. apply create_pairs_structure in H.
  destruct H as (n & steps & Hn & HR & Hp & Hl).
  rewrite step_labels_alternating in Hl. subst labels.
  exists n, steps. repeat split; auto.
  - intros k Hk. rewrite alternating_length in Hk.
    apply alternating_nth. exact Hk.
  - apply alternating_ones.
  - apply alternating_zeros.
Qed.

Lemma create_pairs_labels_alternate_witness :
  exists n steps,
    min_pool_len NUM_CLASSES (get_digit_indices NUM_CLASSES even_labels 2)
    = Ok n /\
    Forall2 (step_at NUM_CLASSES even_labels
               (get_digit_indices NUM_CLASSES even_labels 2))
            (schedule NUM_CLASSES n) steps /\
    [(0, 0); (0, 1); (1, 1); (1, 2); (2, 2); (2, 3); (3, 3); (3, 4); (4, 4);
     (4, 5); (5, 5); (5, 6); (6, 6); (6, 7); (7, 7); (7, 8); (8, 8); (8, 9);
     (9, 9); (9, 0)] = step_pairs steps /\
    alternating 10 = alternating (length steps) /\
    (forall k, k < length (alternating 10) ->
       nth_error (alternating 10) k
       = Some (if Nat.even k then 1%Z else 0%Z)) /\
    count_occ Z.eq_dec (alternating 10) 1%Z = length steps /\
    count_occ Z.eq_dec (alternating 10) 0%Z = length steps.
Proof.
  apply (create_pairs_labels_alternate NUM_CLASSES nat even_labels
           (get_digit_indices NUM_CLASSES even_labels 2)
           (world_of zero_draws) _ _ (MkWorld zero_draws 20 [])).
  vm_compute. reflexivity.
Defined.

(** C4: when the pool of class [c] holds examples of class [c] only, every
    pair labeled 1 joins two examples of one class and every pair labeled 0
    joins examples of two different classes; the partner class
    [(d + rand_inc) mod K] of a draw [rand_inc] from [1, K-1] is never the
    source class [d]. *)
Theorem create_pairs_classes (K : nat) (A : Type) (cls : A -> nat)
    (x : list A) (pools : list (list nat)) (w : world)
    (pairs : list (A * A)) (labels : list Z) (w' : world) :
  pools_by_class K cls x pools ->
  create_pairs K x pools w = (Ok (pairs, labels), w') ->
  Forall2 (fun p l =>
             (l = 1%Z /\ cls (fst p) = cls (snd p)) \/
             (l = 0%Z /\ cls (fst p) <> cls (snd p)))
          pairs labels /\
  (forall d w0 rand_inc w1,
      d < K -> randint 1 K w0 = (Ok rand_inc, w1) ->
      (d + rand_inc) mod K <> d).
Proof.
  intros Hcls H. split.
  - apply create_pairs_structure in H.
    destruct H as (n & steps & _ & HR & -> & ->).
    assert (Hsteps : Forall (fun s : step A =>
                cls (fst (fst s)) = cls (snd (fst s)) /\
                cls (fst (snd s)) <> cls (snd (snd s))) steps).
    { apply (Forall2_transfer _ (fun dij => fst (fst dij) < K) _ _ _ HR).
      - intros [[d i] j] Hin. apply schedule_in in Hin. simpl. lia.
      - intros [[d i] j] [p q] Hd [Hpos Hneg]. simpl in *.
        destruct Hpos as (pool & z1 & z2 & Hp & Hz1 & Hz2 & Ha1 & Ha2).
        destruct Hneg as (pool' & inc & r & partner & y1 & y2 & Hp' & Hpa
                          & Hy1 & Hy2 & Hb1 & Hb2 & Hinc & Hr).
        split.
        + rewrite (Hcls d pool z1 (fst p) Hd Hp (nth_error_In _ _ Hz1) Ha1).
          rewrite (Hcls d pool z2 (snd p) Hd Hp (nth_error_In _ _ Hz2) Ha2).
          reflexivity.
        + rewrite (Hcls d pool' y1 (fst q) Hd Hp' (nth_error_In _ _ Hy1) Hb1).
          assert (Hdn : (d + inc) mod K < K)
            by (apply Nat.mod_upper_bound; lia).
          rewrite (Hcls _ partner y2 (snd q) Hdn Hpa
                     (nth_error_In _ _ Hy2) Hb2).
          intros E. symmetry in E. revert E.
          apply partner_differs; assumption. }
    clear HR. induction Hsteps as [| [p q] steps [Hp Hq] _ IH]; simpl.
    + constructor.
    + constructor; [left; auto |]. constructor; [right; auto |]. exact IH.
  - intros d w0 inc w1 Hd Hdraw. apply randint_ok in Hdraw.
    apply partner_differs; [exact Hd | tauto].
Qed.

Lemma create_pairs_classes_witness :
  Forall2 (fun (p : nat * nat) l =>
             (l = 1%Z /\ fst p = snd p) \/ (l = 0%Z /\ fst p <> snd p))
          [(0, 0); (0, 1); (1, 1); (1, 2); (2, 2); (2, 3); (3, 3); (3, 4);
           (4, 4); (4, 5); (5, 5); (5, 6); (6, 6); (6, 7); (7, 7); (7, 8);
           (8, 8); (8, 9); (9, 9); (9, 0)]
          (alternating 10) /\
  (forall d w0 rand_inc w1,
      d < NUM_CLASSES -> randint 1 NUM_CLASSES w0 = (Ok rand_inc, w1) ->
      (d + rand_inc) mod NUM_CLASSES <> d).
Proof.
  apply (create_pairs_classes NUM_CLASSES nat (fun a => a) even_labels
           (get_digit_indices NUM_CLASSES even_labels 2)
           (world_of zero_draws) _ _ (MkWorld zero_draws 20 [])).
  - apply get_digit_indices_by_class. intros z a Hz.
    rewrite Hz. reflexivity.
  - vm_compute. reflexivity.
Defined.

(** ** The index of the negative partner *)

(** In every step that completes, [rand_idx] was drawn below the length of
    the pool of the source class [d], and happened to be a valid index of the
    pool of the partner class. *)
Lemma negative_index_bound (K : nat) (A : Type) (x : list A)
    (pools : list (list nat)) (d i : nat) (q : A * A) :
  negative_at K x pools d i q ->
  exists pool inc r partner,
    nth_error pools d = Some pool /\
    nth_error pools ((d + inc) mod K) = Some partner /\
    r < length pool /\ r < length partner.
Proof.
  intros (pool & inc & r & partner & z1 & z2 & Hp & Hpa & _ & Hz2 & _ & _
          & _ & Hr).
  exists pool, inc, r, partner. repeat split; auto.
  apply nth_error_Some. congruence.
Qed.

(** C1: with three indices in the pool of class 0 and two in the pool of
    class 1, the draws [rand_inc = 1] and [rand_idx = 2] make the first
    negative pair read entry 2 of the two-entry pool of class 1:
    [create_pairs] raises [IndexError]. *)
Theorem create_pairs_partner_index_out_of_range :
  let w := world_of second_draw_two in
  fst (randint 1 NUM_CLASSES w) = Ok 1 /\
  fst (randint 0 (length (nth 0 uneven_pools []))
               (snd (randint 1 NUM_CLASSES w))) = Ok 2 /\
  length (nth ((0 + 1) mod NUM_CLASSES) uneven_pools []) = 2 /\
  fst (create_pairs NUM_CLASSES uneven_labels uneven_pools w)
  = Raise IndexError.
Proof. vm_compute. repeat split; reflexivity. Qed.

(** C2: for the labels [0,0,0,1,1,2,2,...,9,9] and
    [examples_per_class = 3], [get_digit_indices] returns pools of lengths
    3, 2, ..., 2, whose minimum is 2, and [create_pairs] on them raises
    [IndexError] for the draws [rand_inc = 1], [rand_idx = 2] instead of
    returning [2 * 10 * C(2, 2) = 20] pairs. *)
Theorem create_pairs_after_truncation_raises :
  get_digit_indices NUM_CLASSES uneven_labels 3 = uneven_pools /\
  min_pool_len NUM_CLASSES uneven_pools = Ok 2 /\
  2 * NUM_CLASSES * choose2 2 = 20 /\
  fst (create_pairs NUM_CLASSES uneven_labels
         (get_digit_indices NUM_CLASSES uneven_labels 3)
         (world_of second_draw_two))
  = Raise IndexError.
Proof. vm_compute. repeat split; reflexivity. Qed.

(** ** Elementwise operations on arrays of one shape *)

Lemma elementwise_same_shape {X Y Z} (f : X -> Y -> Z) xs ys :
  length xs = length ys -> elementwise f xs ys = Ok (zip_with f xs ys).
Proof.
  intros H. unfold elementwise. apply Nat.eqb_eq in H. rewrite H.
  reflexivity.
Qed.

Lemma zip_with_length {X Y Z} (f : X -> Y -> Z) xs ys :
  length xs = length ys -> length (zip_with f xs ys) = length xs.
Proof.
  revert ys. induction xs as [| a xs IH]; intros [| b ys] H; simpl in *;
    try discriminate; auto.
Qed.

Lemma zip_with_app {X Y Z} (f : X -> Y -> Z) xs1 xs2 ys1 ys2 :
  length xs1 = length ys1 ->
  zip_with f (xs1 ++ xs2) (ys1 ++ ys2)
  = zip_with f xs1 ys1 ++ zip_with f xs2 ys2.
Proof.
  revert ys1. induction xs1 as [| a xs1 IH]; intros [| b ys1] H; simpl in *;
    try discriminate; [reflexivity |].
  f_equal. apply IH. lia.
Qed.

(** ** The contrastive loss *)

(** The tensor expression of the source, entry by entry, is the per-pair
    loss. *)
Lemma loss_entries (y_true y_pred : list Q) :
  length y_true = length y_pred ->
  zip_with Qplus
    (zip_with Qmult y_true (map (fun p => p * p)%Q y_pred))
    (zip_with Qmult (map (fun t => 1 - t)%Q y_true)
       (map (fun m => m * m)%Q (map (fun p => Qmax (1 - p) 0)%Q y_pred)))
  = zip_with pair_loss y_true y_pred.
Proof.
  revert y_pred.
  induction y_true as [| t ts IH]; intros [| p ps] H; simpl in *;
    try discriminate; [reflexivity |].
  f_equal. apply IH. lia.
Qed.

(** C6: on a batch of labels and scores, [contrastive_loss] is the mean of
    the per-pair losses [y_true * y_pred^2 + (1 - y_true) * max(1 - y_pred,
    0)^2]; the per-pair loss is the squared score for label 1 and
    [max(1 - score, 0)] squared for label 0. *)
Theorem contrastive_loss_is_mean_pair_loss (y_true y_pred : list Q) :
  length y_true = length y_pred ->
  contrastive_loss y_true y_pred
  = Ok (np_mean (zip_with pair_loss y_true y_pred)) /\
  (forall score, pair_loss 1 score == score ^ 2)%Q /\
  (forall score, pair_loss 0 score == (Qmax (1 - score) 0) ^ 2)%Q.
Proof.
  intros H. split; [| split].
  - unfold contrastive_loss.
    rewrite elementwise_same_shape by (rewrite length_map; exact H).
    cbn [obind].
    rewrite elementwise_same_shape by (rewrite !length_map; exact H).
    cbn [obind].
    rewrite elementwise_same_shape
      by (rewrite !zip_with_length; rewrite ?length_map; auto).
    cbn [obind]. rewrite loss_entries by exact H. reflexivity.
  - intros score. unfold pair_loss. ring.
  - intros score. unfold pair_loss. ring.
Qed.

Lemma contrastive_loss_is_mean_pair_loss_witness :
  contrastive_loss [1; 0]%Q [1 # 2; 1 # 4]%Q
  = Ok (np_mean (zip_with pair_loss [1; 0]%Q [1 # 2; 1 # 4]%Q)) /\
  (forall score, pair_loss 1 score == score ^ 2)%Q /\
  (forall score, pair_loss 0 score == (Qmax (1 - score) 0) ^ 2)%Q.
Proof.
  apply (contrastive_loss_is_mean_pair_loss [1; 0]%Q [1 # 2; 1 # 4]%Q).
  reflexivity.
Defined.

(** ** Threshold accuracy *)

Lemma zip_with_map_l {X X' Y Z} (f : X' -> Y -> Z) (g : X -> X') xs ys :
  zip_with f (map g xs) ys = zip_with (fun a b => f (g a) b) xs ys.
Proof.
  revert ys. induction xs as [| a xs IH]; intros [| b ys]; simpl;
    try reflexivity.
  f_equal. apply IH.
Qed.

Lemma zip_with_map_r {X Y Y' Z} (f : X -> Y' -> Z) (g : Y -> Y') xs ys :
  zip_with f xs (map g ys) = zip_with (fun a b => f a (g b)) xs ys.
Proof.
  revert ys. induction xs as [| a xs IH]; intros [| b ys]; simpl;
    try reflexivity.
  f_equal. apply IH.
Qed.

Lemma zip_with_swap {X Y Z} (f : X -> Y -> Z) xs ys :
  zip_with f xs ys = zip_with (fun b a => f a b) ys xs.
Proof.
  revert ys. induction xs as [| a xs IH]; intros [| b ys]; simpl;
    try reflexivity.
  f_equal. apply IH.
Qed.

Lemma hits_app (f1 f2 : list bool) : hits (f1 ++ f2) = hits f1 + hits f2.
Proof. unfold hits. rewrite filter_app, length_app. reflexivity. Qed.

Lemma Qsum_flags (flags : list bool) :
  (Qsum (map b2q flags) == inject_Z (Z.of_nat (hits flags)))%Q.
Proof.
  unfold hits. induction flags as [| b t IH]; [reflexivity |].
  change (Qsum (map b2q (b :: t))) with (b2q b + Qsum (map b2q t))%Q.
  rewrite IH. destruct b; simpl filter; simpl b2q.
  - change (length (true :: filter (fun b => b) t))
      with (S (length (filter (fun b => b) t))).
    rewrite Nat2Z.inj_succ, <- Z.add_1_l, inject_Z_plus. reflexivity.
  - ring.
Qed.

(** The mean of a non-empty array of 0/1 flags is the fraction of ones. *)
Lemma np_mean_flags (flags : list bool) :
  flags <> [] ->
  exists q, np_mean (map b2q flags) = Finite q /\
            (q == fraction (hits flags) (length flags))%Q.
Proof.
  intros Hne. destruct flags as [| b t]; [contradiction |].
  eexists. split; [reflexivity |].
  unfold fraction. rewrite Qsum_flags, length_map. reflexivity.
Qed.

Lemma fraction_all (n : nat) : n <> 0 -> (fraction n n == 1)%Q.
Proof.
  intros H. unfold fraction. field.
  intros E. apply H. unfold Qeq in E. simpl in E. lia.
Qed.

Lemma fraction_none (n : nat) : (fraction 0 n == 0)%Q.
Proof. unfold fraction, Qdiv. simpl. ring. Qed.

Lemma hits_all {X Y} (f : X -> Y -> bool) xs ys :
  Forall2 (fun a b => f a b = true) xs ys ->
  hits (zip_with f xs ys) = length xs.
Proof.
  unfold hits. induction 1 as [| a b xs ys Hab _ IH]; simpl; [reflexivity |].
  rewrite Hab. simpl. now rewrite IH.
Qed.

Lemma hits_none {X Y} (f : X -> Y -> bool) xs ys :
  Forall2 (fun a b => f a b = false) xs ys ->
  hits (zip_with f xs ys) = 0.
Proof.
  unfold hits. induction 1 as [| a b xs ys Hab _ IH]; simpl; [reflexivity |].
  rewrite Hab. exact IH.
Qed.

Lemma zip_with_nonempty {X Y Z} (f : X -> Y -> Z) xs ys :
  length xs = length ys -> xs <> [] -> zip_with f xs ys <> [].
Proof.
  destruct xs, ys; simpl; intros H Hne; try discriminate; congruence.
Qed.

(** The flags [pred == y_true] of [compute_accuracy], label by label. *)
Lemma compute_accuracy_flags (y_true : list Z) (y_pred : list (list Q)) :
  length (ravel y_pred) = length y_true ->
  compute_accuracy y_true y_pred
  = Ok (np_mean (map b2q (zip_with agrees y_true (ravel y_pred)))).
Proof.
  intros H. unfold compute_accuracy.
  rewrite elementwise_same_shape by (rewrite length_map; exact H).
  cbn [obind]. rewrite zip_with_map_l, zip_with_swap. reflexivity.
Qed.

(** The flags of the training metric [acc]. *)
Lemma acc_flags (y_true y_pred : list Q) :
  length y_true = length y_pred ->
  acc y_true y_pred
  = Ok (np_mean (map b2q (zip_with agrees_float y_true y_pred))).
Proof.
  intros H. unfold acc.
  rewrite elementwise_same_shape by (rewrite length_map; exact H).
  cbn [obind]. rewrite zip_with_map_r. reflexivity.
Qed.

(** C7: on labels and scores of one length, [compute_accuracy] returns the
    fraction of positions where [(score < 0.5) == label], with the threshold
    0.50; the fraction is 1 when the test holds at every position and 0 when
    it fails at every position.  (On empty arrays the mean, and so the
    fraction, is NaN.) *)
Theorem compute_accuracy_fraction (y_true : list Z) (y_pred : list (list Q)) :
  length (ravel y_pred) = length y_true -> y_true <> [] ->
  exists q,
    compute_accuracy y_true y_pred = Ok (Finite q) /\
    (q == fraction (hits (zip_with agrees y_true (ravel y_pred)))
                   (length y_true))%Q /\
    (Forall2 (fun y s => agrees y s = true) y_true (ravel y_pred) ->
     (q == 1)%Q) /\
    (Forall2 (fun y s => agrees y s = false) y_true (ravel y_pred) ->
     (q == 0)%Q) /\
    DISTANCE_THRESHOLD = (1 # 2)%Q.
Proof.
  intros Hlen Hne.
  destruct (np_mean_flags (zip_with agrees y_true (ravel y_pred)))
    as (q & Hq & Hfr).
  { apply zip_with_nonempty; [symmetry; exact Hlen | exact Hne]. }
  rewrite zip_with_length in Hfr by (symmetry; exact Hlen).
  exists q. split; [| split; [| split; [| split]]].
  - rewrite compute_accuracy_flags by exact Hlen. now rewrite Hq.
  - exact Hfr.
  - intros Hall. rewrite Hfr, (hits_all _ _ _ Hall).
    apply fraction_all. destruct y_true; [contradiction | discriminate].
  - intros Hnone. rewrite Hfr, (hits_none _ _ _ Hnone).
    apply fraction_none.
  - reflexivity.
Qed.

Lemma compute_accuracy_fraction_witness :
  exists q,
    compute_accuracy [1; 0; 1]%Z [[1 # 4]; [3 # 4]; [3 # 4]]%Q
    = Ok (Finite q) /\
    (q == fraction (hits (zip_with agrees [1; 0; 1]%Z
                            (ravel [[1 # 4]; [3 # 4]; [3 # 4]]%Q)))
                   (length [1; 0; 1]%Z))%Q /\
    (Forall2 (fun y s => agrees y s = true) [1; 0; 1]%Z
             (ravel [[1 # 4]; [3 # 4]; [3 # 4]]%Q) -> (q == 1)%Q) /\
    (Forall2 (fun y s => agrees y s = false) [1; 0; 1]%Z
             (ravel [[1 # 4]; [3 # 4]; [3 # 4]]%Q) -> (q == 0)%Q) /\
    DISTANCE_THRESHOLD = (1 # 2)%Q.
Proof.
  apply (compute_accuracy_fraction [1; 0; 1]%Z
           [[1 # 4]; [3 # 4]; [3 # 4]]%Q).
  - reflexivity.
  - discriminate.
Defined.

(** ** A score on the threshold *)

Lemma ravel_rows {X} (l : list X) : ravel (map (fun p => [p]) l) = l.
Proof.
  unfold ravel. induction l as [| a t IH]; simpl; [reflexivity |].
  now rewrite IH.
Qed.

Lemma Qltb_lt (a b : Q) : Qltb a b = true <-> (a < b)%Q.
Proof.
  unfold Qltb. rewrite negb_true_iff.
  destruct (Qle_bool b a) eqn:E; split; intros H; try reflexivity;
    try discriminate.
  - apply Qle_bool_iff in E. exfalso. apply (Qlt_not_le _ _ H). exact E.
  - apply Qnot_le_lt. intros Hle. apply Qle_bool_iff in Hle. congruence.
Qed.

Lemma Qltb_ge (a b : Q) : Qltb a b = false <-> (b <= a)%Q.
Proof.
  unfold Qltb. rewrite negb_false_iff. apply Qle_bool_iff.
Qed.

Lemma flags_with_miss {X Y} (f : X -> Y -> bool) xs1 xs2 ys1 ys2 a b :
  length xs1 = length ys1 -> f a b = false ->
  hits (zip_with f (xs1 ++ a :: xs2) (ys1 ++ b :: ys2))
  = hits (zip_with f xs1 ys1) + hits (zip_with f xs2 ys2).
Proof.
  intros Hlen Hab. rewrite zip_with_app by exact Hlen.
  rewrite hits_app. simpl zip_with. rewrite Hab.
  unfold hits at 2. simpl filter. reflexivity.
Qed.

(** C10: a score equal to the threshold 0.50 is not below it, so both
    [compute_accuracy] and [acc] predict "different" for it; a pair with
    label 1 and such a score, at any position of the batch, is counted as a
    miss: it adds to the number of pairs and not to the number of correct
    ones. *)
Theorem threshold_score_is_a_miss (s : Q) :
  (s == 1 # 2)%Q ->
  Qltb s DISTANCE_THRESHOLD = false /\
  agrees 1 s = false /\
  (forall ys1 ys2 ps1 ps2,
      length ps1 = length ys1 -> length ps2 = length ys2 ->
      exists q,
        compute_accuracy (ys1 ++ 1%Z :: ys2)
                         (map (fun p => [p]) (ps1 ++ s :: ps2))
        = Ok (Finite q) /\
        (q == fraction (hits (zip_with agrees ys1 ps1)
                        + hits (zip_with agrees ys2 ps2))
                       (length ys1 + 1 + length ys2))%Q) /\
  (forall y ys1 ys2 ps1 ps2,
      (y == 1)%Q -> length ps1 = length ys1 -> length ps2 = length ys2 ->
      exists q,
        acc (ys1 ++ y :: ys2) (ps1 ++ s :: ps2) = Ok (Finite q) /\
        (q == fraction (hits (zip_with agrees_float ys1 ps1)
                        + hits (zip_with agrees_float ys2 ps2))
                       (length ys1 + 1 + length ys2))%Q).
Proof.
  intros Hs.
  assert (Hneg : Qltb s (1 # 2) = false)
    by (apply Qltb_ge; rewrite Hs; apply Qle_refl).
  assert (Hmiss : agrees 1 s = false) by (unfold agrees; now rewrite Hneg).
  split; [exact Hneg | split; [exact Hmiss | split]].
  - intros ys1 ys2 ps1 ps2 H1 H2.
    assert (Hlen : length (ps1 ++ s :: ps2) = length (ys1 ++ 1%Z :: ys2))
      by (rewrite !length_app; simpl; lia).
    destruct (np_mean_flags
                (zip_with agrees (ys1 ++ 1%Z :: ys2) (ps1 ++ s :: ps2)))
      as (q & Hq & Hfr).
    { apply zip_with_nonempty; [symmetry; exact Hlen |].
      destruct ys1; discriminate. }
    exists q. split.
    + rewrite compute_accuracy_flags by (rewrite ravel_rows; exact Hlen).
      rewrite ravel_rows, Hq. reflexivity.
    + rewrite Hfr, zip_with_length by (symmetry; exact Hlen).
      rewrite flags_with_miss by (auto; symmetry; exact H1).
      rewrite length_app. simpl length.
      replace (length ys1 + S (length ys2)) with (length ys1 + 1 + length ys2)
        by lia.
      reflexivity.
  - intros y ys1 ys2 ps1 ps2 Hy H1 H2.
    assert (Hmiss' : agrees_float y s = false).
    { unfold agrees_float. rewrite Hneg. simpl b2q.
      destruct (Qeq_bool y 0) eqn:E; [| reflexivity].
      apply Qeq_bool_iff in E. rewrite Hy in E. discriminate E. }
    assert (Hlen : length (ys1 ++ y :: ys2) = length (ps1 ++ s :: ps2))
      by (rewrite !length_app; simpl; lia).
    destruct (np_mean_flags
                (zip_with agrees_float (ys1 ++ y :: ys2) (ps1 ++ s :: ps2)))
      as (q & Hq & Hfr).
    { apply zip_with_nonempty; [exact Hlen | destruct ys1; discriminate]. }
    exists q. split.
    + rewrite acc_flags by exact Hlen. rewrite Hq. reflexivity.
    + rewrite Hfr, zip_with_length by exact Hlen.
      rewrite flags_with_miss by (auto; symmetry; exact H1).
      rewrite length_app. simpl length.
      replace (length ys1 + S (length ys2)) with (length ys1 + 1 + length ys2)
        by lia.
      reflexivity.
Qed.

Lemma threshold_score_is_a_miss_witness :
  Qltb (2 # 4) DISTANCE_THRESHOLD = false /\
  agrees 1 (2 # 4) = false /\
  (forall ys1 ys2 ps1 ps2,
      length ps1 = length ys1 -> length ps2 = length ys2 ->
      exists q,
        compute_accuracy (ys1 ++ 1%Z :: ys2)
                         (map (fun p => [p]) (ps1 ++ (2 # 4)%Q :: ps2))
        = Ok (Finite q) /\
        (q == fraction (hits (zip_with agrees ys1 ps1)
                        + hits (zip_with agrees ys2 ps2))
                       (length ys1 + 1 + length ys2))%Q) /\
  (forall y ys1 ys2 ps1 ps2,
      (y == 1)%Q -> length ps1 = length ys1 -> length ps2 = length ys2 ->
      exists q,
        acc (ys1 ++ y :: ys2) (ps1 ++ (2 # 4)%Q :: ps2) = Ok (Finite q) /\
        (q == fraction (hits (zip_with agrees_float ys1 ps1)
                        + hits (zip_with agrees_float ys2 ps2))
                       (length ys1 + 1 + length ys2))%Q).
Proof.
  apply (threshold_score_is_a_miss (2 # 4)). reflexivity.
Defined.

(** ** Configuration errors in [main] *)

Lemma silent_ret {A} (a : A) : silent (ret a).
Proof. intros w. reflexivity. Qed.

Lemma silent_lift {A} (o : outcome A) : silent (lift o).
Proof. intros w. reflexivity. Qed.

Lemma silent_randint low high : silent (randint low high).
Proof. intros w. unfold randint. destruct (low <? high); reflexivity. Qed.

Lemma silent_bind {A B} (m : M A) (k : A -> M B) :
  silent m -> (forall a, silent (k a)) -> silent (bind m k).
Proof.
  intros Hm Hk w. unfold bind. specialize (Hm w).
  destruct (m w) as [[a | e] w1]; simpl in *.
  - rewrite Hk. exact Hm.
  - exact Hm.
Qed.

Lemma silent_foldM {X S} (f : S -> X -> M S) (l : list X) :
  (forall s a, silent (f s a)) -> forall s, silent (foldM f l s).
Proof.
  intros Hf. induction l as [| a t IH]; intros s; simpl.
  - apply silent_ret.
  - apply silent_bind; [apply Hf | exact IH].
Qed.

Create HintDb silent.
#[local] Hint Resolve silent_ret silent_lift silent_randint : silent.

Lemma silent_pair_step K A (x : list A) pools d i j acc :
  silent (pair_step K x pools d i j acc).
Proof.
  destruct acc as [pairs labels]. unfold pair_step.
  repeat (apply silent_bind; [auto with silent | intros ?]).
  apply silent_ret.
Qed.

(** Pair construction makes no call into the framework. *)
Lemma silent_create_pairs K A (x : list A) pools :
  silent (create_pairs K x pools).
Proof.
  unfold create_pairs. apply silent_bind; [apply silent_lift | intros n].
  apply silent_foldM. intros s d.
  apply silent_foldM. intros s1 i.
  apply silent_foldM. intros s2 j.
  apply silent_pair_step.
Qed.

Lemma unknown_base_raises (b : string) (build : string -> M siamese_model) w :
  ~ known_base b ->
  (build = create_simple_siamese_model \/ build = create_dense_siamese_model) ->
  build b w = (Raise (Exception "Unknown base network model type."), w).
Proof.
  intros Hb Hbuild. unfold known_base in Hb.
  assert (E1 : (b =? "nn")%string = false)
    by (apply String.eqb_neq; tauto).
  assert (E2 : (b =? "cnn")%string = false)
    by (apply String.eqb_neq; tauto).
  assert (E3 : (b =? "fcn")%string = false)
    by (apply String.eqb_neq; tauto).
  destruct Hbuild as [-> | ->];
    unfold create_simple_siamese_model, create_dense_siamese_model, bind;
    rewrite E1, E2, E3; reflexivity.
Qed.

(** C9: with an unrecognized base-network or head identifier [main] ends in
    an exception, and the only framework calls made before it are the
    seeding and the loading of the data: no network was built or compiled and
    no [model.fit] call was made.  When the two pair sets were built, the
    exception is the one raised by model selection (unknown head) or by model
    construction (known head, unknown base network). *)
Theorem unknown_configuration_raises_before_fit (K : nat) (A : Type)
    (args : arguments) (data : dataset A) (w : world) :
  ~ known_base (base_network args) \/ ~ known_head (model args) ->
  let ready := MkWorld (entropy w) 0 (trace w ++ [EvSeed SEED; EvLoadData]) in
  let tr_pools :=
    get_digit_indices K (y_train data) (examples_per_class args) in
  let te_pools :=
    get_digit_indices K (y_test data) (examples_per_class args) in
  exists e w',
    main K args data w = (Raise e, w') /\
    trace w' = trace w ++ [EvSeed SEED; EvLoadData] /\
    (forall epochs initial,
        In (EvFit epochs initial) (trace w') ->
        In (EvFit epochs initial) (trace w)) /\
    (forall tr w1 te w2,
        create_pairs K (x_train data) tr_pools ready = (Ok tr, w1) ->
        create_pairs K (x_test data) te_pools w1 = (Ok te, w2) ->
        e = if ((model args =? "simple_head")
                || (model args =? "dense_head"))%string
            then Exception "Unknown base network model type."
            else Exception "Unknown model type.").
Proof.
  intros Hcfg ready tr_pools te_pools.
  assert (Hfit : forall w',
            trace w' = trace w ++ [EvSeed SEED; EvLoadData] ->
            forall epochs initial,
              In (EvFit epochs initial) (trace w') ->
              In (EvFit epochs initial) (trace w)).
  { intros w' Ht epochs initial Hin. rewrite Ht in Hin.
    apply in_app_or in Hin. destruct Hin as [Hin | Hin]; [exact Hin |].
    simpl in Hin. destruct Hin as [E | [E | []]]; discriminate E. }
  assert (Hmain : main K args data w
    = bind (create_pairs K (x_train data) tr_pools) (fun tr =>
        bind (create_pairs K (x_test data) te_pools) (fun te =>
          bind (if (model args =? "simple_head")%string
                then create_simple_siamese_model (base_network args)
                else if (model args =? "dense_head")%string
                then create_dense_siamese_model (base_network args)
                else raise (Exception "Unknown model type.")) (fun net =>
            bind (emit EvSummary) (fun _ =>
              bind (if (min_epochs args =? 0)%Z then ret tt
                    else fit (fst tr) (fst te) (min_epochs args) 0) (fun _ =>
                bind (fit (fst tr) (fst te) (max_epochs args)
                          (min_epochs args)) (fun _ => ret net))))))
        ready).
  { unfold main, ready. unfold bind at 1 2. unfold seed, emit.
    cbn [entropy cursor trace]. rewrite <- app_assoc. reflexivity. }
  rewrite Hmain. clear Hmain.
  pose proof (silent_create_pairs K A (x_train data) tr_pools ready) as Str.
  unfold bind at 1.
  destruct (create_pairs K (x_train data) tr_pools ready)
    as [[tr | e1] w1] eqn:Etr; unfold ready in Str; simpl in Str.
  2:{ exists e1, w1.
      split; [reflexivity | split; [exact Str | split]].
      - apply Hfit. exact Str.
      - intros tr0 w0 te0 w3 Habs. discriminate Habs. }
  pose proof (silent_create_pairs K A (x_test data) te_pools w1) as Ste.
  unfold bind at 1.
  destruct (create_pairs K (x_test data) te_pools w1)
    as [[te | e2] w2] eqn:Ete; simpl in Ste; rewrite Str in Ste.
  2:{ exists e2, w2.
      split; [reflexivity | split; [exact Ste | split]].
      - apply Hfit. exact Ste.
      - intros tr0 w0 te0 w3 Htr0 Hte0. inversion Htr0; subst.
        rewrite Ete in Hte0. discriminate Hte0. }
  unfold bind at 1.
  destruct (model args =? "simple_head")%string eqn:Es;
    [| destruct (model args =? "dense_head")%string eqn:Ed].
  - assert (Hb : ~ known_base (base_network args)).
    { destruct Hcfg as [Hb | Hh]; [exact Hb |]. exfalso. apply Hh. left.
      apply String.eqb_eq. exact Es. }
    rewrite (unknown_base_raises _ create_simple_siamese_model w2 Hb)
      by (left; reflexivity).
    eexists _, w2.
    split; [reflexivity | split; [exact Ste | split]].
    + apply Hfit. exact Ste.
    + intros. reflexivity.
  - assert (Hb : ~ known_base (base_network args)).
    { destruct Hcfg as [Hb | Hh]; [exact Hb |]. exfalso. apply Hh. right.
      apply String.eqb_eq. exact Ed. }
    rewrite (unknown_base_raises _ create_dense_siamese_model w2 Hb)
      by (right; reflexivity).
    eexists _, w2.
    split; [reflexivity | split; [exact Ste | split]].
    + apply Hfit. exact Ste.
    + intros. reflexivity.
  - unfold raise. eexists _, w2.
    split; [reflexivity | split; [exact Ste | split]].
    + apply Hfit. exact Ste.
    + intros. reflexivity.
Qed.

Lemma unknown_configuration_raises_before_fit_witness :
  let args := MkArgs 3 500 16 2 "dense_head" "resnet" true in
  let data := MkData even_labels even_labels even_labels even_labels in
  let w := world_of zero_draws in
  let ready := MkWorld (entropy w) 0 (trace w ++ [EvSeed SEED; EvLoadData]) in
  let tr_pools :=
    get_digit_indices NUM_CLASSES (y_train data) (examples_per_class args) in
  let te_pools :=
    get_digit_indices NUM_CLASSES (y_test data) (examples_per_class args) in
  exists e w',
    main NUM_CLASSES args data w = (Raise e, w') /\
    trace w' = trace w ++ [EvSeed SEED; EvLoadData] /\
    (forall epochs initial,
        In (EvFit epochs initial) (trace w') ->
        In (EvFit epochs initial) (trace w)) /\
    (forall tr w1 te w2,
        create_pairs NUM_CLASSES (x_train data) tr_pools ready = (Ok tr, w1) ->
        create_pairs NUM_CLASSES (x_test data) te_pools w1 = (Ok te, w2) ->
        e = if ((model args =? "simple_head")
                || (model args =? "dense_head"))%string
            then Exception "Unknown base network model type."
            else Exception "Unknown model type.").
Proof.
  apply (unknown_configuration_raises_before_fit NUM_CLASSES nat
           (MkArgs 3 500 16 2 "dense_head" "resnet" true)
           (MkData even_labels even_labels even_labels even_labels)
           (world_of zero_draws)).
  left. unfold known_base. simpl.
  intros [E | [E | E]]; discriminate E.
Defined.

(** ** The running best of the aggregation classifier *)

Lemma assessment_criteria_beats (model : string) (new prev : Q) :
  assessment_criteria model new prev = true <-> beats model new prev.
Proof.
  unfold assessment_criteria, beats.
  destruct (model =? "simple_head")%string; apply Qltb_lt.
Qed.

Lemma beats_irrefl (model : string) (v u : Q) :
  (v == u)%Q -> ~ beats model v u.
Proof.
  unfold beats. intros E.
  destruct (model =? "simple_head")%string; rewrite E; apply Qlt_irrefl.
Qed.

Lemma beats_trans (model : string) (a b c : Q) :
  beats model a b -> beats model b c -> beats model a c.
Proof.
  unfold beats. destruct (model =? "simple_head")%string; intros H1 H2.
  - exact (Qlt_trans _ _ _ H1 H2).
  - exact (Qlt_trans _ _ _ H2 H1).
Qed.

Lemma beats_asym (model : string) (a b : Q) :
  beats model a b -> ~ beats model b a.
Proof.
  intros H1 H2. apply (beats_irrefl model a a (Qeq_refl a)).
  exact (beats_trans model a b a H1 H2).
Qed.

(** What beats the running best beats whatever failed to beat it. *)
Lemma beats_carry (model : string) (v u b : Q) :
  beats model v b -> ~ beats model u b -> beats model v u.
Proof.
  unfold beats. destruct (model =? "simple_head")%string; intros H1 H2.
  - apply Qnot_lt_le in H2. exact (Qlt_le_trans _ _ _ H1 H2).
  - apply Qnot_lt_le in H2. exact (Qle_lt_trans _ _ _ H2 H1).
Qed.

Lemma update_finite (model : string) (d : nat) (v : Q) (b : best) :
  (beats model v (best_value b) /\
   update model d (Finite v) b = MkBest v (Z.of_nat d)) \/
  (~ beats model v (best_value b) /\ update model d (Finite v) b = b).
Proof.
  unfold update.
  destruct (assessment_criteria model v (best_value b)) eqn:E.
  - left. split; [apply assessment_criteria_beats; exact E | reflexivity].
  - right. split; [| reflexivity].
    intros H. apply assessment_criteria_beats in H. congruence.
Qed.

(** The running best after a scan: either nothing beat the initial value and
    it is unchanged, or it is the first of the aggregates no other aggregate
    beats, which beats the initial value and every aggregate before it. *)
Lemma scan_from_spec (model : string) (aggs : list np_float) :
  forall (d : nat) (b : best),
    (scan_from model d aggs b = b /\
     forall v, In (Finite v) aggs -> ~ beats model v (best_value b)) \/
    (exists i v,
        nth_error aggs i = Some (Finite v) /\
        scan_from model d aggs b = MkBest v (Z.of_nat (d + i)) /\
        beats model v (best_value b) /\
        (forall j u, j < i -> nth_error aggs j = Some (Finite u) ->
                     beats model v u) /\
        (forall j u, nth_error aggs j = Some (Finite u) ->
                     ~ beats model u v)).
Proof.
  induction aggs as [| a t IH]; intros d b.
  - left. split; [reflexivity | intros v []].
  - cbn [scan_from].
    destruct a as [q |];
      [destruct (update_finite model d q b) as [[Hq Hu] | [Hq Hu]] |].
    + (* the first aggregate replaces the running best *)
      rewrite Hu.
      destruct (IH (S d) (MkBest q (Z.of_nat d)))
        as [[Hs Hnone] | (i & v & Hi & Hs & Hv & Hbefore & Hall)];
        cbn [best_value] in *.
      * right. exists 0, q. rewrite Hs, Nat.add_0_r.
        repeat split; auto; [intros j u Hj; lia |].
        intros [| j] u Hu'; simpl in Hu'.
        -- inversion Hu'; subst. apply beats_irrefl. reflexivity.
        -- apply Hnone. eapply nth_error_In. exact Hu'.
      * right. exists (S i), v. rewrite Hs.
        replace (d + S i) with (S d + i) by lia.
        repeat split; auto.
        -- exact (beats_trans model v q _ Hv Hq).
        -- intros [| j] u Hj Hu'; simpl in Hu'.
           ++ inversion Hu'; subst. exact Hv.
           ++ apply (Hbefore j); [lia | exact Hu'].
        -- intros [| j] u Hu'; simpl in Hu'.
           ++ inversion Hu'; subst. apply beats_asym. exact Hv.
           ++ apply (Hall j). exact Hu'.
    + (* the first aggregate leaves the running best *)
      rewrite Hu.
      destruct (IH (S d) b)
        as [[Hs Hnone] | (i & v & Hi & Hs & Hv & Hbefore & Hall)].
      * left. split; [exact Hs |].
        intros u [E | Hin]; [inversion E; subst; exact Hq | auto].
      * right. exists (S i), v. rewrite Hs.
        replace (d + S i) with (S d + i) by lia.
        repeat split; auto.
        -- intros [| j] u Hj Hu'; simpl in Hu'.
           ++ inversion Hu'; subst. exact (beats_carry model v u _ Hv Hq).
           ++ apply (Hbefore j); [lia | exact Hu'].
        -- intros [| j] u Hu'; simpl in Hu'.
           ++ inversion Hu'; subst. apply beats_asym.
              exact (beats_carry model v u _ Hv Hq).
           ++ apply (Hall j). exact Hu'.
    + (* a NaN aggregate never replaces it *)
      cbn [update].
      destruct (IH (S d) b)
        as [[Hs Hnone] | (i & v & Hi & Hs & Hv & Hbefore & Hall)].
      * left. split; [exact Hs |].
        intros u [E | Hin]; [discriminate E | auto].
      * right. exists (S i), v. rewrite Hs.
        replace (d + S i) with (S d + i) by lia.
        repeat split; auto.
        -- intros [| j] u Hj Hu'; simpl in Hu'; [discriminate Hu' |].
           apply (Hbefore j); [lia | exact Hu'].
        -- intros [| j] u Hu'; simpl in Hu'; [discriminate Hu' |].
           apply (Hall j). exact Hu'.
Qed.

(** ** The classifier loop as three scans *)

Lemma min_of_ok (scores : list Q) (q : Q) :
  np_min scores = Ok q -> min_of scores = Finite q /\ scores <> [].
Proof.
  unfold min_of. intros H. rewrite H. split; [reflexivity |].
  intros ->. discriminate H.
Qed.

Section ClassifierLoop.

Variable A : Type.
Variable median32 mean32 : list Q -> np_float.
Variable predict : list A -> list A -> list Q.
Variable model : string.
Variable x_train : list A.
Variable pools : list (list nat).
Variable test_img : A.
Variable n : nat.

(** The loop over the classes keeps, for each policy, the running best of
    that policy's aggregates. *)
Lemma class_steps_scan (len : nat) :
  forall (d0 : nat) (r0 r : running),
    foldO (class_step median32 mean32 predict model x_train pools test_img n)
          (seq d0 len) r0 = Ok r ->
    exists scores,
      Forall2 (fun d s =>
                 class_scores predict x_train pools test_img n d = Ok s /\
                 s <> [])
              (seq d0 len) scores /\
      min_aggregated r
      = scan_from model d0 (map min_of scores) (min_aggregated r0) /\
      median_aggregated r
      = scan_from model d0 (map median32 scores) (median_aggregated r0) /\
      mean_aggregated r
      = scan_from model d0 (map mean32 scores) (mean_aggregated r0).
Proof.
  induction len as [| len IH]; intros d0 r0 r H; simpl in H.
  - inversion H; subst. exists []. repeat split; constructor.
  - apply obind_ok in H. destruct H as (r1 & Hstep & H).
    unfold class_step in Hstep.
    apply obind_ok in Hstep. destruct Hstep as (s & Hs & Habs).
    unfold absorb in Habs.
    apply obind_ok in Habs. destruct Habs as (q & Hq & Habs).
    inversion Habs; subst r1; clear Habs.
    apply min_of_ok in Hq. destruct Hq as [Hmin Hne].
    apply IH in H. destruct H as (scores & HF & H1 & H2 & H3).
    cbn [min_aggregated median_aggregated mean_aggregated] in *.
    exists (s :: scores). split; [constructor; auto |].
    cbn [map scan_from]. rewrite Hmin. auto.
Qed.

End ClassifierLoop.

(** Each of the three predicted labels is the label of a scan over that
    policy's per-class aggregates alone, as the library computes them. *)
Lemma classify_query_scans (K : nat) (A : Type)
    (median32 mean32 : list Q -> np_float)
    (predict : list A -> list A -> list Q) (model : string)
    (x_train : list A) (pools : list (list nat)) (test_img : A)
    (lmin lmedian lmean : Z) :
  classify_query K median32 mean32 predict model x_train pools test_img
  = Ok (lmin, lmedian, lmean) ->
  exists m scores,
    min_pool_len K pools = Ok m /\
    Forall2 (fun d s =>
               class_scores predict x_train pools test_img (m - 1) d = Ok s /\
               s <> [])
            (range 0 K) scores /\
    lmin = best_label (scan model (map min_of scores)) /\
    lmedian = best_label (scan model (map median32 scores)) /\
    lmean = best_label (scan model (map mean32 scores)).
Proof.
  unfold classify_query. intros H.
  apply obind_ok in H. destruct H as (m & Hm & H).
  apply obind_ok in H. destruct H as (r & Hr & H).
  inversion H; subst; clear H.
  apply class_steps_scan in Hr. destruct Hr as (scores & HF & H1 & H2 & H3).
  exists m, scores. unfold scan.
  rewrite H1, H2, H3. repeat split; auto.
Qed.

(** Of two classes with equal aggregates the later one is never the
    prediction. *)
Lemma scan_keeps_earlier (model : string) (aggs : list np_float)
    (i j : nat) (v u : Q) :
  i < j -> nth_error aggs i = Some (Finite v) ->
  nth_error aggs j = Some (Finite u) -> (v == u)%Q ->
  best_label (scan model aggs) <> Z.of_nat j.
Proof.
  intros Hij Hi Hj E. unfold scan.
  destruct (scan_from_spec model aggs 0 (MkBest (initial_value model) (-1)))
    as [[Hs _] | (k & t & Hk & Hs & _ & Hbefore & _)]; rewrite Hs; simpl.
  - lia.
  - intros Ek. apply Nat2Z.inj in Ek. subst k.
    rewrite Hj in Hk. inversion Hk; subst t.
    apply (beats_irrefl model u v); [symmetry; exact E |].
    exact (Hbefore i v Hij Hi).
Qed.

(** A predicted class holds an aggregate no other class beats, and beats
    every earlier class. *)
Lemma scan_winner (model : string) (aggs : list np_float) (L : nat) :
  best_label (scan model aggs) = Z.of_nat L ->
  exists v,
    nth_error aggs L = Some (Finite v) /\
    best_value (scan model aggs) = v /\
    beats model v (initial_value model) /\
    (forall j u, j < L -> nth_error aggs j = Some (Finite u) ->
                 beats model v u) /\
    (forall j u, nth_error aggs j = Some (Finite u) -> ~ beats model u v).
Proof.
  unfold scan.
  destruct (scan_from_spec model aggs 0 (MkBest (initial_value model) (-1)))
    as [[Hs _] | (k & t & Hk & Hs & Hv & Hbefore & Hall)]; rewrite Hs; simpl.
  - lia.
  - intros Ek. apply Nat2Z.inj in Ek. subst k. exists t. auto.
Qed.

(** C5: each policy keeps its own running best, replaced only when a new
    aggregate is strictly smaller (distance head) or strictly larger
    (probability head): the three labels [classify_query] returns are the
    labels of three scans, one over the per-class minima, one over the
    medians and one over the means the loop compares, that is the float32
    numbers [np.median] and [np.mean] return, whatever their rounding; of
    two classes with equal aggregates the later is never predicted, and a
    predicted class beats every earlier class and is beaten by none.  With
    minima 0.1, 0.4, 0.9 the distance head predicts class 0; with means 0.2,
    0.15, 0.3 it predicts class 1; and in one run with minima 1/8, 5/32, 3/8
    and means 1/4, 3/16, 3/8 MIN predicts class 0 while MEAN predicts
    class 1. *)
Theorem running_best_per_policy :
  (forall K A (median32 mean32 : list Q -> np_float)
          (predict : list A -> list A -> list Q) model x_train pools
          test_img lmin lmedian lmean,
      classify_query K median32 mean32 predict model x_train pools test_img
      = Ok (lmin, lmedian, lmean) ->
      exists m scores,
        min_pool_len K pools = Ok m /\
        Forall2 (fun d s =>
                   class_scores predict x_train pools test_img (m - 1) d
                   = Ok s /\ s <> [])
                (range 0 K) scores /\
        lmin = best_label (scan model (map min_of scores)) /\
        lmedian = best_label (scan model (map median32 scores)) /\
        lmean = best_label (scan model (map mean32 scores))) /\
  (forall model new prev,
      assessment_criteria model new prev = true <-> beats model new prev) /\
  (forall new prev, beats "simple_head" new prev <-> (new < prev)%Q) /\
  (forall new prev, beats "dense_head" new prev <-> (prev < new)%Q) /\
  (forall model d v b,
      (beats model v (best_value b) /\
       update model d (Finite v) b = MkBest v (Z.of_nat d)) \/
      (~ beats model v (best_value b) /\
       update model d (Finite v) b = b)) /\
  (forall model aggs i j v u,
      i < j -> nth_error aggs i = Some (Finite v) ->
      nth_error aggs j = Some (Finite u) -> (v == u)%Q ->
      best_label (scan model aggs) <> Z.of_nat j) /\
  (forall model aggs L,
      best_label (scan model aggs) = Z.of_nat L ->
      exists v,
        nth_error aggs L = Some (Finite v) /\
        best_value (scan model aggs) = v /\
        beats model v (initial_value model) /\
        (forall j u, j < L -> nth_error aggs j = Some (Finite u) ->
                     beats model v u) /\
        (forall j u, nth_error aggs j = Some (Finite u) ->
                     ~ beats model u v)) /\
  best_label (scan "simple_head"
                [Finite (1 # 10); Finite (4 # 10); Finite (9 # 10)]) = 0%Z /\
  best_label (scan "simple_head"
                [Finite (2 # 10); Finite (15 # 100); Finite (3 # 10)]) = 1%Z /\
  classify_query 3 np_median np_mean table_predict "simple_head"
    three_class_images
    (get_digit_indices 3 three_class_labels 3) 9
  = Ok (0%Z, 1%Z, 1%Z).
Proof.
  split; [exact classify_query_scans |].
  split; [exact assessment_criteria_beats |].
  split; [intros; reflexivity |].
  split; [intros; reflexivity |].
  split; [exact update_finite |].
  split; [exact scan_keeps_earlier |].
  split; [exact scan_winner |].
  repeat split; vm_compute; reflexivity.
Qed.

(** ** Aggregates that beat the initial value *)

Lemma Qmin_pick (a b : Q) : Qmin a b = a \/ Qmin a b = b.
Proof.
  unfold Qmin, GenericMinMax.gmin. destruct (a ?= b)%Q; auto.
Qed.

Lemma fold_Qmin_in (t : list Q) (a : Q) : In (fold_left Qmin t a) (a :: t).
Proof.
  revert a. induction t as [| b t IH]; intros a; simpl; [now left |].
  destruct (IH (Qmin a b)) as [E | Hin].
  - destruct (Qmin_pick a b) as [E' | E'].
    + left. congruence.
    + right. left. congruence.
  - right. right. exact Hin.
Qed.

Lemma inject_pos (k : nat) : (0 < inject_Z (Z.of_nat (S k)))%Q.
Proof.
  change 0%Q with (inject_Z 0). rewrite <- Zlt_Qlt. lia.
Qed.

(** A scan in which some aggregate beats the initial value predicts a class
    among those scanned. *)
Lemma scan_label_in_range (model : string) (aggs : list np_float) (v : Q) :
  In (Finite v) aggs -> beats model v (initial_value model) ->
  (0 <= best_label (scan model aggs) < Z.of_nat (length aggs))%Z.
Proof.
  intros Hin Hv. unfold scan.
  destruct (scan_from_spec model aggs 0 (MkBest (initial_value model) (-1)))
    as [[_ Hnone] | (i & u & Hi & Hs & _)].
  - exfalso. exact (Hnone v Hin Hv).
  - rewrite Hs. simpl.
    assert (i < length aggs) by (apply nth_error_Some; congruence). lia.
Qed.

(** ** The initial value of the running best *)

Lemma mapO_length {X Y} (f : X -> outcome Y) l ys :
  mapO f l = Ok ys -> length ys = length l.
Proof.
  intros H. apply mapO_ok, Forall2_length in H. symmetry. exact H.
Qed.

Lemma foldO_total {X S} (f : S -> X -> outcome S) (l : list X) :
  (forall s a, In a l -> exists s', f s a = Ok s') ->
  forall s, exists s', foldO f l s = Ok s'.
Proof.
  induction l as [| a t IH]; intros Hf s; simpl.
  - eauto.
  - destruct (Hf s a (or_introl eq_refl)) as (s1 & ->). simpl.
    apply IH. intros s0 b Hb. apply Hf. now right.
Qed.

Section Scores.

Variable K : nat.
Variable A : Type.
Variable predict : list A -> list A -> list Q.
Variable x_train : list A.
Variable pools : list (list nat).
Variable test_img : A.

(** The scores of a class are what the model predicts for a non-empty batch
    of pairs. *)
Lemma class_scores_predicted n d s :
  class_scores predict x_train pools test_img n d = Ok s ->
  exists left right, left <> [] /\ s = predict left right.
Proof.
  unfold class_scores. intros H.
  apply obind_ok in H. destruct H as (image_pairs & _ & H).
  destruct image_pairs as [| p ps]; [discriminate H |].
  simpl in H. inversion H. eexists _, _. split; [| reflexivity].
  discriminate.
Qed.

Hypothesis in_range : pools_in_range K x_train pools.

(** With at least [n] references in the pool of class [d], the [n >= 1]
    reference pairs of the class are scored. *)
Lemma class_scores_total n d pool :
  d < K -> nth_error pools d = Some pool -> 1 <= n <= length pool ->
  exists s, class_scores predict x_train pools test_img n d = Ok s.
Proof.
  intros Hd Hp Hn. unfold class_scores.
  destruct (mapO_total
              (fun i =>
                 pool <~ getitem pools d ;;
                 z1 <~ getitem pool i ;;
                 img <~ getitem x_train z1 ;;
                 Ok (img, test_img))
              (range 0 n)) as (image_pairs & Hm).
  - intros i Hi. unfold range in Hi. apply in_seq in Hi.
    rewrite (proj2 (getitem_ok pools d pool) Hp). cbn [obind].
    destruct (getitem_lt pool i ltac:(lia)) as (z & Hz).
    rewrite Hz. cbn [obind].
    assert (Hin : In z pool)
      by (apply getitem_ok in Hz; eapply nth_error_In; exact Hz).
    destruct (getitem_lt x_train z (in_range d pool z Hd Hp Hin)) as (a & ->).
    cbn [obind]. eauto.
  - rewrite Hm. cbn [obind].
    apply mapO_length in Hm. unfold range in Hm. rewrite length_seq in Hm.
    destruct image_pairs as [| p ps]; [simpl in Hm; lia |].
    simpl. eauto.
Qed.

End Scores.

(** The scores of class [d] are among the per-class scores of the query. *)
Lemma scores_of_class (K : nat) (A : Type)
    (predict : list A -> list A -> list Q) (x_train : list A)
    (pools : list (list nat)) (test_img : A) (n : nat)
    (scores : list (list Q)) (d : nat) (s : list Q) :
  Forall2 (fun d s =>
             class_scores predict x_train pools test_img n d = Ok s /\
             s <> [])
          (range 0 K) scores ->
  d < K -> class_scores predict x_train pools test_img n d = Ok s ->
  In s scores.
Proof.
  intros HF Hd Hs.
  destruct (Forall2_nth_left _ _ _ d d HF (range_nth K d Hd))
    as (s' & Hnth & Hs' & _).
  assert (s' = s) by congruence. subst s'.
  eapply nth_error_In. exact Hnth.
Qed.

(** The minimum of a non-empty array of scores that all beat [c] beats
    [c]. *)
Lemma min_of_beats (model : string) (c : Q) (s : list Q) :
  s <> [] -> (forall q, In q s -> beats model q c) ->
  exists v, min_of s = Finite v /\ beats model v c.
Proof.
  intros Hne Hall. destruct s as [| a t]; [contradiction |].
  eexists. split; [reflexivity |]. apply Hall, fold_Qmin_in.
Qed.

(** C8, amended: the initial values 999 (distance head) and -999
    (probability head) are beaten only by a value strictly below 999,
    respectively strictly above -999.  When every class has at least two
    pool entries, the pool indices point into the training set and the model
    returns at least one score for the reference pairs of every class of
    this query, the scan of the query completes, and the label of a policy is
    a class in [0, K-1] as soon as the aggregate the loop computes for one
    class lies in that range: for MIN, as soon as all reference scores of
    one class do; for MEDIAN and MEAN, as soon as the median, respectively
    the mean, that the library returns for one class does. *)
Theorem initial_value_beaten_inside_sentinel (K : nat) (A : Type)
    (median32 mean32 : list Q -> np_float)
    (predict : list A -> list A -> list Q) (model : string)
    (x_train : list A) (pools : list (list nat)) (test_img : A) (m : nat) :
  min_pool_len K pools = Ok m -> 2 <= m ->
  pools_in_range K x_train pools ->
  (forall d s,
      d < K ->
      class_scores predict x_train pools test_img (m - 1) d = Ok s ->
      s <> []) ->
  (exists lmin lmedian lmean,
      classify_query K median32 mean32 predict model x_train pools test_img
      = Ok (lmin, lmedian, lmean) /\
      ((exists d s,
           d < K /\
           class_scores predict x_train pools test_img (m - 1) d = Ok s /\
           forall q, In q s -> beats model q (initial_value model)) ->
       (0 <= lmin < Z.of_nat K)%Z) /\
      ((exists d s v,
           d < K /\
           class_scores predict x_train pools test_img (m - 1) d = Ok s /\
           median32 s = Finite v /\ beats model v (initial_value model)) ->
       (0 <= lmedian < Z.of_nat K)%Z) /\
      ((exists d s v,
           d < K /\
           class_scores predict x_train pools test_img (m - 1) d = Ok s /\
           mean32 s = Finite v /\ beats model v (initial_value model)) ->
       (0 <= lmean < Z.of_nat K)%Z)) /\
  (forall s, beats "simple_head" s (initial_value "simple_head")
             <-> (s < 999)%Q) /\
  (forall s, beats "dense_head" s (initial_value "dense_head")
             <-> (- (999) < s)%Q).
Proof.
  intros Hm Hm2 Hrange Hscored.
  split; [| split; intros s; reflexivity].
  destruct (min_pool_len_ok K pools m Hm) as (Hpools & _).
  assert (Hrun : exists r,
             foldO (class_step median32 mean32 predict model x_train pools
                               test_img (m - 1))
                   (range 0 K) (initial model) = Ok r).
  { apply foldO_total. intros r d Hd. unfold range in Hd. apply in_seq in Hd.
    destruct (Hpools d ltac:(lia)) as (pool & Hp & Hle).
    destruct (class_scores_total K A predict x_train pools test_img Hrange
                (m - 1) d pool ltac:(lia) Hp ltac:(lia)) as (s & Hs).
    unfold class_step. rewrite Hs. cbn [obind].
    assert (Hne : s <> []) by (apply (Hscored d); [lia | exact Hs]).
    unfold absorb. destruct s as [| q qs]; [contradiction |].
    simpl. eauto. }
  destruct Hrun as (r & Hr).
  assert (Hq : classify_query K median32 mean32 predict model x_train pools
                 test_img
               = Ok (best_label (min_aggregated r),
                     best_label (median_aggregated r),
                     best_label (mean_aggregated r))).
  { unfold classify_query. rewrite Hm. cbn [obind]. rewrite Hr. reflexivity. }
  exists (best_label (min_aggregated r)), (best_label (median_aggregated r)),
         (best_label (mean_aggregated r)).
  split; [exact Hq |].
  apply classify_query_scans in Hq.
  destruct Hq as (m' & scores & Hm' & HF & -> & -> & ->).
  assert (m' = m) by congruence. subst m'.
  assert (HK : length scores = K).
  { apply Forall2_length in HF. unfold range in HF.
    rewrite length_seq in HF. lia. }
  split; [| split].
  - intros (d & s & Hd & Hs & Hall).
    assert (Hin := scores_of_class K A predict x_train pools test_img (m - 1)
                     scores d s HF Hd Hs).
    destruct (min_of_beats model (initial_value model) s
                (Hscored d s Hd Hs) Hall) as (v & Ev & Hv).
    rewrite <- HK, <- (length_map min_of scores).
    apply (scan_label_in_range model _ v); [| exact Hv].
    rewrite <- Ev. apply in_map. exact Hin.
  - intros (d & s & v & Hd & Hs & Ev & Hv).
    assert (Hin := scores_of_class K A predict x_train pools test_img (m - 1)
                     scores d s HF Hd Hs).
    rewrite <- HK, <- (length_map median32 scores).
    apply (scan_label_in_range model _ v); [| exact Hv].
    rewrite <- Ev. apply in_map. exact Hin.
  - intros (d & s & v & Hd & Hs & Ev & Hv).
    assert (Hin := scores_of_class K A predict x_train pools test_img (m - 1)
                     scores d s HF Hd Hs).
    rewrite <- HK, <- (length_map mean32 scores).
    apply (scan_label_in_range model _ v); [| exact Hv].
    rewrite <- Ev. apply in_map. exact Hin.
Qed.

Lemma initial_value_beaten_inside_sentinel_witness :
  (exists lmin lmedian lmean,
      classify_query NUM_CLASSES np_median np_mean table_predict
        "simple_head" even_labels
        (get_digit_indices NUM_CLASSES even_labels 2) 0
      = Ok (lmin, lmedian, lmean) /\
      ((exists d s,
           d < NUM_CLASSES /\
           class_scores table_predict even_labels
             (get_digit_indices NUM_CLASSES even_labels 2) 0 (2 - 1) d
           = Ok s /\
           forall q, In q s ->
                     beats "simple_head" q (initial_value "simple_head")) ->
       (0 <= lmin < Z.of_nat NUM_CLASSES)%Z) /\
      ((exists d s v,
           d < NUM_CLASSES /\
           class_scores table_predict even_labels
             (get_digit_indices NUM_CLASSES even_labels 2) 0 (2 - 1) d
           = Ok s /\
           np_median s = Finite v /\
           beats "simple_head" v (initial_value "simple_head")) ->
       (0 <= lmedian < Z.of_nat NUM_CLASSES)%Z) /\
      ((exists d s v,
           d < NUM_CLASSES /\
           class_scores table_predict even_labels
             (get_digit_indices NUM_CLASSES even_labels 2) 0 (2 - 1) d
           = Ok s /\
           np_mean s = Finite v /\
           beats "simple_head" v (initial_value "simple_head")) ->
       (0 <= lmean < Z.of_nat NUM_CLASSES)%Z)) /\
  (forall s, beats "simple_head" s (initial_value "simple_head")
             <-> (s < 999)%Q) /\
  (forall s, beats "dense_head" s (initial_value "dense_head")
             <-> (- (999) < s)%Q).
Proof.
  apply (initial_value_beaten_inside_sentinel NUM_CLASSES nat np_median
           np_mean table_predict "simple_head" even_labels
           (get_digit_indices NUM_CLASSES even_labels 2) 0 2).
  - reflexivity.
  - lia.
  - apply get_digit_indices_in_range. lia.
  - intros d s Hd Hs.
    destruct (class_scores_predicted nat table_predict even_labels
                (get_digit_indices NUM_CLASSES even_labels 2) 0 _ _ _ Hs)
      as (left & right & Hne & ->).
    unfold table_predict. destruct left; [contradiction | discriminate].
Defined.

(** C8 as stated fails: with a distance of 1000 for every pair, ten classes
    and one scored reference pair per class, no aggregate is below the
    initial 999 and the three predicted labels stay at the marker -1. *)
Lemma far_scores_leave_the_invalid_label :
  min_pool_len NUM_CLASSES (get_digit_indices NUM_CLASSES even_labels 2)
  = Ok 2 /\
  (forall d, In d (range 0 NUM_CLASSES) ->
     class_scores far_predict even_labels
       (get_digit_indices NUM_CLASSES even_labels 2) 0 (2 - 1) d
     = Ok [1000%Q]) /\
  classify_query NUM_CLASSES np_median np_mean far_predict "simple_head"
    even_labels
    (get_digit_indices NUM_CLASSES even_labels 2) 0
  = Ok ((-1)%Z, (-1)%Z, (-1)%Z) /\
  ~ (0 <= -1 <= Z.of_nat NUM_CLASSES - 1)%Z.
Proof.
  split; [reflexivity | split; [| split; [reflexivity | lia]]].
  intros d Hd. simpl in Hd.
  repeat (destruct Hd as [<- | Hd]; [reflexivity |]). contradiction.
Qed.

(** * Further properties of the program *)

(** ** Pair construction: random draws *)

Lemma world_eta (w : world) : MkWorld (entropy w) (cursor w) (trace w) = w.
Proof. destruct w; reflexivity. Qed.

Lemma pair_step_draws K A (x : list A) pools d i j acc w acc' w' :
  pair_step K x pools d i j acc w = (Ok acc', w') ->
  w' = MkWorld (entropy w) (cursor w + 2) (trace w).
Proof.
  destruct acc as [pairs labels]. unfold pair_step. intros H.
  peel H.
  repeat match goal with
         | Hl : lift _ _ = (Ok _, _) |- _ => peel_lift Hl
         end.
  repeat match goal with
         | Hr : randint _ _ _ = (Ok _, _) |- _ =>
             apply randint_ok in Hr; destruct Hr as [_ ?]; subst
         end.
  apply ret_ok in H. destruct H as [_ ->]. cbn [entropy cursor trace].
  f_equal. lia.
Qed.

(** A loop whose body makes two draws per scheduled step makes two draws per
    step of the concatenated schedules. *)
Lemma foldM_draws {X S I} (f : S -> X -> M S) (sched : X -> list I) :
  (forall s a w s' w',
      f s a w = (Ok s', w') ->
      w' = MkWorld (entropy w) (cursor w + 2 * length (sched a)) (trace w)) ->
  forall l s w s' w',
    foldM f l s w = (Ok s', w') ->
    w' = MkWorld (entropy w) (cursor w + 2 * length (flat_map sched l))
                 (trace w).
Proof.
  intros Hbody l. induction l as [| a t IH]; intros s w s' w' H.
  - simpl in H. apply ret_ok in H. destruct H as [_ ->].
    simpl. rewrite Nat.add_0_r. symmetry. apply world_eta.
  - simpl in H. apply bind_ok in H. destruct H as (s1 & w1 & H1 & H2).
    apply Hbody in H1. apply IH in H2. subst w1. rewrite H2.
    cbn [entropy cursor trace flat_map]. rewrite length_app.
    f_equal. lia.
Qed.

(** X1: a run of [create_pairs] that returns has made exactly two random
    draws per step, one per returned pair, and has left the stream and the
    trace alone: the cursor advanced by [2 * K * C(n, 2)], the number of
    pairs. *)
Theorem create_pairs_draws (K : nat) (A : Type) (x : list A)
    (pools : list (list nat)) (w : world) (pairs : list (A * A))
    (labels : list Z) (w' : world) :
  create_pairs K x pools w = (Ok (pairs, labels), w') ->
  exists n,
    min_pool_len K pools = Ok n /\
    entropy w' = entropy w /\ trace w' = trace w /\
    cursor w' = cursor w + 2 * K * choose2 n /\
    cursor w' = cursor w + length pairs.
Proof.
  intros H.
  destruct (create_pairs_count K A x pools w pairs labels w' H)
    as (n & Hn & Hlen & _).
  exists n. split; [exact Hn |].
  unfold create_pairs in H. rewrite (bind_lift _ _ _ _ Hn) in H.
  apply (@foldM_draws _ _ _ _
           (fun d =>
              flat_map (fun i => flat_map (fun j => [(d, i, j)])
                                          (range (i + 1) n))
                       (range 0 (n - 1)))) in H.
  - fold (schedule K n) in H. rewrite schedule_length in H. subst w'.
    cbn [entropy cursor trace]. rewrite Hlen. repeat split; lia.
  - intros s d wa s' wb Hd.
    apply (@foldM_draws _ _ _ _
             (fun i => flat_map (fun j => [(d, i, j)]) (range (i + 1) n)))
      in Hd; [exact Hd |].
    intros s0 i wc s1 wd Hi.
    apply (@foldM_draws _ _ _ _ (fun j => [(d, i, j)])) in Hi; [exact Hi |].
    intros s2 j we s3 wf Hj. apply pair_step_draws in Hj. exact Hj.
Qed.

Lemma create_pairs_draws_witness :
  exists n,
    min_pool_len NUM_CLASSES (get_digit_indices NUM_CLASSES even_labels 2)
    = Ok n /\
    entropy (MkWorld zero_draws 20 []) = entropy (world_of zero_draws) /\
    trace (MkWorld zero_draws 20 []) = trace (world_of zero_draws) /\
    cursor (MkWorld zero_draws 20 [])
    = cursor (world_of zero_draws) + 2 * NUM_CLASSES * choose2 n /\
    cursor (MkWorld zero_draws 20 [])
    = cursor (world_of zero_draws)
      + length [(0, 0); (0, 1); (1, 1); (1, 2); (2, 2); (2, 3); (3, 3);
                (3, 4); (4, 4); (4, 5); (5, 5); (5, 6); (6, 6); (6, 7);
                (7, 7); (7, 8); (8, 8); (8, 9); (9, 9); (9, 0)].
Proof.
  apply (create_pairs_draws NUM_CLASSES nat even_labels
           (get_digit_indices NUM_CLASSES even_labels 2)
           (world_of zero_draws) _ (alternating 10)
           (MkWorld zero_draws 20 [])).
  vm_compute. reflexivity.
Defined.

(** ** Pair construction: when it returns, and how much *)

(** X2: with at least two classes, pools of one common length [n] and pool
    indices that point into [x], [create_pairs] returns on every random
    stream, with [2 * K * C(n, 2)] pairs. *)
Theorem create_pairs_returns_on_equal_pools (K : nat) (A : Type)
    (x : list A) (pools : list (list nat)) (n : nat) (w : world) :
  2 <= K ->
  (forall d, d < K ->
     exists pool, nth_error pools d = Some pool /\ length pool = n) ->
  pools_in_range K x pools ->
  exists pairs labels w',
    create_pairs K x pools w = (Ok (pairs, labels), w') /\
    length pairs = 2 * K * choose2 n.
Proof.
  intros HK Heq Hrange.
  destruct (create_pairs_total K A x pools n HK Heq Hrange w)
    as (pairs & labels & w' & Hrun).
  exists pairs, labels, w'. split; [exact Hrun |].
  destruct (create_pairs_count K A x pools w pairs labels w' Hrun)
    as (m & Hm & Hp & _).
  rewrite (pools_min_len K pools n HK Heq) in Hm. inversion Hm; subst.
  exact Hp.
Qed.

Lemma create_pairs_returns_on_equal_pools_witness :
  exists pairs labels w',
    create_pairs NUM_CLASSES even_labels
      (get_digit_indices NUM_CLASSES even_labels 2) (world_of second_draw_two)
    = (Ok (pairs, labels), w') /\
    length pairs = 2 * NUM_CLASSES * choose2 2.
Proof.
  apply (create_pairs_returns_on_equal_pools NUM_CLASSES nat even_labels
           (get_digit_indices NUM_CLASSES even_labels 2) 2
           (world_of second_draw_two)).
  - unfold NUM_CLASSES. lia.
  - intros d Hd.
    destruct (get_digit_indices_bound NUM_CLASSES even_labels 2 d
                ltac:(lia) Hd) as (pool & Hp & _ & Hl).
    exists pool. split; [exact Hp |]. apply Hl.
    unfold NUM_CLASSES in Hd.
    do 10 (destruct d as [| d]; [vm_compute; lia |]). lia.
  - apply get_digit_indices_in_range. lia.
Defined.

(** X3: whenever [create_pairs] returns, it returns [2 * K * C(n, 2)] pairs
    and as many labels, [n] being the minimum pool length, whatever the
    lengths of the other pools. *)
Theorem create_pairs_returned_count (K : nat) (A : Type) (x : list A)
    (pools : list (list nat)) (w : world) (pairs : list (A * A))
    (labels : list Z) (w' : world) :
  create_pairs K x pools w = (Ok (pairs, labels), w') ->
  exists n,
    min_pool_len K pools = Ok n /\
    length pairs = 2 * K * choose2 n /\
    length labels = length pairs.
Proof.
  intros H.
  destruct (create_pairs_count K A x pools w pairs labels w' H)
    as (n & Hn & Hp & Hl).
  exists n. repeat split; [exact Hn | exact Hp | lia].
Qed.

Lemma create_pairs_returned_count_witness :
  exists n,
    min_pool_len NUM_CLASSES uneven_pools = Ok n /\
    length ten_step_pairs = 2 * NUM_CLASSES * choose2 n /\
    length (alternating 10) = length ten_step_pairs.
Proof.
  apply (create_pairs_returned_count NUM_CLASSES nat uneven_labels
           uneven_pools (world_of zero_draws) ten_step_pairs
           (alternating 10) (MkWorld zero_draws 20 [])).
  vm_compute. reflexivity.
Defined.

(** X4: with at least two classes, a bound [examples_per_class >= 0] and at
    least that many examples of every class, [get_digit_indices] followed by
    [create_pairs] returns [2 * K * C(examples_per_class, 2)] pairs (200 for
    ten classes and five examples per class). *)
Theorem pools_then_pairs_count (K : nat) (A : Type) (x : list A)
    (labels : list nat) (e : Z) (w : world) :
  2 <= K -> (0 <= e)%Z -> length labels <= length x ->
  (forall c, c < K -> Z.to_nat e <= count_occ Nat.eq_dec labels c) ->
  exists pairs pair_labels w',
    create_pairs K x (get_digit_indices K labels e) w
    = (Ok (pairs, pair_labels), w') /\
    length pairs = 2 * K * choose2 (Z.to_nat e) /\
    2 * 10 * choose2 5 = 200.
Proof.
  intros HK He Hlen Hfull.
  destruct (create_pairs_full_pools K x labels e w HK He Hlen Hfull)
    as (pairs & pl & w' & Hrun & Hcount).
  exists pairs, pl, w'. repeat split; [exact Hrun | exact Hcount].
Qed.

Lemma pools_then_pairs_count_witness :
  exists pairs pair_labels w',
    create_pairs NUM_CLASSES uneven_labels
      (get_digit_indices NUM_CLASSES uneven_labels 2) (world_of zero_draws)
    = (Ok (pairs, pair_labels), w') /\
    length pairs = 2 * NUM_CLASSES * choose2 (Z.to_nat 2) /\
    2 * 10 * choose2 5 = 200.
Proof.
  apply (pools_then_pairs_count NUM_CLASSES nat uneven_labels uneven_labels 2
           (world_of zero_draws)).
  - unfold NUM_CLASSES. lia.
  - lia.
  - lia.
  - intros c Hc. unfold NUM_CLASSES in Hc.
    do 10 (destruct c as [| c]; [vm_compute; lia |]). lia.
Defined.

(** X5: when some class has fewer than two pool entries ([n < 2]),
    [create_pairs] returns the two empty arrays without an error and without
    a random draw. *)
Theorem create_pairs_on_small_pools (K : nat) (A : Type) (x : list A)
    (pools : list (list nat)) (n : nat) (w : world) :
  min_pool_len K pools = Ok n -> n < 2 ->
  create_pairs K x pools w = (Ok ([], []), w).
Proof. apply create_pairs_degenerate. Qed.

Lemma create_pairs_on_small_pools_witness :
  create_pairs NUM_CLASSES even_labels
    (get_digit_indices NUM_CLASSES even_labels 1) (world_of zero_draws)
  = (Ok ([], []), world_of zero_draws).
Proof.
  apply (create_pairs_on_small_pools NUM_CLASSES nat even_labels
           (get_digit_indices NUM_CLASSES even_labels 1) 1
           (world_of zero_draws)).
  - reflexivity.
  - lia.
Defined.

(** ** Pair construction: what depends on the random stream *)

Lemma positive_at_unique A (x : list A) pools d i j (p p' : A * A) :
  positive_at x pools d i j p -> positive_at x pools d i j p' -> p = p'.
Proof.
  intros (pool & z1 & z2 & Hp & Hz1 & Hz2 & Ha & Hb)
         (pool' & y1 & y2 & Hp' & Hy1 & Hy2 & Ha' & Hb').
  destruct p as [a b], p' as [a' b']. simpl in *.
  assert (pool' = pool) by congruence. subst pool'.
  assert (y1 = z1) by congruence. assert (y2 = z2) by congruence. subst.
  f_equal; congruence.
Qed.

Lemma negative_at_anchor K A (x : list A) pools d i j (p q : A * A) :
  positive_at x pools d i j p -> negative_at K x pools d i q ->
  fst q = fst p.
Proof.
  intros (pool & z1 & z2 & Hp & Hz1 & Hz2 & Ha & Hb)
         (pool' & inc & r & partner & y1 & y2 & Hp' & _ & Hy1 & _ & Ha' & _).
  assert (pool' = pool) by congruence. subst pool'.
  assert (y1 = z1) by congruence. subst. congruence.
Qed.

Lemma Forall2_same_left {X Y} (R : X -> Y -> Prop) (Q : Y -> Y -> Prop)
    l l1 l2 :
  (forall a b b', R a b -> R a b' -> Q b b') ->
  Forall2 R l l1 -> Forall2 R l l2 -> Forall2 Q l1 l2.
Proof.
  intros HQ H1. revert l2.
  induction H1 as [| a b l l1 Hab _ IH]; intros l2 H2; inversion H2; subst.
  - constructor.
  - constructor; [eapply HQ; eassumption | apply IH; assumption].
Qed.

Lemma evens_step_pairs A (steps : list (step A)) :
  evens (step_pairs steps) = map fst steps.
Proof.
  induction steps as [| s t IH]; simpl; [reflexivity |].
  f_equal. exact IH.
Qed.

Lemma step_pairs_nth A (steps : list (step A)) :
  forall k,
    nth_error (step_pairs steps) (2 * k) = option_map fst (nth_error steps k) /\
    nth_error (step_pairs steps) (2 * k + 1)
    = option_map snd (nth_error steps k).
Proof.
  induction steps as [| s t IH]; intros k.
  - cbn [step_pairs flat_map]. rewrite !nth_error_nil. split; reflexivity.
  - destruct k as [| k].
    + split; reflexivity.
    + replace (2 * S k) with (S (S (2 * k))) by lia.
      replace (S (S (2 * k)) + 1) with (S (S (2 * k + 1))) by lia.
      exact (IH k).
Qed.

(** X6: only the negative partners depend on the random stream: two runs of
    [create_pairs] on the same data that both return, return the same labels,
    the same positive pairs (the entries at even positions) and, in every
    pair, the same first element. *)
Theorem create_pairs_random_part (K : nat) (A : Type) (x : list A)
    (pools : list (list nat)) (w1 w2 : world)
    (pairs1 pairs2 : list (A * A)) (labels1 labels2 : list Z)
    (w1' w2' : world) :
  create_pairs K x pools w1 = (Ok (pairs1, labels1), w1') ->
  create_pairs K x pools w2 = (Ok (pairs2, labels2), w2') ->
  labels1 = labels2 /\
  evens pairs1 = evens pairs2 /\
  map fst pairs1 = map fst pairs2.
Proof.
  intros H1 H2.
  apply create_pairs_structure in H1, H2.
  destruct H1 as (n & steps1 & Hn & HR1 & -> & ->).
  destruct H2 as (n' & steps2 & Hn' & HR2 & -> & ->).
  assert (n' = n) by congruence. subst n'.
  assert (Hsame : Forall2 (fun s1 s2 : step A =>
                             fst s1 = fst s2 /\ fst (snd s1) = fst (snd s2))
                          steps1 steps2).
  { apply (Forall2_same_left (step_at K x pools) _ (schedule K n));
      [| exact HR1 | exact HR2].
    intros [[d i] j] s s' [Hp Hq] [Hp' Hq']. split.
    - exact (positive_at_unique A x pools d i j _ _ Hp Hp').
    - rewrite (negative_at_anchor K A x pools d i j _ _ Hp Hq).
      rewrite (negative_at_anchor K A x pools d i j _ _ Hp' Hq').
      f_equal. exact (positive_at_unique A x pools d i j _ _ Hp Hp'). }
  rewrite !evens_step_pairs, !step_labels_alternating.
  rewrite (Forall2_length Hsame).
  split; [reflexivity | split].
  - clear HR1 HR2. induction Hsame as [| s1 s2 t1 t2 [E _] _ IH]; simpl;
      [reflexivity | f_equal; assumption].
  - clear HR1 HR2. induction Hsame as [| s1 s2 t1 t2 [E1 E2] _ IH]; simpl;
      [reflexivity |].
    rewrite E1, E2. f_equal. f_equal. exact IH.
Qed.

Lemma create_pairs_random_part_witness :
  alternating 10 = alternating 10 /\
  evens ten_step_pairs
  = evens [(0, 0); (0, 2); (1, 1); (1, 2); (2, 2); (2, 3); (3, 3); (3, 4);
           (4, 4); (4, 5); (5, 5); (5, 6); (6, 6); (6, 7); (7, 7); (7, 8);
           (8, 8); (8, 9); (9, 9); (9, 0)] /\
  map fst ten_step_pairs
  = map fst [(0, 0); (0, 2); (1, 1); (1, 2); (2, 2); (2, 3); (3, 3); (3, 4);
             (4, 4); (4, 5); (5, 5); (5, 6); (6, 6); (6, 7); (7, 7); (7, 8);
             (8, 8); (8, 9); (9, 9); (9, 0)].
Proof.
  apply (create_pairs_random_part NUM_CLASSES nat even_labels
           (get_digit_indices NUM_CLASSES even_labels 2)
           (world_of zero_draws) (world_of (fun k => if k =? 0 then 1 else 0))
           _ _ _ _
           (MkWorld zero_draws 20 [])
           (MkWorld (fun k => if k =? 0 then 1 else 0) 20 []));
    vm_compute; reflexivity.
Defined.

(** X7: in what [create_pairs] returns, the negative pair of a step has the
    same first element as the positive pair before it: entries [2k] and
    [2k + 1] share their first image. *)
Theorem create_pairs_shared_anchor (K : nat) (A : Type) (x : list A)
    (pools : list (list nat)) (w : world) (pairs : list (A * A))
    (labels : list Z) (w' : world) (k : nat) (p q : A * A) :
  create_pairs K x pools w = (Ok (pairs, labels), w') ->
  nth_error pairs (2 * k) = Some p ->
  nth_error pairs (2 * k + 1) = Some q ->
  fst q = fst p.
Proof.
  intros H Hp Hq. apply create_pairs_structure in H.
  destruct H as (n & steps & _ & HR & -> & _).
  destruct (step_pairs_nth A steps k) as [E0 E1].
  rewrite E0 in Hp. rewrite E1 in Hq.
  destruct (nth_error steps k) as [s |] eqn:Es; [| discriminate].
  simpl in Hp, Hq. inversion Hp; inversion Hq; subst.
  destruct (Forall2_nth_right _ _ _ k s HR Es) as ([[d i] j] & _ & Hpos & Hneg).
  exact (negative_at_anchor K A x pools d i j _ _ Hpos Hneg).
Qed.

Lemma create_pairs_shared_anchor_witness : fst (1, 2) = fst (1, 1).
Proof.
  apply (create_pairs_shared_anchor NUM_CLASSES nat even_labels
           (get_digit_indices NUM_CLASSES even_labels 2)
           (world_of zero_draws) ten_step_pairs (alternating 10)
           (MkWorld zero_draws 20 []) 1 (1, 1) (1, 2));
    vm_compute; reflexivity.
Defined.

(** ** The pools of [get_digit_indices] *)

Lemma where_eq_from_complete pos labels c i :
  nth_error labels i = Some c -> In (pos + i) (where_eq_from pos labels c).
Proof.
  revert pos i. induction labels as [| l t IH]; intros pos i H.
  - destruct i; discriminate.
  - simpl. destruct i as [| i]; simpl in H.
    + inversion H; subst. rewrite Nat.eqb_refl, Nat.add_0_r. now left.
    + apply (IH (S pos)) in H.
      replace (pos + S i) with (S pos + i) by lia.
      destruct (l =? c); [right |]; exact H.
Qed.

Lemma where_eq_from_sorted pos labels c :
  StronglySorted lt (where_eq_from pos labels c).
Proof.
  revert pos. induction labels as [| l t IH]; intros pos; simpl.
  - constructor.
  - destruct (l =? c); [| apply IH].
    constructor; [apply IH |].
    apply Forall_forall. intros z Hz.
    apply where_eq_from_in in Hz. lia.
Qed.

Lemma StronglySorted_firstn {X} (R : X -> X -> Prop) (k : nat) (l : list X) :
  StronglySorted R l -> StronglySorted R (firstn k l).
Proof.
  intros H. revert k. induction H as [| a l Hl IH Ha]; intros k.
  - rewrite firstn_nil. constructor.
  - destruct k as [| k]; simpl; constructor; [apply IH |].
    apply Forall_forall. intros z Hz. apply firstn_incl in Hz.
    rewrite Forall_forall in Ha. apply Ha. exact Hz.
Qed.

Lemma slice_to_sorted {X} (R : X -> X -> Prop) (e : Z) (l : list X) :
  StronglySorted R l -> StronglySorted R (slice_to e l).
Proof.
  intros H. unfold slice_to.
  destruct (e <? 0)%Z; apply StronglySorted_firstn; exact H.
Qed.

(** X8: every index in the pool [get_digit_indices] returns for class [c] is
    a position of [labels] that holds [c]; an index therefore belongs to the
    pool of one class only. *)
Theorem get_digit_indices_sound (K : nat) (labels : list nat) (e : Z)
    (c : nat) (pool : list nat) (z : nat) :
  c < K -> nth_error (get_digit_indices K labels e) c = Some pool ->
  In z pool ->
  z < length labels /\ nth_error labels z = Some c /\
  (forall c' pool',
      c' < K -> nth_error (get_digit_indices K labels e) c' = Some pool' ->
      In z pool' -> c' = c).
Proof.
  intros Hc Hp Hz.
  pose proof (get_digit_indices_entry K labels e c pool z Hc Hp Hz) as H.
  split; [apply nth_error_Some; congruence | split; [exact H |]].
  intros c' pool' Hc' Hp' Hz'.
  pose proof (get_digit_indices_entry K labels e c' pool' z Hc' Hp' Hz').
  congruence.
Qed.

Lemma get_digit_indices_sound_witness :
  3 < length uneven_labels /\ nth_error uneven_labels 3 = Some 1 /\
  (forall c' pool',
      c' < NUM_CLASSES ->
      nth_error (get_digit_indices NUM_CLASSES uneven_labels 3) c'
      = Some pool' ->
      In 3 pool' -> c' = 1).
Proof.
  apply (get_digit_indices_sound NUM_CLASSES uneven_labels 3 1 [3; 4] 3).
  - unfold NUM_CLASSES. lia.
  - reflexivity.
  - simpl. auto.
Defined.

(** X9: every pool lists its indices in strictly increasing order, so without
    repetition, whatever the bound [examples_per_class]. *)
Theorem get_digit_indices_increasing (K : nat) (labels : list nat) (e : Z)
    (c : nat) (pool : list nat) :
  nth_error (get_digit_indices K labels e) c = Some pool ->
  StronglySorted lt pool /\ NoDup pool.
Proof.
  intros Hp.
  assert (Hs : StronglySorted lt pool).
  { unfold get_digit_indices in Hp. rewrite !nth_error_map in Hp.
    destruct (nth_error (range 0 K) c) as [d |]; [| discriminate].
    simpl in Hp. inversion Hp; subst.
    apply slice_to_sorted. apply where_eq_from_sorted. }
  split; [exact Hs |].
  clear Hp. induction Hs as [| a l Hl IH Ha]; constructor; [| exact IH].
  intros Hin. rewrite Forall_forall in Ha. apply Ha in Hin. lia.
Qed.

Lemma get_digit_indices_increasing_witness :
  StronglySorted lt [0; 1; 2] /\ NoDup [0; 1; 2].
Proof.
  apply (get_digit_indices_increasing NUM_CLASSES uneven_labels 3 0).
  reflexivity.
Defined.

(** X10: when [examples_per_class] is at least the number of examples of
    class [c], the pool of [c] holds every position of [labels] that holds
    [c], and nothing else. *)
Theorem get_digit_indices_complete (K : nat) (labels : list nat) (e : Z)
    (c : nat) (pool : list nat) (z : nat) :
  c < K -> (0 <= e)%Z -> count_occ Nat.eq_dec labels c <= Z.to_nat e ->
  nth_error (get_digit_indices K labels e) c = Some pool ->
  (In z pool <-> nth_error labels z = Some c).
Proof.
  intros Hc He Hcount Hp. split.
  - intros Hz. exact (get_digit_indices_entry K labels e c pool z Hc Hp Hz).
  - intros Hz. rewrite (get_digit_indices_nth K labels e c Hc) in Hp.
    inversion Hp; subst. unfold slice_to.
    destruct (Z.ltb_spec e 0); [lia |].
    rewrite firstn_all2
      by (unfold where_eq; rewrite where_eq_from_length; exact Hcount).
    exact (where_eq_from_complete 0 labels c z Hz).
Qed.

Lemma get_digit_indices_complete_witness :
  In 2 [0; 1; 2] <-> nth_error uneven_labels 2 = Some 0.
Proof.
  apply (get_digit_indices_complete NUM_CLASSES uneven_labels 3 0 [0; 1; 2] 2).
  - unfold NUM_CLASSES. lia.
  - lia.
  - vm_compute. lia.
  - reflexivity.
Defined.

(** ** The loss and the two accuracies: ranges *)

Lemma contrastive_loss_entrywise (y_true y_pred : list Q) :
  length y_true = length y_pred ->
  contrastive_loss y_true y_pred
  = Ok (np_mean (zip_with pair_loss y_true y_pred)).
Proof.
  intros H. unfold contrastive_loss.
  rewrite elementwise_same_shape by (rewrite length_map; exact H).
  cbn [obind].
  rewrite elementwise_same_shape by (rewrite !length_map; exact H).
  cbn [obind].
  rewrite elementwise_same_shape
    by (rewrite !zip_with_length; rewrite ?length_map; auto).
  cbn [obind]. rewrite loss_entries by exact H. reflexivity.
Qed.

Lemma pair_loss_nonneg (t p : Q) : (0 <= t <= 1)%Q -> (0 <= pair_loss t p)%Q.
Proof.
  intros [H0 H1]. unfold pair_loss.
  setoid_replace 0%Q with (0 + 0)%Q by ring.
  apply Qplus_le_compat.
  - apply Qmult_le_0_compat; [exact H0 | apply Qsqr_nonneg].
  - apply Qmult_le_0_compat; [| apply Qsqr_nonneg].
    unfold Qminus. apply Qle_minus_iff in H1. exact H1.
Qed.

Lemma Qsum_nonneg (l : list Q) :
  Forall (fun q => 0 <= q)%Q l -> (0 <= Qsum l)%Q.
Proof.
  induction 1 as [| q l Hq _ IH]; [apply Qle_refl |].
  change (Qsum (q :: l)) with (q + Qsum l)%Q.
  setoid_replace 0%Q with (0 + 0)%Q by ring.
  apply Qplus_le_compat; assumption.
Qed.

Lemma Qsum_zero (l : list Q) :
  Forall (fun q => q == 0)%Q l -> (Qsum l == 0)%Q.
Proof.
  induction 1 as [| q l Hq _ IH]; [reflexivity |].
  change (Qsum (q :: l)) with (q + Qsum l)%Q. rewrite Hq, IH. ring.
Qed.

Lemma zip_with_Forall {X Y Z} (f : X -> Y -> Z) (R : X -> Y -> Prop)
    (P : Z -> Prop) xs ys :
  (forall a b, R a b -> P (f a b)) ->
  Forall2 R xs ys -> Forall P (zip_with f xs ys).
Proof.
  intros HP H. induction H as [| a b xs ys Hab _ IH]; simpl; constructor;
    auto.
Qed.

Lemma Forall2_left {X Y} (P : X -> Prop) (xs : list X) (ys : list Y) :
  length xs = length ys -> Forall P xs -> Forall2 (fun a _ => P a) xs ys.
Proof.
  intros Hlen H. revert ys Hlen.
  induction H as [| a xs Ha _ IH]; intros [| b ys] Hlen; simpl in Hlen;
    try discriminate; constructor; auto.
Qed.

(** X11: for labels between 0 and 1 (in particular the labels 0 and 1) and
    a non-empty batch, the contrastive loss is a finite number that is not
    negative. *)
Theorem contrastive_loss_nonnegative (y_true y_pred : list Q) :
  length y_true = length y_pred -> y_true <> [] ->
  Forall (fun t => 0 <= t <= 1)%Q y_true ->
  exists q, contrastive_loss y_true y_pred = Ok (Finite q) /\ (0 <= q)%Q.
Proof.
  intros Hlen Hne Hlab.
  rewrite contrastive_loss_entrywise by exact Hlen.
  assert (Hall : Forall (fun q => 0 <= q)%Q (zip_with pair_loss y_true y_pred)).
  { apply (zip_with_Forall _ (fun t _ => (0 <= t <= 1)%Q)).
    - intros t p Ht. apply pair_loss_nonneg. exact Ht.
    - apply Forall2_left; assumption. }
  pose proof (zip_with_nonempty pair_loss y_true y_pred Hlen Hne) as Hne'.
  destruct (zip_with pair_loss y_true y_pred) as [| a t] eqn:E;
    [contradiction |].
  eexists. split; [reflexivity |].
  apply Qle_shift_div_l; [apply inject_pos |].
  rewrite Qmult_0_l. apply Qsum_nonneg. exact Hall.
Qed.

Lemma contrastive_loss_nonnegative_witness :
  exists q,
    contrastive_loss [1; 0]%Q [1 # 2; 1 # 4]%Q = Ok (Finite q) /\ (0 <= q)%Q.
Proof.
  apply (contrastive_loss_nonnegative [1; 0]%Q [1 # 2; 1 # 4]%Q).
  - reflexivity.
  - discriminate.
  - repeat constructor; discriminate.
Defined.

(** X12: the loss vanishes on a separated batch: when every pair labeled 1
    has score 0 and every pair labeled 0 has a score of at least the margin
    1, the contrastive loss is 0. *)
Theorem contrastive_loss_zero_when_separated (y_true y_pred : list Q) :
  y_true <> [] ->
  Forall2 (fun t p => (t == 1 /\ p == 0) \/ (t == 0 /\ 1 <= p))%Q
          y_true y_pred ->
  exists q, contrastive_loss y_true y_pred = Ok (Finite q) /\ (q == 0)%Q.
Proof.
  intros Hne Hsep.
  pose proof (Forall2_length Hsep) as Hlen.
  rewrite contrastive_loss_entrywise by exact Hlen.
  assert (Hall : Forall (fun q => q == 0)%Q (zip_with pair_loss y_true y_pred)).
  { clear Hne Hlen. induction Hsep as [| t p ts ps Htp _ IH]; simpl;
      constructor; [| exact IH].
    unfold pair_loss. destruct Htp as [[Ht Hp] | [Ht Hp]].
    - rewrite Ht, Hp. ring.
    - rewrite Ht. rewrite (Q.max_r (1 - p) 0).
      + ring.
      + unfold Qminus. apply Qle_minus_iff in Hp.
        setoid_replace (1 + - p)%Q with (- (p + - (1)))%Q by ring.
        setoid_replace 0%Q with (- 0)%Q by ring.
        apply Qopp_le_compat. exact Hp. }
  pose proof (zip_with_nonempty pair_loss y_true y_pred Hlen Hne) as Hne'.
  destruct (zip_with pair_loss y_true y_pred) as [| a t] eqn:E;
    [contradiction |].
  eexists. split; [reflexivity |].
  rewrite (Qsum_zero _ Hall). unfold Qdiv. ring.
Qed.

Lemma contrastive_loss_zero_when_separated_witness :
  exists q,
    contrastive_loss [1; 0; 0]%Q [0; 1; 3 # 2]%Q = Ok (Finite q) /\
    (q == 0)%Q.
Proof.
  apply (contrastive_loss_zero_when_separated [1; 0; 0]%Q [0; 1; 3 # 2]%Q).
  - discriminate.
  - apply Forall2_cons; [left; split; reflexivity |].
    apply Forall2_cons; [right; split; [reflexivity | discriminate] |].
    apply Forall2_cons; [right; split; [reflexivity | discriminate] |].
    apply Forall2_nil.
Defined.

Lemma hits_bound (flags : list bool) : hits flags <= length flags.
Proof. unfold hits. apply filter_length_le. Qed.

Lemma fraction_range (h n : nat) :
  h <= n -> n <> 0 -> (0 <= fraction h n <= 1)%Q.
Proof.
  intros Hle Hn. unfold fraction.
  destruct n as [| n]; [contradiction |]. split.
  - apply Qle_shift_div_l; [apply inject_pos |].
    rewrite Qmult_0_l. change 0%Q with (inject_Z 0).
    rewrite <- Zle_Qle. lia.
  - apply Qle_shift_div_r; [apply inject_pos |].
    rewrite Qmult_1_l. rewrite <- Zle_Qle. lia.
Qed.

(** X13: on non-empty arrays of one length, [compute_accuracy] returns a
    finite number between 0 and 1. *)
Theorem compute_accuracy_range (y_true : list Z) (y_pred : list (list Q)) :
  length (ravel y_pred) = length y_true -> y_true <> [] ->
  exists q,
    compute_accuracy y_true y_pred = Ok (Finite q) /\ (0 <= q <= 1)%Q.
Proof.
  intros Hlen Hne.
  destruct (np_mean_flags (zip_with agrees y_true (ravel y_pred)))
    as (q & Hq & Hfr).
  { apply zip_with_nonempty; [symmetry; exact Hlen | exact Hne]. }
  exists q. split.
  - rewrite compute_accuracy_flags by exact Hlen. now rewrite Hq.
  - rewrite Hfr. apply fraction_range; [apply hits_bound |].
    rewrite zip_with_length by (symmetry; exact Hlen).
    destruct y_true; [contradiction | discriminate].
Qed.

Lemma compute_accuracy_range_witness :
  exists q,
    compute_accuracy [1; 0; 1]%Z [[1 # 4]; [3 # 4]; [3 # 4]]%Q
    = Ok (Finite q) /\ (0 <= q <= 1)%Q.
Proof.
  apply (compute_accuracy_range [1; 0; 1]%Z [[1 # 4]; [3 # 4]; [3 # 4]]%Q).
  - reflexivity.
  - discriminate.
Defined.

Lemma Qeq_bool_inject (a b : Z) :
  Qeq_bool (inject_Z a) (inject_Z b) = (a =? b)%Z.
Proof.
  destruct (Z.eqb_spec a b) as [-> | Hne].
  - apply Qeq_bool_refl.
  - destruct (Qeq_bool (inject_Z a) (inject_Z b)) eqn:E; [| reflexivity].
    apply Qeq_bool_iff in E. unfold Qeq in E. simpl in E. lia.
Qed.

Lemma agrees_float_inject (y : Z) (s : Q) :
  agrees_float (inject_Z y) s = agrees y s.
Proof.
  unfold agrees_float, agrees.
  replace (b2q (Qltb s (1 # 2))) with (inject_Z (Z.b2z (Qltb s (1 # 2))))
    by (destruct (Qltb s (1 # 2)); reflexivity).
  rewrite Qeq_bool_inject. apply Z.eqb_sym.
Qed.

Lemma acc_mean_of_hits (y_true y_pred : list Q) :
  acc y_true y_pred
  = (hits <~ acc_hits y_true y_pred ;; Ok (np_mean (map b2q hits))).
Proof. reflexivity. Qed.

Lemma compute_accuracy_mean_of_hits (y_true : list Z)
    (y_pred : list (list Q)) :
  compute_accuracy y_true y_pred
  = (hits <~ compute_accuracy_hits y_true y_pred ;;
     Ok (np_mean (map b2q hits))).
Proof. reflexivity. Qed.

(** X14: the training metric and the evaluation accuracy count the same
    pairs: on integer labels and scores of one length, the Boolean tensor
    [acc] averages (labels as floats, the comparison cast to float) and the
    Boolean array [compute_accuracy] averages (a Boolean compared with an
    integer label, one-column prediction array) are the same array, whose
    entry for a pair says whether [score < 0.5] equals the label.  Each
    function then takes the mean in its own float precision. *)
Theorem acc_counts_the_same_pairs (y_true : list Z) (y_pred : list Q) :
  length y_true = length y_pred ->
  acc_hits (map inject_Z y_true) y_pred
  = Ok (zip_with agrees y_true y_pred) /\
  compute_accuracy_hits y_true (map (fun p => [p]) y_pred)
  = Ok (zip_with agrees y_true y_pred) /\
  length (zip_with agrees y_true y_pred) = length y_pred.
Proof.
  intros Hlen. split; [| split].
  - unfold acc_hits.
    rewrite elementwise_same_shape by (rewrite !length_map; exact Hlen).
    f_equal. clear Hlen. revert y_pred.
    induction y_true as [| y ys IH]; intros [| p ps]; simpl; try reflexivity.
    f_equal; [| apply IH].
    apply (agrees_float_inject y p).
  - unfold compute_accuracy_hits. rewrite ravel_rows.
    rewrite elementwise_same_shape
      by (rewrite length_map; symmetry; exact Hlen).
    f_equal. clear Hlen. revert y_pred.
    induction y_true as [| y ys IH]; intros [| p ps]; simpl; try reflexivity.
    f_equal. apply IH.
  - rewrite zip_with_length by exact Hlen. exact Hlen.
Qed.

Lemma acc_counts_the_same_pairs_witness :
  acc_hits (map inject_Z [1; 0; 1]%Z) [1 # 4; 1 # 2; 3 # 4]%Q
  = Ok (zip_with agrees [1; 0; 1]%Z [1 # 4; 1 # 2; 3 # 4]%Q) /\
  compute_accuracy_hits [1; 0; 1]%Z
    (map (fun p => [p]) [1 # 4; 1 # 2; 3 # 4]%Q)
  = Ok (zip_with agrees [1; 0; 1]%Z [1 # 4; 1 # 2; 3 # 4]%Q) /\
  length (zip_with agrees [1; 0; 1]%Z [1 # 4; 1 # 2; 3 # 4]%Q)
  = length [1 # 4; 1 # 2; 3 # 4]%Q.
Proof.
  apply (acc_counts_the_same_pairs [1; 0; 1]%Z [1 # 4; 1 # 2; 3 # 4]%Q).
  reflexivity.
Defined.

(** ** The L1 distance of the dense head *)

Lemma l1_entries (x y : list Q) :
  length x = length y ->
  l1_distance_vector x y
  = Ok (zip_with (fun a b => Qmax (Qabs (a - b)) epsilon) x y).
Proof.
  intros H. unfold l1_distance_vector.
  rewrite elementwise_same_shape by exact H. cbn [obind]. f_equal.
  clear H. revert y. induction x as [| a x IH]; intros [| b y]; simpl;
    try reflexivity.
  f_equal. apply IH.
Qed.

(** X15: on two embeddings of one shape, [l1_distance_vector] returns a
    vector of that shape whose entries are all at least the backend's
    epsilon, hence positive; it does not depend on the order of its two
    arguments; and on two equal embeddings every entry is epsilon, not 0. *)
Theorem l1_distance_vector_properties (x y : list Q) :
  length x = length y ->
  exists v,
    l1_distance_vector x y = Ok v /\
    l1_distance_vector y x = Ok v /\
    length v = length x /\
    Forall (fun a => epsilon <= a /\ 0 < a)%Q v /\
    (x = y -> Forall (fun a => a == epsilon)%Q v).
Proof.
  intros Hlen.
  exists (zip_with (fun a b => Qmax (Qabs (a - b)) epsilon) x y).
  split; [apply l1_entries; exact Hlen |].
  split; [| split; [apply zip_with_length; exact Hlen | split]].
  - rewrite l1_entries by (symmetry; exact Hlen). f_equal.
    clear Hlen. revert y.
    induction x as [| a x IH]; intros [| b y]; cbn [zip_with];
      try reflexivity.
    rewrite (Qabs_Qminus b a), IH. reflexivity.
  - clear Hlen. revert y.
    induction x as [| a x IH]; intros [| b y]; cbn [zip_with];
      constructor; try apply IH.
    assert (H : (epsilon <= Qmax (Qabs (a - b)) epsilon)%Q)
      by apply Q.le_max_r.
    split; [exact H |].
    apply (Qlt_le_trans _ epsilon); [reflexivity | exact H].
  - intros <-. clear Hlen.
    induction x as [| a x IH]; cbn [zip_with]; constructor; [| exact IH].
    apply Q.max_r.
    setoid_replace (a - a)%Q with 0%Q by ring. discriminate.
Qed.

Lemma l1_distance_vector_properties_witness :
  exists v,
    l1_distance_vector [1; 2; 3]%Q [1; 4; 1 # 2]%Q = Ok v /\
    l1_distance_vector [1; 4; 1 # 2]%Q [1; 2; 3]%Q = Ok v /\
    length v = length [1; 2; 3]%Q /\
    Forall (fun a => epsilon <= a /\ 0 < a)%Q v /\
    ([1; 2; 3]%Q = [1; 4; 1 # 2]%Q -> Forall (fun a => a == epsilon)%Q v).
Proof.
  apply (l1_distance_vector_properties [1; 2; 3]%Q [1; 4; 1 # 2]%Q).
  reflexivity.
Defined.

(** ** The classifier: empty reference sets, nearest neighbour, the marker *)

(** X16: when some class has at most one pool entry, the classifier has no
    reference pair to score ([n = 0]) and [classify_query] raises
    [IndexError] on the empty pair array instead of predicting from the
    initial values. *)
Theorem classify_query_without_references (K : nat) (A : Type)
    (median32 mean32 : list Q -> np_float)
    (predict : list A -> list A -> list Q) (model : string)
    (x_train : list A) (pools : list (list nat)) (test_img : A) (m : nat) :
  min_pool_len K pools = Ok m -> m <= 1 ->
  classify_query K median32 mean32 predict model x_train pools test_img
  = Raise IndexError.
Proof.
  intros Hm Hle.
  destruct (min_pool_len_ok K pools m Hm) as (_ & d & _ & Hd & _).
  unfold classify_query. rewrite Hm. cbn [obind].
  replace (m - 1) with 0 by lia.
  unfold range. rewrite Nat.sub_0_r.
  destruct K as [| K]; [lia |]. reflexivity.
Qed.

Lemma classify_query_without_references_witness :
  classify_query NUM_CLASSES np_median np_mean table_predict "simple_head"
    even_labels
    (get_digit_indices NUM_CLASSES even_labels 1) 0
  = Raise IndexError.
Proof.
  apply (classify_query_without_references NUM_CLASSES nat np_median np_mean
           table_predict
           "simple_head" even_labels
           (get_digit_indices NUM_CLASSES even_labels 1) 0 1).
  - reflexivity.
  - lia.
Defined.

Lemma fold_Qmin_le (t : list Q) (a : Q) :
  forall s, In s (a :: t) -> (fold_left Qmin t a <= s)%Q.
Proof.
  revert a. induction t as [| b t IH]; intros a s Hs; simpl.
  - destruct Hs as [-> | []]. apply Qle_refl.
  - destruct Hs as [-> | [-> | Hs]].
    + apply (Qle_trans _ (Qmin s b)); [| apply Q.le_min_l].
      apply IH. now left.
    + apply (Qle_trans _ (Qmin a s)); [| apply Q.le_min_r].
      apply IH. now left.
    + apply IH. now right.
Qed.

Lemma min_of_spec (scores : list Q) (v : Q) :
  min_of scores = Finite v ->
  In v scores /\ forall s, In s scores -> (v <= s)%Q.
Proof.
  destruct scores as [| a t]; [discriminate |].
  unfold min_of. simpl. intros H. inversion H; subst.
  split; [apply fold_Qmin_in | apply fold_Qmin_le].
Qed.

(** X17: under the distance head the MIN policy is a nearest-neighbour rule:
    the predicted class holds a reference score that no reference score of
    any class undercuts. *)
Theorem min_policy_is_nearest_neighbour (K : nat) (A : Type)
    (median32 mean32 : list Q -> np_float)
    (predict : list A -> list A -> list Q) (x_train : list A)
    (pools : list (list nat)) (test_img : A) (L : nat) (lmedian lmean : Z) :
  classify_query K median32 mean32 predict "simple_head" x_train pools test_img
  = Ok (Z.of_nat L, lmedian, lmean) ->
  exists m nearest scores_L,
    min_pool_len K pools = Ok m /\ L < K /\
    class_scores predict x_train pools test_img (m - 1) L = Ok scores_L /\
    In nearest scores_L /\
    forall d scores s,
      d < K ->
      class_scores predict x_train pools test_img (m - 1) d = Ok scores ->
      In s scores -> (nearest <= s)%Q.
Proof.
  intros H. apply classify_query_scans in H.
  destruct H as (m & scores & Hm & HF & Hmin & _ & _).
  symmetry in Hmin. apply scan_winner in Hmin.
  destruct Hmin as (v & HL & _ & _ & _ & Hnone).
  rewrite nth_error_map in HL.
  destruct (nth_error scores L) as [sL |] eqn:EL; [| discriminate].
  simpl in HL. inversion HL as [HvL]. clear HL.
  destruct (min_of_spec sL v HvL) as [Hin _].
  destruct (Forall2_nth_right _ _ _ L sL HF EL) as (d' & Hd' & HsL & _).
  apply range_nth_inv in Hd'. destruct Hd' as [-> HLK].
  exists m, v, sL. repeat split; auto.
  intros d sd s Hd Hsd Hs.
  destruct (Forall2_nth_left _ _ _ d d HF (range_nth K d Hd))
    as (sd' & Hnth & Hsd' & Hne).
  assert (sd' = sd) by congruence. subst sd'.
  destruct (min_of sd) as [u |] eqn:Eu.
  - destruct (min_of_spec sd u Eu) as [_ Hu].
    assert (Hagg : nth_error (map min_of scores) d = Some (Finite u))
      by (rewrite nth_error_map, Hnth; simpl; congruence).
    specialize (Hnone d u Hagg). unfold beats in Hnone. simpl in Hnone.
    apply Qnot_lt_le in Hnone.
    apply (Qle_trans _ u); [exact Hnone | apply Hu; exact Hs].
  - exfalso. destruct sd; [contradiction | discriminate].
Qed.

Lemma min_policy_is_nearest_neighbour_witness :
  exists m nearest scores_L,
    min_pool_len 3 (get_digit_indices 3 three_class_labels 3) = Ok m /\
    0 < 3 /\
    class_scores table_predict three_class_images
      (get_digit_indices 3 three_class_labels 3) 9 (m - 1) 0 = Ok scores_L /\
    In nearest scores_L /\
    forall d scores s,
      d < 3 ->
      class_scores table_predict three_class_images
        (get_digit_indices 3 three_class_labels 3) 9 (m - 1) d = Ok scores ->
      In s scores -> (nearest <= s)%Q.
Proof.
  apply (min_policy_is_nearest_neighbour 3 nat np_median np_mean table_predict
           three_class_images (get_digit_indices 3 three_class_labels 3) 9
           0 1 1).
  reflexivity.
Defined.

Lemma scan_marker (model : string) (aggs : list np_float) :
  (best_label (scan model aggs) = (-1)%Z <->
   forall v, In (Finite v) aggs -> ~ beats model v (initial_value model)) /\
  (-1 <= best_label (scan model aggs) < Z.of_nat (length aggs))%Z.
Proof.
  unfold scan.
  destruct (scan_from_spec model aggs 0 (MkBest (initial_value model) (-1)))
    as [[Hs Hnone] | (i & v & Hi & Hs & Hv & _)]; rewrite Hs; simpl.
  - split; [split; auto | lia].
  - assert (i < length aggs) by (apply nth_error_Some; congruence).
    split; [split | lia].
    + lia.
    + intros Hnone. exfalso. apply (Hnone v); [| exact Hv].
      eapply nth_error_In. exact Hi.
Qed.

(** X18: each label [classify_query] returns is the marker -1 or a class in
    [0, K-1], and it is -1 exactly when no class aggregate of that policy,
    as the loop compares it (the minimum, and the float32 median and mean
    the library returns), beats the initial value (999 or -999): the marker
    is never a tie-break result. *)
Theorem classify_query_marker (K : nat) (A : Type)
    (median32 mean32 : list Q -> np_float)
    (predict : list A -> list A -> list Q) (model : string)
    (x_train : list A) (pools : list (list nat)) (test_img : A)
    (lmin lmedian lmean : Z) :
  classify_query K median32 mean32 predict model x_train pools test_img
  = Ok (lmin, lmedian, lmean) ->
  exists m scores,
    min_pool_len K pools = Ok m /\
    Forall2 (fun d s =>
               class_scores predict x_train pools test_img (m - 1) d = Ok s)
            (range 0 K) scores /\
    (-1 <= lmin < Z.of_nat K)%Z /\
    (-1 <= lmedian < Z.of_nat K)%Z /\
    (-1 <= lmean < Z.of_nat K)%Z /\
    (lmin = (-1)%Z <->
     forall v, In (Finite v) (map min_of scores) ->
               ~ beats model v (initial_value model)) /\
    (lmedian = (-1)%Z <->
     forall v, In (Finite v) (map median32 scores) ->
               ~ beats model v (initial_value model)) /\
    (lmean = (-1)%Z <->
     forall v, In (Finite v) (map mean32 scores) ->
               ~ beats model v (initial_value model)).
Proof.
  intros H. apply classify_query_scans in H.
  destruct H as (m & scores & Hm & HF & -> & -> & ->).
  assert (HK : length scores = K).
  { apply Forall2_length in HF. unfold range in HF.
    rewrite length_seq in HF. lia. }
  exists m, scores. split; [exact Hm | split].
  - clear HK. induction HF as [| d s ds ss [Hs _] _ IH]; constructor; auto.
  - destruct (scan_marker model (map min_of scores)) as [I1 R1].
    destruct (scan_marker model (map median32 scores)) as [I2 R2].
    destruct (scan_marker model (map mean32 scores)) as [I3 R3].
    rewrite length_map, HK in R1, R2, R3. tauto.
Qed.

Lemma classify_query_marker_witness :
  exists m scores,
    min_pool_len 3 (get_digit_indices 3 three_class_labels 3) = Ok m /\
    Forall2 (fun d s =>
               class_scores table_predict three_class_images
                 (get_digit_indices 3 three_class_labels 3) 9 (m - 1) d
               = Ok s)
            (range 0 3) scores /\
    (-1 <= 0 < Z.of_nat 3)%Z /\
    (-1 <= 1 < Z.of_nat 3)%Z /\
    (-1 <= 1 < Z.of_nat 3)%Z /\
    (0%Z = (-1)%Z <->
     forall v, In (Finite v) (map min_of scores) ->
               ~ beats "simple_head" v (initial_value "simple_head")) /\
    (1%Z = (-1)%Z <->
     forall v, In (Finite v) (map np_median scores) ->
               ~ beats "simple_head" v (initial_value "simple_head")) /\
    (1%Z = (-1)%Z <->
     forall v, In (Finite v) (map np_mean scores) ->
               ~ beats "simple_head" v (initial_value "simple_head")).
Proof.
  apply (classify_query_marker 3 nat np_median np_mean table_predict
           "simple_head"
           three_class_images (get_digit_indices 3 three_class_labels 3) 9
           0 1 1).
  reflexivity.
Defined.

(** ** The loop over the test set *)

Lemma skipn_cons_nth {X} (l : list X) (t : nat) (y : X) :
  nth_error l t = Some y -> skipn t l = y :: skipn (S t) l.
Proof.
  revert t. induction l as [| a l IH]; intros [| t] H; simpl in H;
    try discriminate.
  - inversion H. reflexivity.
  - apply IH in H. exact H.
Qed.

Lemma correct_bound (ys : list nat) (predicted : list Z) :
  correct ys predicted <= length predicted.
Proof.
  revert predicted. induction ys as [| y ys IH]; intros [| l ls]; simpl;
    try lia.
  specialize (IH ls). destruct (Z.of_nat y =? l)%Z; lia.
Qed.

Section TestLoop.

Variable K : nat.
Variable A : Type.
Variable median32 mean32 : list Q -> np_float.
Variable predict : list A -> list A -> list Q.
Variable model : string.
Variable x_train : list A.
Variable pools : list (list nat).
Variable x_test : list A.
Variable y_test : list nat.

Let body (counters : nat * nat * nat) (t : nat) : outcome (nat * nat * nat) :=
  let '(cmin, cmedian, cmean) := counters in
  test_img <~ getitem x_test t ;;
  test_img_label <~ getitem y_test t ;;
  labels <~ classify_query K median32 mean32 predict model x_train pools
                           test_img ;;
  let '(lmin, lmedian, lmean) := labels in
  let hit (l : Z) (c : nat) :=
    if (Z.of_nat test_img_label =? l)%Z then S c else c in
  Ok (hit lmin cmin, hit lmedian cmedian, hit lmean cmean).

Lemma test_loop_counts (xs : list A) :
  forall t0 a b c a' b' c',
    (forall i, nth_error xs i = nth_error x_test (t0 + i)) ->
    foldO body (seq t0 (length xs)) (a, b, c) = Ok (a', b', c') ->
    exists predicted,
      Forall2 (fun img p =>
                 classify_query K median32 mean32 predict model x_train
                                pools img = Ok p)
              xs predicted /\
      length xs <= length (skipn t0 y_test) /\
      a' = a + correct (skipn t0 y_test)
                       (map (fun p => fst (fst p)) predicted) /\
      b' = b + correct (skipn t0 y_test)
                       (map (fun p => snd (fst p)) predicted) /\
      c' = c + correct (skipn t0 y_test) (map snd predicted).
Proof.
  induction xs as [| img xs IH]; intros t0 a b c a' b' c' Hxs H.
  - simpl in H. inversion H; subst. exists []. simpl.
    repeat split; try constructor; try lia.
    all: destruct (skipn t0 y_test); simpl; lia.
  - cbn [length seq foldO] in H.
    apply obind_ok in H. destruct H as ([[a1 b1] c1] & Hstep & H).
    unfold body in Hstep.
    apply obind_ok in Hstep. destruct Hstep as (img' & Himg & Hstep).
    apply obind_ok in Hstep. destruct Hstep as (y & Hy & Hstep).
    apply obind_ok in Hstep. destruct Hstep as ([[l1 l2] l3] & Hq & Hstep).
    inversion Hstep; subst a1 b1 c1; clear Hstep.
    apply getitem_ok in Himg, Hy.
    assert (img' = img).
    { specialize (Hxs 0). simpl in Hxs. rewrite Nat.add_0_r in Hxs.
      congruence. }
    subst img'.
    apply IH in H.
    2:{ intros i. specialize (Hxs (S i)). simpl in Hxs.
        rewrite Hxs. f_equal. lia. }
    destruct H as (predicted & HF & Hlen & Ha & Hb & Hc).
    exists ((l1, l2, l3) :: predicted).
    rewrite (skipn_cons_nth y_test t0 y Hy).
    split; [constructor; assumption |].
    cbn [length map correct fst snd].
    split; [lia |].
    rewrite Ha, Hb, Hc.
    destruct (Z.of_nat y =? l1)%Z, (Z.of_nat y =? l2)%Z,
             (Z.of_nat y =? l3)%Z; repeat split; lia.
Qed.

End TestLoop.

(** X19: when the loop over the test set completes, every query was
    classified, there is a label for every query, and each of the three
    counters is the number of queries whose label equals the prediction of
    that policy, at most the number of queries. *)
Theorem classify_counters (K : nat) (A : Type)
    (median32 mean32 : list Q -> np_float)
    (predict : list A -> list A -> list Q) (model : string)
    (x_train : list A) (pools : list (list nat)) (x_test : list A)
    (y_test : list nat) (cmin cmedian cmean : nat) :
  classify K median32 mean32 predict model x_train pools x_test y_test
  = Ok (cmin, cmedian, cmean) ->
  exists predicted,
    Forall2 (fun img p =>
               classify_query K median32 mean32 predict model x_train
                              pools img = Ok p)
            x_test predicted /\
    length x_test <= length y_test /\
    cmin = correct y_test (map (fun p => fst (fst p)) predicted) /\
    cmedian = correct y_test (map (fun p => snd (fst p)) predicted) /\
    cmean = correct y_test (map snd predicted) /\
    cmin <= length x_test /\ cmedian <= length x_test /\
    cmean <= length x_test.
Proof.
  unfold classify, range. rewrite Nat.sub_0_r. intros H.
  apply (test_loop_counts K A median32 mean32 predict model x_train pools
           x_test y_test
           x_test 0 0 0 0) in H; [| reflexivity].
  destruct H as (predicted & HF & Hlen & Ha & Hb & Hc).
  simpl in Hlen, Ha, Hb, Hc.
  exists predicted. repeat split; auto.
  all: subst; rewrite (Forall2_length HF).
  - rewrite <- (length_map (fun p => fst (fst p)) predicted).
    apply correct_bound.
  - rewrite <- (length_map (fun p => snd (fst p)) predicted).
    apply correct_bound.
  - rewrite <- (length_map snd predicted). apply correct_bound.
Qed.

Lemma classify_counters_witness :
  exists predicted,
    Forall2 (fun img p =>
               classify_query 3 np_median np_mean table_predict "simple_head"
                 three_class_images
                 (get_digit_indices 3 three_class_labels 3) img = Ok p)
            [9; 10] predicted /\
    length [9; 10] <= length [0; 1] /\
    1 = correct [0; 1] (map (fun p => fst (fst p)) predicted) /\
    1 = correct [0; 1] (map (fun p => snd (fst p)) predicted) /\
    1 = correct [0; 1] (map snd predicted) /\
    1 <= length [9; 10] /\ 1 <= length [9; 10] /\ 1 <= length [9; 10].
Proof.
  apply (classify_counters 3 nat np_median np_mean table_predict "simple_head"
           three_class_images (get_digit_indices 3 three_class_labels 3)
           [9; 10] [0; 1] 1 1 1).
  vm_compute. reflexivity.
Defined.

(** ** [main] up to the end of training *)

Lemma main_after_setup (K : nat) (A : Type) (args : arguments)
    (data : dataset A) (w : world) :
  main K args data w
  = bind (create_pairs K (x_train data)
            (get_digit_indices K (y_train data) (examples_per_class args)))
      (fun tr =>
        bind (create_pairs K (x_test data)
                (get_digit_indices K (y_test data) (examples_per_class args)))
          (fun te =>
            bind (if (model args =? "simple_head")%string
                  then create_simple_siamese_model (base_network args)
                  else if (model args =? "dense_head")%string
                  then create_dense_siamese_model (base_network args)
                  else raise (Exception "Unknown model type."))
              (fun net =>
                bind (emit EvSummary) (fun _ =>
                  bind (if (min_epochs args =? 0)%Z then ret tt
                        else fit (fst tr) (fst te) (min_epochs args) 0)
                    (fun _ =>
                      bind (fit (fst tr) (fst te) (max_epochs args)
                                (min_epochs args))
                        (fun _ => ret net))))))
      (MkWorld (entropy w) 0 (trace w ++ [EvSeed SEED; EvLoadData])).
Proof.
  unfold main. unfold bind at 1 2. unfold seed, emit.
  cbn [entropy cursor trace]. rewrite <- app_assoc. reflexivity.
Qed.

Lemma select_known_model (m b : string) (w : world) :
  known_head m -> known_base b ->
  (if (m =? "simple_head")%string then create_simple_siamese_model b
   else if (m =? "dense_head")%string then create_dense_siamese_model b
   else raise (Exception "Unknown model type.")) w
  = (Ok (MkModel b (if (m =? "simple_head")%string
                    then "contrastive_loss" else "binary_crossentropy")),
     MkWorld (entropy w) (cursor w)
       (trace w ++ [EvBuildBase b;
                    EvCompile (if (m =? "simple_head")%string
                               then "contrastive_loss"
                               else "binary_crossentropy")])).
Proof.
  intros [-> | ->] [-> | [-> | ->]];
    cbv [String.eqb Ascii.eqb Bool.eqb create_simple_siamese_model
         create_dense_siamese_model create_base_nn_network
         create_base_cnn_network create_base_fcn_network bind emit ret];
    cbn [entropy cursor trace]; rewrite <- app_assoc; reflexivity.
Qed.

Lemma fit_on_pairs {A} (tr te : list (A * A)) (epochs initial : Z) (w : world) :
  tr <> [] -> te <> [] ->
  fit tr te epochs initial w
  = (Ok tt, MkWorld (entropy w) (cursor w) (trace w ++ [EvFit epochs initial])).
Proof.
  intros Htr Hte. destruct tr; [contradiction |]. destruct te; [contradiction |].
  reflexivity.
Qed.

Lemma fit_on_no_pairs {A} (te : list (A * A)) (epochs initial : Z) (w : world) :
  fit (@nil (A * A)) te epochs initial w = (Raise IndexError, w).
Proof. reflexivity. Qed.

Lemma choose2_pos (n : nat) : 2 <= n -> 1 <= choose2 n.
Proof.
  intros H. unfold choose2.
  apply (Nat.div_le_lower_bound _ 2 1); [lia | nia].
Qed.

(** X20: with recognized identifiers, at least two classes, a bound
    [examples_per_class >= 2] and that many examples of every class in the
    training and in the test labels, [main] gets through training: it builds
    the chosen base network once, compiles with the contrastive loss for the
    simple head and with binary cross-entropy for the dense head, and calls
    [fit] once, or twice when [min_epochs] is not 0, the pre-training call
    first. *)
Theorem main_reaches_training (K : nat) (A : Type) (args : arguments)
    (data : dataset A) (w : world) :
  known_head (model args) -> known_base (base_network args) ->
  2 <= K -> (2 <= examples_per_class args)%Z ->
  length (y_train data) <= length (x_train data) ->
  length (y_test data) <= length (x_test data) ->
  (forall c, c < K ->
     Z.to_nat (examples_per_class args)
     <= count_occ Nat.eq_dec (y_train data) c) ->
  (forall c, c < K ->
     Z.to_nat (examples_per_class args)
     <= count_occ Nat.eq_dec (y_test data) c) ->
  let loss := if (model args =? "simple_head")%string
              then "contrastive_loss"%string
              else "binary_crossentropy"%string in
  exists w',
    main K args data w = (Ok (MkModel (base_network args) loss), w') /\
    trace w'
    = trace w
      ++ [EvSeed SEED; EvLoadData; EvBuildBase (base_network args);
          EvCompile loss; EvSummary]
      ++ (if (min_epochs args =? 0)%Z then []
          else [EvFit (min_epochs args) 0])
      ++ [EvFit (max_epochs args) (min_epochs args)].
Proof.
  intros Hhead Hbase HK He Htr Hte Hctr Hcte loss.
  rewrite main_after_setup.
  set (ready := MkWorld (entropy w) 0 (trace w ++ [EvSeed SEED; EvLoadData])).
  assert (Hsize : 1 <= 2 * K * choose2 (Z.to_nat (examples_per_class args))).
  { pose proof (choose2_pos (Z.to_nat (examples_per_class args))
                            ltac:(lia)). nia. }
  destruct (create_pairs_full_pools K (x_train data) (y_train data)
              (examples_per_class args) ready HK ltac:(lia) Htr Hctr)
    as (trp & trl & w1 & Hrun1 & Hlen1).
  pose proof (silent_create_pairs K A (x_train data)
                (get_digit_indices K (y_train data) (examples_per_class args))
                ready) as S1.
  rewrite Hrun1 in S1. simpl in S1.
  destruct (create_pairs_full_pools K (x_test data) (y_test data)
              (examples_per_class args) w1 HK ltac:(lia) Hte Hcte)
    as (tep & tel & w2 & Hrun2 & Hlen2).
  pose proof (silent_create_pairs K A (x_test data)
                (get_digit_indices K (y_test data) (examples_per_class args))
                w1) as S2.
  rewrite Hrun2 in S2. simpl in S2.
  assert (Htrp : trp <> []) by (intros ->; simpl in Hlen1; lia).
  assert (Htep : tep <> []) by (intros ->; simpl in Hlen2; lia).
  unfold bind at 1. rewrite Hrun1.
  unfold bind at 1. rewrite Hrun2.
  unfold bind at 1. rewrite (select_known_model _ _ w2 Hhead Hbase).
  fold loss.
  unfold bind at 1. unfold emit at 1. cbn [entropy cursor trace fst].
  destruct (min_epochs args =? 0)%Z.
  - unfold bind at 1. unfold ret at 1.
    unfold bind at 1. rewrite (fit_on_pairs trp tep _ _ _ Htrp Htep).
    unfold ret. cbn [entropy cursor trace].
    eexists. split; [reflexivity |]. cbn [trace].
    rewrite S2, S1. rewrite <- !app_assoc. reflexivity.
  - unfold bind at 1. rewrite (fit_on_pairs trp tep _ _ _ Htrp Htep).
    unfold bind at 1. rewrite (fit_on_pairs trp tep _ _ _ Htrp Htep).
    unfold ret. cbn [entropy cursor trace].
    eexists. split; [reflexivity |]. cbn [trace].
    rewrite S2, S1. rewrite <- !app_assoc. reflexivity.
Qed.

Lemma main_reaches_training_witness :
  let args := MkArgs 3 500 16 2 "dense_head" "cnn" true in
  let data := MkData even_labels even_labels even_labels even_labels in
  let w := world_of zero_draws in
  let loss := if (model args =? "simple_head")%string
              then "contrastive_loss"%string
              else "binary_crossentropy"%string in
  exists w',
    main NUM_CLASSES args data w
    = (Ok (MkModel (base_network args) loss), w') /\
    trace w'
    = trace w
      ++ [EvSeed SEED; EvLoadData; EvBuildBase (base_network args);
          EvCompile loss; EvSummary]
      ++ (if (min_epochs args =? 0)%Z then []
          else [EvFit (min_epochs args) 0])
      ++ [EvFit (max_epochs args) (min_epochs args)].
Proof.
  apply (main_reaches_training NUM_CLASSES nat
           (MkArgs 3 500 16 2 "dense_head" "cnn" true)
           (MkData even_labels even_labels even_labels even_labels)
           (world_of zero_draws)).
  - right. reflexivity.
  - right. left. reflexivity.
  - unfold NUM_CLASSES. lia.
  - simpl. lia.
  - simpl. lia.
  - simpl. lia.
  - intros c Hc. unfold NUM_CLASSES in Hc.
    do 10 (destruct c as [| c]; [vm_compute; lia |]). lia.
  - intros c Hc. unfold NUM_CLASSES in Hc.
    do 10 (destruct c as [| c]; [vm_compute; lia |]). lia.
Defined.

(** X21: an empty training pair set is not trainable: with recognized
    identifiers, when some class has fewer than two training pool entries
    (for instance [examples_per_class = 1]) and the test pairs were built,
    [main] builds and compiles the model and then raises [IndexError] while
    slicing the empty pair array for [fit]; no [fit] call is made. *)
Theorem main_without_training_pairs (K : nat) (A : Type) (args : arguments)
    (data : dataset A) (w : world) (n : nat) (te : pair_acc A) (w2 : world) :
  known_head (model args) -> known_base (base_network args) ->
  min_pool_len K
    (get_digit_indices K (y_train data) (examples_per_class args)) = Ok n ->
  n < 2 ->
  create_pairs K (x_test data)
    (get_digit_indices K (y_test data) (examples_per_class args))
    (MkWorld (entropy w) 0 (trace w ++ [EvSeed SEED; EvLoadData]))
  = (Ok te, w2) ->
  let loss := if (model args =? "simple_head")%string
              then "contrastive_loss"%string
              else "binary_crossentropy"%string in
  exists w',
    main K args data w = (Raise IndexError, w') /\
    trace w'
    = trace w ++ [EvSeed SEED; EvLoadData; EvBuildBase (base_network args);
                  EvCompile loss; EvSummary].
Proof.
  intros Hhead Hbase Hn Hlt Hte loss.
  rewrite main_after_setup.
  set (ready := MkWorld (entropy w) 0 (trace w ++ [EvSeed SEED; EvLoadData]))
    in *.
  pose proof (silent_create_pairs K A (x_test data)
                (get_digit_indices K (y_test data) (examples_per_class args))
                ready) as S2.
  rewrite Hte in S2. simpl in S2.
  unfold bind at 1.
  rewrite (create_pairs_degenerate K A (x_train data) _ n ready Hn Hlt).
  unfold bind at 1. rewrite Hte.
  unfold bind at 1. rewrite (select_known_model _ _ w2 Hhead Hbase).
  fold loss.
  unfold bind at 1. unfold emit at 1. cbn [entropy cursor trace fst].
  destruct (min_epochs args =? 0)%Z.
  - unfold bind at 1. unfold ret at 1.
    unfold bind at 1. rewrite fit_on_no_pairs.
    eexists. split; [reflexivity |]. cbn [trace].
    rewrite S2. rewrite <- !app_assoc. reflexivity.
  - unfold bind at 1. rewrite fit_on_no_pairs.
    eexists. split; [reflexivity |]. cbn [trace].
    rewrite S2. rewrite <- !app_assoc. reflexivity.
Qed.

Lemma main_without_training_pairs_witness :
  let args := MkArgs 0 500 16 1 "simple_head" "nn" true in
  let data := MkData even_labels even_labels even_labels even_labels in
  let w := world_of zero_draws in
  let loss := if (model args =? "simple_head")%string
              then "contrastive_loss"%string
              else "binary_crossentropy"%string in
  exists w',
    main NUM_CLASSES args data w = (Raise IndexError, w') /\
    trace w'
    = trace w ++ [EvSeed SEED; EvLoadData; EvBuildBase (base_network args);
                  EvCompile loss; EvSummary].
Proof.
  apply (main_without_training_pairs NUM_CLASSES nat
           (MkArgs 0 500 16 1 "simple_head" "nn" true)
           (MkData even_labels even_labels even_labels even_labels)
           (world_of zero_draws) 1 ([], [])
           (MkWorld zero_draws 0 [EvSeed SEED; EvLoadData])).
  - left. reflexivity.
  - left. reflexivity.
  - reflexivity.
  - lia.
  - reflexivity.
Defined.

(** ** The listings of false positives and false negatives *)

Lemma setitem_ok {X} (l : list X) (k : nat) (v : X) :
  k < length l -> setitem l k v = Ok (firstn k l ++ v :: skipn (S k) l).
Proof.
  intros H. unfold setitem. apply Nat.ltb_lt in H. rewrite H. reflexivity.
Qed.

Lemma set_length {X} (l : list X) (k : nat) (v : X) :
  k < length l -> length (firstn k l ++ v :: skipn (S k) l) = length l.
Proof.
  intros H. rewrite length_app, length_firstn. cbn [length].
  rewrite length_skipn. lia.
Qed.

Lemma set_firstn {X} (l : list X) (k : nat) (v : X) :
  k < length l ->
  firstn (S k) (firstn k l ++ v :: skipn (S k) l) = firstn k l ++ [v].
Proof.
  intros H.
  assert (Hk : length (firstn k l) = k) by (rewrite length_firstn; lia).
  replace (S k) with (length (firstn k l) + 1) by lia.
  rewrite firstn_app_2. reflexivity.
Qed.

Lemma getitem_nth {X} (l : list X) (i : nat) (d : X) :
  i < length l -> getitem l i = Ok (nth i l d).
Proof.
  intros H. unfold getitem. rewrite (nth_error_nth' l d H). reflexivity.
Qed.

Lemma getitem_beyond {X} (l : list X) (i : nat) :
  length l <= i -> getitem l i = Raise IndexError.
Proof.
  intros H. unfold getitem.
  rewrite (proj2 (nth_error_None l i) H). reflexivity.
Qed.

Section Listing.

Variable A : Type.
Variable select : Q -> bool.
Variable wanted : Z.
Variable te_pairs : list (A * A).
Variable te_y : list Z.
Variable te_pred : list Q.

Hypothesis pairs_len : length te_pairs = length te_pred.
Hypothesis labels_len : length te_y = length te_pred.

Let looked_for (i : nat) : bool :=
  select (nth i te_pred 0%Q) && (nth i te_y 0%Z =? wanted)%Z.

Let rest (i : nat) : list nat :=
  filter looked_for (seq i (length te_pred - i)).

Lemma rest_beyond i : length te_pred <= i -> rest i = [].
Proof.
  intros H. unfold rest. replace (length te_pred - i) with 0 by lia.
  reflexivity.
Qed.

Lemma rest_step i :
  i < length te_pred ->
  rest i = if looked_for i then i :: rest (S i) else rest (S i).
Proof.
  intros H. unfold rest.
  replace (length te_pred - i) with (S (length te_pred - S i)) by lia.
  reflexivity.
Qed.

(** One turn at a position inside the arrays, with room left in the two
    ten-entry arrays. *)
Lemma listing_step_inside (st : listing A) (pair : A * A) :
  index st < length te_pred ->
  length (image_pairs st) < length (labels st) ->
  length (image_pairs st) < length (predictions st) ->
  nth_error te_pairs (index st) = Some pair ->
  listing_step select wanted te_pairs te_y te_pred st
  = Ok (if looked_for (index st)
        then MkListing (image_pairs st ++ [pair])
               (firstn (length (image_pairs st)) (labels st)
                ++ inject_Z (nth (index st) te_y 0%Z)
                   :: skipn (S (length (image_pairs st))) (labels st))
               (firstn (length (image_pairs st)) (predictions st)
                ++ nth (index st) te_pred 0%Q
                   :: skipn (S (length (image_pairs st))) (predictions st))
               (index st + 1)
        else MkListing (image_pairs st) (labels st) (predictions st)
               (index st + 1)).
Proof.
  intros Hi Hl Hp Hpair. unfold listing_step, looked_for.
  rewrite (getitem_nth te_pred (index st) 0%Q Hi). cbn [obind].
  assert (Hy : getitem te_y (index st) = Ok (nth (index st) te_y 0%Z))
    by (apply getitem_nth; lia).
  destruct (select (nth (index st) te_pred 0%Q)); cbn [andb obind].
  - rewrite Hy. cbn [obind].
    destruct (nth (index st) te_y 0%Z =? wanted)%Z; cbn [obind].
    + rewrite (proj2 (getitem_ok te_pairs (index st) pair) Hpair).
      cbn [obind].
      rewrite length_app. cbn [length].
      replace (length (image_pairs st) + 1 - 1) with (length (image_pairs st))
        by lia.
      rewrite setitem_ok by exact Hl. cbn [obind].
      rewrite setitem_ok by exact Hp. reflexivity.
    + reflexivity.
  - reflexivity.
Qed.

(** The loop from any state with fewer than ten pairs listed: it lists the
    next looked-for positions until ten are listed, or runs off the arrays. *)
Lemma listing_loop_spec (fuel : nat) :
  forall st : listing A,
    length (image_pairs st) <= 10 ->
    length (labels st) = 10 -> length (predictions st) = 10 ->
    length te_pred - index st < fuel ->
    let k := length (image_pairs st) in
    let next := firstn (10 - k) (rest (index st)) in
    if 10 - k <=? length (rest (index st))
    then
      exists st',
        listing_loop fuel select wanted te_pairs te_y te_pred st
        = Some (Ok st') /\
        image_pairs st' = image_pairs st ++ at_positions te_pairs next /\
        labels st'
        = firstn k (labels st) ++ map inject_Z (at_positions te_y next) /\
        predictions st'
        = firstn k (predictions st) ++ at_positions te_pred next
    else
      listing_loop fuel select wanted te_pairs te_y te_pred st
      = Some (Raise IndexError).
Proof.
  induction fuel as [| fuel IH]; intros st Hk Hl Hp Hfuel; [lia |].
  cbn zeta. cbn [listing_loop].
  destruct (Nat.ltb_spec (length (image_pairs st)) 10) as [Hlt | Hge].
  2:{ replace (10 - length (image_pairs st)) with 0 by lia.
      cbn [Nat.leb firstn at_positions flat_map map].
      exists st. rewrite !app_nil_r.
      rewrite !firstn_all2 by lia. repeat split; reflexivity. }
  destruct (Nat.lt_ge_cases (index st) (length te_pred)) as [Hi | Hi].
  2:{ rewrite (rest_beyond _ Hi).
      destruct (Nat.leb_spec (10 - length (image_pairs st)) (length (@nil nat)));
        [cbn [length] in *; lia |].
      unfold listing_step. rewrite (getitem_beyond te_pred _ Hi).
      reflexivity. }
  destruct (getitem_lt te_pairs (index st) ltac:(lia)) as (pair & Hpair).
  apply getitem_ok in Hpair.
  rewrite (listing_step_inside st pair Hi ltac:(lia) ltac:(lia) Hpair).
  rewrite (rest_step _ Hi).
  replace (index st + 1) with (S (index st)) by lia.
  destruct (looked_for (index st)) eqn:Elook.
  - set (st1 := MkListing _ _ _ _).
    specialize (IH st1). cbn zeta in IH.
    assert (H1 : length (image_pairs st1) = S (length (image_pairs st)))
      by (unfold st1; cbn [image_pairs]; rewrite length_app; simpl; lia).
    assert (Hidx : index st1 = S (index st))
      by (unfold st1; cbn [index]; lia).
    rewrite H1, Hidx in IH.
    specialize (IH ltac:(lia)
                   ltac:(unfold st1; cbn [labels]; rewrite set_length; lia)
                   ltac:(unfold st1; cbn [predictions];
                         rewrite set_length; lia)
                   ltac:(lia)).
    replace (10 - length (image_pairs st))
      with (S (10 - S (length (image_pairs st)))) by lia.
    cbn [length Nat.leb firstn].
    destruct (10 - S (length (image_pairs st)) <=? length (rest (S (index st))));
      [| exact IH].
    destruct IH as (st' & Hrun & Hip & Hlb & Hpr).
    exists st'. split; [exact Hrun |].
    cbn [at_positions flat_map map].
    rewrite Hpair.
    assert (Hiy : index st < length te_y) by lia.
    rewrite (nth_error_nth' te_y 0%Z Hiy).
    rewrite (nth_error_nth' te_pred 0%Q Hi).
    fold (at_positions te_pairs
            (firstn (10 - S (length (image_pairs st))) (rest (S (index st))))).
    fold (at_positions te_y
            (firstn (10 - S (length (image_pairs st))) (rest (S (index st))))).
    fold (at_positions te_pred
            (firstn (10 - S (length (image_pairs st))) (rest (S (index st))))).
    rewrite Hip, Hlb, Hpr. unfold st1. cbn [image_pairs labels predictions].
    rewrite !set_firstn by lia.
    rewrite map_app, <- !app_assoc. repeat split; reflexivity.
  - specialize (IH (MkListing (image_pairs st) (labels st) (predictions st)
                              (S (index st)))).
    cbn zeta in IH. cbn [image_pairs labels predictions index] in IH.
    apply IH; lia.
Qed.

(** From the start of a listing. *)
Lemma listing_from_start (fuel : nat) :
  length te_pred < fuel ->
  let found := listed select wanted te_y te_pred in
  if 10 <=? length found
  then
    exists st,
      listing_loop fuel select wanted te_pairs te_y te_pred (listing_start A)
      = Some (Ok st) /\
      image_pairs st = at_positions te_pairs (firstn 10 found) /\
      labels st = map inject_Z (at_positions te_y (firstn 10 found)) /\
      predictions st = at_positions te_pred (firstn 10 found)
  else
    listing_loop fuel select wanted te_pairs te_y te_pred (listing_start A)
    = Some (Raise IndexError).
Proof.
  intros Hfuel.
  pose proof (listing_loop_spec fuel (listing_start A)) as H.
  cbn [listing_start image_pairs labels predictions index length] in H.
  specialize (H ltac:(lia) eq_refl eq_refl ltac:(lia)).
  cbn zeta in H. unfold rest in H. rewrite !Nat.sub_0_r in H.
  exact H.
Qed.

End Listing.

Lemma at_positions_length {X} (l : list X) (js : list nat) :
  Forall (fun j => j < length l) js -> length (at_positions l js) = length js.
Proof.
  induction 1 as [| j js Hj _ IH]; [reflexivity |].
  cbn [at_positions flat_map]. rewrite length_app.
  fold (at_positions l js). rewrite IH.
  destruct (nth_error l j) eqn:E; [reflexivity |].
  apply nth_error_None in E. lia.
Qed.

Lemma listed_in_range (select : Q -> bool) (wanted : Z) (te_y : list Z)
    (te_pred : list Q) (k : nat) :
  Forall (fun j => j < length te_pred)
         (firstn k (listed select wanted te_y te_pred)).
Proof.
  apply Forall_forall. intros j Hj. apply firstn_incl in Hj.
  unfold listed in Hj. apply filter_In in Hj. destruct Hj as [Hj _].
  apply in_seq in Hj. lia.
Qed.

(** X22: when the test set holds at least ten false positives, the first
    listing loop of [main] stops with exactly the first ten of them, in
    order, each with its score; likewise the second loop with the first ten
    false negatives.  A false positive is a pair labeled 0 whose score passes
    the threshold test of the head, a false negative a pair labeled 1 whose
    score fails it. *)
Theorem error_listings_first_ten (A : Type) (model : string)
    (te_pairs : list (A * A)) (te_y : list Z) (te_pred : list Q)
    (fuel : nat) :
  length te_pairs = length te_pred -> length te_y = length te_pred ->
  length te_pred < fuel ->
  let fp := listed (fun s => assessment_criteria model s DISTANCE_THRESHOLD)
                   0 te_y te_pred in
  let fn := listed (fun s => negb (assessment_criteria model s
                                     DISTANCE_THRESHOLD))
                   1 te_y te_pred in
  (10 <= length fp ->
   exists st,
     first_false_positives fuel model te_pairs te_y te_pred = Some (Ok st) /\
     image_pairs st = at_positions te_pairs (firstn 10 fp) /\
     predictions st = at_positions te_pred (firstn 10 fp) /\
     length (image_pairs st) = 10) /\
  (10 <= length fn ->
   exists st,
     first_false_negatives fuel model te_pairs te_y te_pred = Some (Ok st) /\
     image_pairs st = at_positions te_pairs (firstn 10 fn) /\
     predictions st = at_positions te_pred (firstn 10 fn) /\
     length (image_pairs st) = 10).
Proof.
  intros Hp Hy Hfuel fp fn. split; intros Hten.
  - pose proof (listing_from_start A
                  (fun s => assessment_criteria model s DISTANCE_THRESHOLD)
                  0 te_pairs te_y te_pred Hp Hy fuel Hfuel) as H.
    cbn zeta in H. fold fp in H.
    apply Nat.leb_le in Hten. rewrite Hten in H. apply Nat.leb_le in Hten.
    destruct H as (st & Hrun & Hip & _ & Hpr).
    exists st. repeat split; auto.
    rewrite Hip, at_positions_length.
    + rewrite length_firstn. lia.
    + rewrite Hp. apply listed_in_range.
  - pose proof (listing_from_start A
                  (fun s => negb (assessment_criteria model s
                                    DISTANCE_THRESHOLD))
                  1 te_pairs te_y te_pred Hp Hy fuel Hfuel) as H.
    cbn zeta in H. fold fn in H.
    apply Nat.leb_le in Hten. rewrite Hten in H. apply Nat.leb_le in Hten.
    destruct H as (st & Hrun & Hip & _ & Hpr).
    exists st. repeat split; auto.
    rewrite Hip, at_positions_length.
    + rewrite length_firstn. lia.
    + rewrite Hp. apply listed_in_range.
Qed.

Lemma error_listings_first_ten_witness :
  let fp := listed (fun s => assessment_criteria "simple_head" s
                               DISTANCE_THRESHOLD)
                   0 thirty_labels thirty_scores in
  let fn := listed (fun s => negb (assessment_criteria "simple_head" s
                                     DISTANCE_THRESHOLD))
                   1 thirty_labels thirty_scores in
  (10 <= length fp ->
   exists st,
     first_false_positives 31 "simple_head" thirty_pairs thirty_labels
       thirty_scores = Some (Ok st) /\
     image_pairs st = at_positions thirty_pairs (firstn 10 fp) /\
     predictions st = at_positions thirty_scores (firstn 10 fp) /\
     length (image_pairs st) = 10) /\
  (10 <= length fn ->
   exists st,
     first_false_negatives 31 "simple_head" thirty_pairs thirty_labels
       thirty_scores = Some (Ok st) /\
     image_pairs st = at_positions thirty_pairs (firstn 10 fn) /\
     predictions st = at_positions thirty_scores (firstn 10 fn) /\
     length (image_pairs st) = 10).
Proof.
  apply (error_listings_first_ten nat "simple_head" thirty_pairs
           thirty_labels thirty_scores 31).
  - reflexivity.
  - reflexivity.
  - vm_compute. lia.
Defined.

(** X23: when the test set holds fewer than ten false positives (a model
    that makes no such error, for instance), the first listing loop does not
    stop by itself: its index runs past the end of the predictions and it
    raises [IndexError]; likewise the second loop with fewer than ten false
    negatives. *)
Theorem error_listings_run_off_the_end (A : Type) (model : string)
    (te_pairs : list (A * A)) (te_y : list Z) (te_pred : list Q)
    (fuel : nat) :
  length te_pairs = length te_pred -> length te_y = length te_pred ->
  length te_pred < fuel ->
  let fp := listed (fun s => assessment_criteria model s DISTANCE_THRESHOLD)
                   0 te_y te_pred in
  let fn := listed (fun s => negb (assessment_criteria model s
                                     DISTANCE_THRESHOLD))
                   1 te_y te_pred in
  (length fp < 10 ->
   first_false_positives fuel model te_pairs te_y te_pred
   = Some (Raise IndexError)) /\
  (length fn < 10 ->
   first_false_negatives fuel model te_pairs te_y te_pred
   = Some (Raise IndexError)).
Proof.
  intros Hp Hy Hfuel fp fn. split; intros Hfew.
  - pose proof (listing_from_start A
                  (fun s => assessment_criteria model s DISTANCE_THRESHOLD)
                  0 te_pairs te_y te_pred Hp Hy fuel Hfuel) as H.
    cbn zeta in H. fold fp in H.
    destruct (Nat.leb_spec 10 (length fp)); [lia | exact H].
  - pose proof (listing_from_start A
                  (fun s => negb (assessment_criteria model s
                                    DISTANCE_THRESHOLD))
                  1 te_pairs te_y te_pred Hp Hy fuel Hfuel) as H.
    cbn zeta in H. fold fn in H.
    destruct (Nat.leb_spec 10 (length fn)); [lia | exact H].
Qed.

Lemma error_listings_run_off_the_end_witness :
  let fp := listed (fun s => assessment_criteria "simple_head" s
                               DISTANCE_THRESHOLD)
                   0 thirty_labels thirty_scores in
  let fn := listed (fun s => negb (assessment_criteria "simple_head" s
                                     DISTANCE_THRESHOLD))
                   1 thirty_labels thirty_scores in
  (length fp < 10 ->
   first_false_positives 31 "simple_head" thirty_pairs thirty_labels
     thirty_scores = Some (Raise IndexError)) /\
  (length fn < 10 ->
   first_false_negatives 31 "simple_head" thirty_pairs thirty_labels
     thirty_scores = Some (Raise IndexError)).
Proof.
  apply (error_listings_run_off_the_end nat "simple_head" thirty_pairs
           thirty_labels thirty_scores 31).
  - reflexivity.
  - reflexivity.
  - vm_compute. lia.
Defined.

(** ** The grids of the two plotting functions *)

Lemma subplots_app {A} (a b : list (plot_call A)) :
  subplots (a ++ b) = subplots a ++ subplots b.
Proof.
  induction a as [| c a IH]; simpl; [reflexivity |].
  destruct c; simpl; rewrite ?IH; reflexivity.
Qed.

Lemma cells_in_order (rows cols n : nat) :
  flat_map (fun i => [(rows, cols, 2 * i + 1); (rows, cols, 2 * i + 2)])
           (seq 0 n)
  = map (fun index => (rows, cols, index)) (seq 1 (2 * n)).
Proof.
  induction n as [| n IH]; [reflexivity |].
  rewrite seq_S, flat_map_app, IH. cbn [flat_map Nat.add app].
  replace (2 * S n) with (2 * n + 2) by lia.
  rewrite seq_app, map_app. cbn [seq map].
  replace (1 + 2 * n) with (2 * n + 1) by lia.
  replace (S (2 * n + 1)) with (2 * n + 2) by lia.
  reflexivity.
Qed.

Lemma foldO_app {X S} (f : S -> X -> outcome S) (a b : list X) (s : S) :
  foldO f (a ++ b) s = obind (foldO f a s) (foldO f b).
Proof.
  revert s. induction a as [| x a IH]; intros s; [reflexivity |].
  cbn [app foldO]. destruct (f s x) as [s1 | e]; [apply IH | reflexivity].
Qed.

Lemma add_subplot_inside (A : Type) (rows cols index : nat) :
  1 <= index <= rows * cols ->
  @add_subplot A rows cols index = Ok (AddSubplot rows cols index).
Proof.
  intros H. unfold add_subplot.
  assert (H1 : (1 <=? rows) = true) by (apply Nat.leb_le; nia).
  assert (H2 : (1 <=? cols) = true) by (apply Nat.leb_le; nia).
  assert (H3 : (1 <=? index) = true) by (apply Nat.leb_le; lia).
  assert (H4 : (index <=? rows * cols) = true) by (apply Nat.leb_le; lia).
  rewrite H1, H2, H3, H4. reflexivity.
Qed.

Lemma add_subplot_outside (A : Type) (rows cols index : nat) :
  rows * cols < index -> @add_subplot A rows cols index = Raise ValueError.
Proof.
  intros H. unfold add_subplot.
  assert (H4 : (index <=? rows * cols) = false) by (apply Nat.leb_gt; lia).
  rewrite H4, !andb_false_r. reflexivity.
Qed.

Section PlotFolds.

Variable A : Type.
Variable image_pairs : list (A * A).
Variable labels : list Z.
Variable predictions : list Q.
Variable rows : nat.

Lemma plot_examples_fold (l : list nat) :
  forall calls : list (plot_call A),
    (forall i, In i l ->
       i < length image_pairs /\ i < length predictions /\
       2 * i + 2 <= rows * 2) ->
    exists out,
      foldO (fun calls i =>
               pair <~ getitem image_pairs i ;;
               distance <~ getitem predictions i ;;
               cell0 <~ add_subplot rows 2 (2 * i + 1) ;;
               cell1 <~ add_subplot rows 2 (2 * i + 2) ;;
               Ok (calls ++
                   [cell0; Imshow (fst pair);
                    cell1; Imshow (snd pair);
                    Ylabel distance]))
            l calls
      = Ok (calls ++ out) /\
      subplots out
      = flat_map (fun i => [(rows, 2, 2 * i + 1); (rows, 2, 2 * i + 2)]) l.
Proof.
  induction l as [| i l IH]; intros calls Hl.
  - exists []. rewrite app_nil_r. split; reflexivity.
  - destruct (Hl i (or_introl eq_refl)) as (Hi & Hp & Hgrid).
    destruct (getitem_lt image_pairs i Hi) as (pair & Hpair).
    destruct (getitem_lt predictions i Hp) as (distance & Hdist).
    cbn [foldO]. rewrite Hpair. cbn [obind]. rewrite Hdist. cbn [obind].
    rewrite !add_subplot_inside by lia. cbn [obind].
    destruct (IH (calls ++
                  [AddSubplot rows 2 (2 * i + 1); Imshow (fst pair);
                   AddSubplot rows 2 (2 * i + 2); Imshow (snd pair);
                   Ylabel distance])
                 (fun j Hj => Hl j (or_intror Hj))) as (out & Hrun & Hsub).
    eexists. split.
    + rewrite Hrun, <- app_assoc. reflexivity.
    + rewrite subplots_app, Hsub. reflexivity.
Qed.

Lemma plot_examples_separated_fold (l : list nat) :
  forall calls : list (plot_call A),
    (forall i, In i l ->
       i < length image_pairs /\ i < length labels /\
       i < length predictions /\ 2 * i + 2 <= rows * 4) ->
    exists out,
      foldO (fun calls i =>
               pair <~ getitem image_pairs i ;;
               label <~ getitem labels i ;;
               distance <~ getitem predictions i ;;
               cell0 <~ add_subplot rows 4 (i * 2 + 1) ;;
               cell1 <~ add_subplot rows 4 (i * 2 + 2) ;;
               Ok (calls ++
                   [cell0; Imshow (fst pair);
                    cell1; Imshow (snd pair);
                    Xlabel (if (label =? 0)%Z then "==" else "!=")%string;
                    Ylabel distance]))
            l calls
      = Ok (calls ++ out) /\
      subplots out
      = flat_map (fun i => [(rows, 4, 2 * i + 1); (rows, 4, 2 * i + 2)]) l.
Proof.
  induction l as [| i l IH]; intros calls Hl.
  - exists []. rewrite app_nil_r. split; reflexivity.
  - destruct (Hl i (or_introl eq_refl)) as (Hi & Hy & Hp & Hgrid).
    destruct (getitem_lt image_pairs i Hi) as (pair & Hpair).
    destruct (getitem_lt labels i Hy) as (label & Hlabel).
    destruct (getitem_lt predictions i Hp) as (distance & Hdist).
    cbn [foldO]. rewrite Hpair. cbn [obind]. rewrite Hlabel. cbn [obind].
    rewrite Hdist. cbn [obind].
    rewrite !add_subplot_inside by lia. cbn [obind].
    destruct (IH (calls ++
                  [AddSubplot rows 4 (i * 2 + 1); Imshow (fst pair);
                   AddSubplot rows 4 (i * 2 + 2); Imshow (snd pair);
                   Xlabel (if (label =? 0)%Z then "==" else "!=")%string;
                   Ylabel distance])
                 (fun j Hj => Hl j (or_intror Hj))) as (out & Hrun & Hsub).
    eexists. split.
    + rewrite Hrun, <- app_assoc. reflexivity.
    + rewrite subplots_app, Hsub. cbn [subplots app flat_map].
      replace (i * 2 + 1) with (2 * i + 1) by lia.
      replace (i * 2 + 2) with (2 * i + 2) by lia.
      reflexivity.
Qed.

End PlotFolds.

(** X24: given a prediction for every pair, [plot_examples] completes and
    asks for the cells 1, 2, ..., [2 * num] of a grid of [num] rows and 2
    columns, in this order: every cell of the grid exactly once. *)
Theorem plot_examples_fills_grid (A : Type) (image_pairs : list (A * A))
    (predictions : list Q) :
  length image_pairs <= length predictions ->
  exists calls,
    plot_examples image_pairs predictions = Ok calls /\
    subplots calls
    = map (fun index => (length image_pairs, 2, index))
          (seq 1 (length image_pairs * 2)).
Proof.
  intros Hlen. unfold plot_examples.
  destruct (plot_examples_fold A image_pairs predictions (length image_pairs)
              (range 0 (length image_pairs)) [Figure 1])
    as (out & Hrun & Hsub).
  { intros i Hi. unfold range in Hi. apply in_seq in Hi. lia. }
  rewrite Hrun. cbn [obind]. eexists. split; [reflexivity |].
  rewrite !subplots_app, Hsub. cbn [subplots app].
  rewrite app_nil_r. unfold range. rewrite Nat.sub_0_r.
  rewrite cells_in_order. rewrite (Nat.mul_comm 2). reflexivity.
Qed.

Lemma plot_examples_fills_grid_witness :
  exists calls,
    plot_examples [(1, 2); (3, 4)] [1 # 2; 1 # 4]%Q = Ok calls /\
    subplots calls
    = map (fun index => (length [(1, 2); (3, 4)], 2, index))
          (seq 1 (length [(1, 2); (3, 4)] * 2)).
Proof.
  apply (plot_examples_fills_grid nat [(1, 2); (3, 4)] [1 # 2; 1 # 4]%Q).
  simpl. lia.
Defined.

Lemma even_half (num : nat) : Nat.even num = true -> num / 2 * 4 = num * 2.
Proof.
  intros H. apply Nat.even_spec in H. destruct H as (h & Hh).
  assert (Hdiv : num / 2 = h).
  { rewrite Hh. symmetry. apply (Nat.div_unique (2 * h) 2 h 0); lia. }
  lia.
Qed.

Lemma odd_half (num : nat) :
  Nat.even num = false -> num = S (num / 2 * 2) /\ num / 2 * 4 = (num - 1) * 2.
Proof.
  intros H.
  assert (Hodd : Nat.odd num = true)
    by (rewrite <- Nat.negb_even, H; reflexivity).
  apply Nat.odd_spec in Hodd. destruct Hodd as (h & Hh).
  assert (Hdiv : num / 2 = h).
  { rewrite Hh. symmetry. apply (Nat.div_unique (2 * h + 1) 2 h 1); lia. }
  lia.
Qed.

(** On an even number of pairs every cell asked for is in the grid and the
    function completes. *)
Lemma separated_cells (A : Type) (image_pairs : list (A * A))
    (labels : list Z) (predictions : list Q) :
  length image_pairs <= length labels ->
  length image_pairs <= length predictions ->
  Nat.even (length image_pairs) = true ->
  exists calls,
    plot_examples_separated image_pairs labels predictions = Ok calls /\
    subplots calls
    = map (fun index => (length image_pairs / 2, 4, index))
          (seq 1 (length image_pairs / 2 * 4)).
Proof.
  intros Hl Hp Heven. apply even_half in Heven.
  unfold plot_examples_separated.
  destruct (plot_examples_separated_fold A image_pairs labels predictions
              (length image_pairs / 2) (range 0 (length image_pairs))
              [Figure 1])
    as (out & Hrun & Hsub).
  { intros i Hi. unfold range in Hi. apply in_seq in Hi. lia. }
  rewrite Hrun. cbn [obind]. eexists. split; [reflexivity |].
  rewrite !subplots_app, Hsub. cbn [subplots app].
  rewrite app_nil_r. unfold range. rewrite Nat.sub_0_r.
  rewrite cells_in_order, Heven, (Nat.mul_comm 2). reflexivity.
Qed.

(** On an odd number of pairs the first cell of the last pair is beyond the
    grid. *)
Lemma separated_overflow (A : Type) (image_pairs : list (A * A))
    (labels : list Z) (predictions : list Q) :
  length image_pairs <= length labels ->
  length image_pairs <= length predictions ->
  Nat.even (length image_pairs) = false ->
  plot_examples_separated image_pairs labels predictions = Raise ValueError.
Proof.
  intros Hl Hp Hodd. apply odd_half in Hodd. destruct Hodd as [Hnum Hgrid].
  unfold plot_examples_separated.
  set (num := length image_pairs) in *.
  set (last := num / 2 * 2) in *.
  assert (Hseq : seq 0 num = seq 0 last ++ [last]).
  { rewrite Hnum at 1. rewrite seq_S. reflexivity. }
  unfold range. rewrite Nat.sub_0_r, Hseq, foldO_app.
  destruct (plot_examples_separated_fold A image_pairs labels predictions
              (num / 2) (seq 0 last) [Figure 1])
    as (out & Hrun & _).
  { intros i Hi. apply in_seq in Hi. fold num. lia. }
  fold num in Hrun. rewrite Hrun. cbn [obind foldO].
  destruct (getitem_lt image_pairs last ltac:(fold num; lia))
    as (pair & ->).
  destruct (getitem_lt labels last ltac:(lia)) as (label & ->).
  destruct (getitem_lt predictions last ltac:(lia)) as (distance & ->).
  cbn [obind]. rewrite add_subplot_outside by lia. reflexivity.
Qed.

(** X25: given a label and a prediction for every pair,
    [plot_examples_separated] asks for a grid of [num // 2] rows and 4
    columns.  On an even number of pairs it completes and asks for every
    cell of that grid exactly once, in order; on an odd number of pairs the
    last pair falls beyond the grid and the function raises [ValueError]
    (for a single pair the grid has no row at all). *)
Theorem plot_examples_separated_grid (A : Type) (image_pairs : list (A * A))
    (labels : list Z) (predictions : list Q) :
  length image_pairs <= length labels ->
  length image_pairs <= length predictions ->
  (Nat.even (length image_pairs) = true ->
   exists calls,
     plot_examples_separated image_pairs labels predictions = Ok calls /\
     subplots calls
     = map (fun index => (length image_pairs / 2, 4, index))
           (seq 1 (length image_pairs / 2 * 4))) /\
  (Nat.even (length image_pairs) = false ->
   plot_examples_separated image_pairs labels predictions
   = Raise ValueError).
Proof.
  intros Hl Hp. split.
  - exact (separated_cells A image_pairs labels predictions Hl Hp).
  - exact (separated_overflow A image_pairs labels predictions Hl Hp).
Qed.

Lemma plot_examples_separated_grid_witness :
  (exists calls,
     plot_examples_separated [(1, 2); (3, 4)] [1; 0]%Z [1 # 2; 1 # 4]%Q
     = Ok calls /\
     subplots calls = [(1, 4, 1); (1, 4, 2); (1, 4, 3); (1, 4, 4)]) /\
  plot_examples_separated [(1, 2); (3, 4); (5, 6)] [1; 0; 1]%Z
    [1 # 2; 1 # 4; 1]%Q = Raise ValueError /\
  plot_examples_separated [(1, 2)] [1]%Z [1 # 2]%Q = Raise ValueError.
Proof.
  split; [| split].
  - apply (plot_examples_separated_grid nat [(1, 2); (3, 4)] [1; 0]%Z
             [1 # 2; 1 # 4]%Q); [simpl; lia | simpl; lia | reflexivity].
  - apply (plot_examples_separated_grid nat [(1, 2); (3, 4); (5, 6)]
             [1; 0; 1]%Z [1 # 2; 1 # 4; 1]%Q);
      [simpl; lia | simpl; lia | reflexivity].
  - apply (plot_examples_separated_grid nat [(1, 2)] [1]%Z [1 # 2]%Q);
      [simpl; lia | simpl; lia | reflexivity].
Defined.

(** X26: what [main] plots first always fits its grid: for the first 20 pairs
    and labels of a returned [create_pairs] and the first 20 of as many
    predictions, [plot_examples_separated] completes and every cell it asks
    for lies in the grid, because [create_pairs] returns an even number of
    pairs. *)
Theorem first_plot_fits_grid (K : nat) (A : Type) (x : list A)
    (pools : list (list nat)) (w : world) (te_pairs : list (A * A))
    (te_y : list Z) (w' : world) (te_pred : list Q) :
  create_pairs K x pools w = (Ok (te_pairs, te_y), w') ->
  length te_pred = length te_pairs ->
  exists calls,
    plot_examples_separated (firstn 20 te_pairs) (firstn 20 te_y)
      (firstn 20 te_pred) = Ok calls /\
    Nat.even (length (firstn 20 te_pairs)) = true /\
    Forall (fun cell : nat * nat * nat =>
              let '(rows, cols, index) := cell in
              1 <= index <= rows * cols)
           (subplots calls).
Proof.
  intros Hrun Hpred.
  destruct (create_pairs_count K A x pools w te_pairs te_y w' Hrun)
    as (n & _ & Hp & Hl).
  assert (Heven : Nat.even (length (firstn 20 te_pairs)) = true).
  { apply Nat.even_spec. rewrite length_firstn, Hp.
    exists (Nat.min 10 (K * choose2 n)). lia. }
  destruct (separated_cells A (firstn 20 te_pairs) (firstn 20 te_y)
              (firstn 20 te_pred))
    as (calls & Hcalls & Hcells).
  - rewrite !length_firstn. lia.
  - rewrite !length_firstn. lia.
  - exact Heven.
  - exists calls. split; [exact Hcalls | split; [exact Heven |]].
    rewrite Hcells, Forall_map, Forall_forall.
    intros index Hin. apply in_seq in Hin. lia.
Qed.

Lemma first_plot_fits_grid_witness :
  exists calls,
    plot_examples_separated (firstn 20 ten_step_pairs)
      (firstn 20 (alternating 10)) (firstn 20 thirty_scores) = Ok calls /\
    Nat.even (length (firstn 20 ten_step_pairs)) = true /\
    Forall (fun cell : nat * nat * nat =>
              let '(rows, cols, index) := cell in
              1 <= index <= rows * cols)
           (subplots calls).
Proof.
  apply (first_plot_fits_grid NUM_CLASSES nat even_labels
           (get_digit_indices NUM_CLASSES even_labels 2)
           (world_of zero_draws) ten_step_pairs (alternating 10)
           (MkWorld zero_draws 20 []) (firstn 20 thirty_scores)).
  - vm_compute. reflexivity.
  - reflexivity.
Defined.
